(** * container-exec-mcp: the exec stream demultiplexer, shell escaping,
      tool handlers, HTTP authentication and the tool registry.

    A shallow embedding of the TypeScript sources.  JavaScript numbers that
    hold buffer offsets and lengths are modelled as [Z]: every value the code
    computes on them stays far below 2^53, where doubles are exact.  Strings
    are [String.string], a character standing for a code unit below 256;
    buffers are lists of bytes. *)

From Stdlib Require Import ZArith List Bool Lia.
From Stdlib Require Import Strings.String Strings.Ascii Strings.Byte.
From Stdlib Require Import QArith DecimalString.
From Stdlib Require Qcanon.
Import ListNotations.

Local Open Scope Z_scope.

(* ================================================================== *)
(** * Part I: definitions *)
(* ================================================================== *)

(** ** JavaScript values shared by all modules *)
Module JS.

(** What a [throw] carries: an [Error] object with its [message], or any
    other value ([error instanceof Error] is false for it). *)
Inductive thrown : Type :=
| JsError (message : string)
| JsOther.

(** How a synchronous piece of code ends. *)
Inductive completion (A : Type) : Type :=
| Return (a : A)
| Throw (e : thrown).
Arguments Return {A} a.
Arguments Throw {A} e.

(** [error instanceof Error ? error.message : fallback] *)
Definition message_or (fallback : string) (e : thrown) : string :=
  match e with
  | JsError m => m
  | JsOther => fallback
  end.

(** [xs.join('')] on a list of strings. *)
Definition concat_strings (xs : list string) : string :=
  fold_right String.append EmptyString xs.

End JS.

(** ** Docker's multiplexed stream (exec.ts, [parseDockerStream]) *)
Module Demux.
Import JS.

Definition Buffer := list byte.

Definition byte_val (b : byte) : Z := Z.of_N (Byte.to_N b).

(** [data.length] *)
Definition length (data : Buffer) : Z := Z.of_nat (List.length data).

(** [data[i]]: [undefined] (here [None]) outside the buffer. *)
Definition index (data : Buffer) (i : Z) : option Z :=
  if i <? 0 then None
  else option_map byte_val (nth_error data (Z.to_nat i)).

(** [data.readUInt32BE(off)]: Node throws a RangeError unless
    [0 <= off <= length - 4]. *)
Definition readUInt32BE (data : Buffer) (off : Z) : completion Z :=
  match index data off, index data (off + 1),
        index data (off + 2), index data (off + 3) with
  | Some first, Some b1, Some b2, Some last =>
      Return (first * 2 ^ 24 + b1 * 2 ^ 16 + b2 * 2 ^ 8 + last)
  | _, _, _, _ => Throw (JsError "ERR_OUT_OF_RANGE")
  end.

(** Index normalisation of [Buffer.prototype.slice]: negative indices count
    from the end, and everything is clamped to the buffer. *)
Definition clamp_index (len i : Z) : Z :=
  if i <? 0 then Z.max 0 (len + i) else Z.min i len.

(** [data.slice(from, to)] *)
Definition slice (data : Buffer) (from to : Z) : Buffer :=
  let s := clamp_index (length data) from in
  let e := clamp_index (length data) to in
  firstn (Z.to_nat (e - s)) (skipn (Z.to_nat s) data).

Record output : Type := { stdout : string; stderr : string }.

(** The three locals of the loop. *)
Record loop_state : Type :=
  { st_stdout : string; st_stderr : string; st_offset : Z }.

Definition initial : loop_state :=
  {| st_stdout := EmptyString; st_stderr := EmptyString; st_offset := 0 |}.

Definition result_of (st : loop_state) : output :=
  {| stdout := st_stdout st; stderr := st_stderr st |}.

(** One pass through the body of the [while]. *)
Inductive iteration : Type :=
| Break
| Continue (st' : loop_state)
| Raise (e : thrown).

Section WithDecoder.

(** [Buffer.prototype.toString()]: Node's UTF-8 decoder. *)
Variable toString : Buffer -> string.

Definition body (data : Buffer) (st : loop_state) : iteration :=
  let offset := st_offset st in
  if offset + 8 >? length data then Break
  else
    let streamType := index data offset in
    match readUInt32BE data (offset + 4) with
    | Throw e => Raise e
    | Return size =>
        if offset + 8 + size >? length data then Break
        else
          let chunk :=
            toString (slice data (offset + 8) (offset + 8 + size)) in
          Continue
            {| st_stdout :=
                 match streamType with
                 | Some 1 => (st_stdout st ++ chunk)%string
                 | _ => st_stdout st
                 end;
               st_stderr :=
                 match streamType with
                 | Some 1 => st_stderr st
                 | Some 2 => (st_stderr st ++ chunk)%string
                 | _ => st_stderr st
                 end;
               st_offset := offset + 8 + size |}
    end.

(** [while (offset < data.length) { body }], at most [fuel] tests of the
    loop condition; [None] when the fuel runs out before the loop ends. *)
Fixpoint while (fuel : nat) (data : Buffer) (st : loop_state)
  : option (completion output) :=
  match fuel with
  | O => None
  | S fuel' =>
      if st_offset st <? length data then
        match body data st with
        | Break => Some (Return (result_of st))
        | Raise e => Some (Throw e)
        | Continue st' => while fuel' data st'
        end
      else Some (Return (result_of st))
  end.

Definition parseDockerStream (data : Buffer) : option (completion output) :=
  while (S (List.length data)) data initial.

End WithDecoder.

(** *** The frame format, as the specification words it *)

(** A frame: a 1-byte stream-type tag, 3 reserved bytes, and the payload
    whose length is sent as 4 big-endian bytes. *)
Record frame : Type :=
  { tag : byte;
    reserved : byte * byte * byte;
    payload : Buffer }.

Definition byte_of (z : Z) : byte :=
  match Byte.of_N (Z.to_N z) with
  | Some b => b
  | None => x00
  end.

Definition be32 (n : Z) : Buffer :=
  [ byte_of (n / 2 ^ 24 mod 256); byte_of (n / 2 ^ 16 mod 256);
    byte_of (n / 2 ^ 8  mod 256); byte_of (n mod 256) ].

Definition encode_frame (f : frame) : Buffer :=
  let '(r1, r2, r3) := reserved f in
  tag f :: r1 :: r2 :: r3 :: be32 (length (payload f)) ++ payload f.

Definition encode_frames (fs : list frame) : Buffer :=
  flat_map encode_frame fs.

(** The payload length fits the 4-byte field. *)
Definition wf_frame (f : frame) : Prop := length (payload f) < 2 ^ 32.

(** A suffix that holds no complete frame: shorter than a header, or its
    header declares more payload than is left. *)
Definition truncated (rest : Buffer) : Prop :=
  length rest < 8 \/
  exists size, readUInt32BE rest 4 = Return size /\ length rest < 8 + size.

Definition truncatedb (rest : Buffer) : bool :=
  (length rest <? 8) ||
  match readUInt32BE rest 4 with
  | Return size => length rest <? 8 + size
  | Throw _ => false
  end.

Section Payloads.
Variable toString : Buffer -> string.

(** The decoded payloads of the frames carrying tag [t], in frame order. *)
Definition payloads_of (t : Z) (fs : list frame) : string :=
  concat_strings
    (map (fun f => toString (payload f))
         (filter (fun f => byte_val (tag f) =? t) fs)).

Definition demux (fs : list frame) : output :=
  {| stdout := payloads_of 1 fs; stderr := payloads_of 2 fs |}.
End Payloads.

(** Splitting a buffer into its complete leading frames and what is left. *)
Fixpoint split_frames (fuel : nat) (data : Buffer) : list frame * Buffer :=
  match fuel with
  | O => ([], data)
  | S fuel' =>
      match data with
      | t :: r1 :: r2 :: r3 :: l0 :: l1 :: l2 :: l3 :: more =>
          let size := byte_val l0 * 2 ^ 24 + byte_val l1 * 2 ^ 16
                      + byte_val l2 * 2 ^ 8 + byte_val l3 in
          if length more <? size then ([], data)
          else
            let '(fs, rest) := split_frames fuel' (skipn (Z.to_nat size) more) in
            ({| tag := t; reserved := (r1, r2, r3);
                payload := firstn (Z.to_nat size) more |} :: fs, rest)
      | _ => ([], data)
      end
  end.

(** The state after one more frame has been consumed. *)
Definition consume (toString : Buffer -> string)
  (st : loop_state) (f : frame) : loop_state :=
  {| st_stdout := if byte_val (tag f) =? 1
                  then (st_stdout st ++ toString (payload f))%string
                  else st_stdout st;
     st_stderr := if byte_val (tag f) =? 2
                  then (st_stderr st ++ toString (payload f))%string
                  else st_stderr st;
     st_offset := st_offset st + 8 + length (payload f) |}.

(** A concrete stream: a stdout frame, a stderr frame, a frame with an
    unknown tag, and a last header that announces 5 bytes where 1 follows. *)
Definition sample_frames : list frame :=
  [ {| tag := x01; reserved := (x00, x00, x00); payload := [x68; x69] |};
    {| tag := x02; reserved := (x00, x00, x00); payload := [x65; x72; x72] |};
    {| tag := x03; reserved := (x00, x00, x00); payload := [x78] |} ].

Definition sample_suffix : Buffer :=
  [x01; x00; x00; x00; x00; x00; x00; x05; x61].

End Demux.

(** ** Node's UTF-8 decoder ([Buffer.prototype.toString()])

    The decoder of the Encoding standard: a byte sequence that is not
    well-formed UTF-8 decodes to U+FFFD, one for each maximal ill-formed
    part, and so does a multi-byte sequence that the buffer cuts short. *)
Module UTF8.
Import Demux.

(** A multi-byte sequence under way: the bits read so far, the number of
    continuation bytes still due, and the range the next byte must lie
    in. *)
Record partial : Type :=
  { code_point : Z; bytes_due : nat; lower : Z; upper : Z }.

(** What a byte does at the start of a sequence. *)
Inductive start : Type :=
| Single (cp : Z)
| Lead (p : partial)
| Malformed.

Definition lead (b : Z) : start :=
  if b <=? 127 then Single b
  else if (194 <=? b) && (b <=? 223) then
    Lead {| code_point := Z.land b 31; bytes_due := 1;
            lower := 128; upper := 191 |}
  else if (224 <=? b) && (b <=? 239) then
    Lead {| code_point := Z.land b 15; bytes_due := 2;
            lower := if b =? 224 then 160 else 128;
            upper := if b =? 237 then 159 else 191 |}
  else if (240 <=? b) && (b <=? 244) then
    Lead {| code_point := Z.land b 7; bytes_due := 3;
            lower := if b =? 240 then 144 else 128;
            upper := if b =? 244 then 143 else 191 |}
  else Malformed.

Definition replacement : Z := 65533.

(** The code points of the rest of the buffer, [st] being the sequence
    under way, if any. *)
Fixpoint decode_from (st : option partial) (bytes : Buffer) : list Z :=
  match bytes with
  | [] =>
      match st with
      | Some _ => [replacement]
      | None => []
      end
  | b :: rest =>
      let fresh :=
        match lead (byte_val b) with
        | Single cp => cp :: decode_from None rest
        | Lead p => decode_from (Some p) rest
        | Malformed => replacement :: decode_from None rest
        end in
      match st with
      | None => fresh
      | Some p =>
          if (lower p <=? byte_val b) && (byte_val b <=? upper p) then
            let cp :=
              Z.lor (Z.shiftl (code_point p) 6) (Z.land (byte_val b) 63) in
            match bytes_due p with
            | S (S due) =>
                decode_from
                  (Some {| code_point := cp; bytes_due := S due;
                           lower := 128; upper := 191 |})
                  rest
            | _ => cp :: decode_from None rest
            end
          else replacement :: fresh
      end
  end.

Definition decode (data : Buffer) : list Z := decode_from None data.

(** The UTF-16 code units of a code point. *)
Definition code_units (cp : Z) : list Z :=
  if cp <? 65536 then [cp]
  else [ 55296 + Z.shiftr (cp - 65536) 10; 56320 + Z.land (cp - 65536) 1023 ].

(** The strings of this development hold code units below 256.  A code
    unit of 256 or more is shown as the substitute character (code 26);
    since that is done unit by unit, two texts that are shown differently
    are different texts. *)
Definition shown (unit : Z) : ascii :=
  if unit <? 256 then ascii_of_N (Z.to_N unit) else "026"%char.

Definition toString (data : Buffer) : string :=
  string_of_list_ascii (map shown (flat_map code_units (decode data))).

(** Two frames of standard output that split the two bytes of U+00E9. *)
Definition split_character : list frame :=
  [ {| tag := x01; reserved := (x00, x00, x00); payload := [xc3] |};
    {| tag := x01; reserved := (x00, x00, x00); payload := [xa9] |} ].

End UTF8.


(** ** The string operations of JavaScript that the tools use *)
Module JSString.

Definition nl : string := String "010"%char EmptyString.
Definition dq : string := String "034"%char EmptyString.

(** The truthy values of an optional string: [undefined] and the empty
    string are falsy, so [!x] holds exactly when this is [None]. *)
Definition truthy (x : option string) : option string :=
  match x with
  | Some (String c rest) => Some (String c rest)
  | _ => None
  end.

(** [!!x] *)
Definition nonempty_option (x : option string) : bool :=
  match truthy x with
  | Some _ => true
  | None => false
  end.

(** [String(n)] for an integer [n]. *)
Definition string_of_Z (n : Z) : string := NilZero.string_of_int (Z.to_int n).

(** [c.repeat(n)] *)
Fixpoint repeat (s : string) (n : nat) : string :=
  match n with
  | O => EmptyString
  | S n' => (s ++ repeat s n')%string
  end.

(** [xs.join(sep)] *)
Fixpoint join (sep : string) (xs : list string) : string :=
  match xs with
  | [] => EmptyString
  | [x] => x
  | x :: rest => (x ++ sep ++ join sep rest)%string
  end.

(** [s.substring(n)] for [0 <= n]: [s] without its first [n] characters. *)
Fixpoint drop (n : nat) (s : string) : string :=
  match n, s with
  | O, _ => s
  | S n', String _ rest => drop n' rest
  | S _, EmptyString => EmptyString
  end.

(** [s.substring(0, n)]: the first [n] characters of [s]. *)
Fixpoint take (n : nat) (s : string) : string :=
  match n, s with
  | O, _ => EmptyString
  | S n', String c rest => String c (take n' rest)
  | S _, EmptyString => EmptyString
  end.

(** White space in the sense of [trim], among the code units below 256:
    tab, line feed, vertical tab, form feed, carriage return, space and
    the no-break space. *)
Definition white (c : ascii) : bool :=
  existsb (Ascii.eqb c)
    ["009"; "010"; "011"; "012"; "013"; "032"; "160"]%char.

Fixpoint trimStart (s : string) : string :=
  match s with
  | EmptyString => EmptyString
  | String c rest => if white c then trimStart rest else s
  end.

(** [s] without its trailing white space. *)
Fixpoint trimEnd (s : string) : string :=
  match s with
  | EmptyString => EmptyString
  | String c rest =>
      match trimEnd rest with
      | EmptyString => if white c then EmptyString else String c EmptyString
      | kept => String c kept
      end
  end.

Definition trim (s : string) : string := trimEnd (trimStart s).

(** [s.indexOf(pat)]: the first position where [pat] occurs, [None] for
    JavaScript's [-1]. *)
Fixpoint indexOf (s pat : string) : option nat :=
  if String.prefix pat s then Some O
  else
    match s with
    | EmptyString => None
    | String _ rest => option_map S (indexOf rest pat)
    end.

(** [s.includes(pat)] *)
Definition includes (s pat : string) : bool :=
  match indexOf s pat with
  | Some _ => true
  | None => false
  end.

(** The number of occurrences of a non-empty [sep] met by a left-to-right
    scan that resumes after each occurrence; [skip] characters are still
    part of the occurrence found last. *)
Fixpoint occurrences_from (skip : nat) (s sep : string) : nat :=
  match s with
  | EmptyString => O
  | String _ rest =>
      match skip with
      | S k => occurrences_from k rest sep
      | O =>
          if String.prefix sep s
          then S (occurrences_from (String.length sep - 1) rest sep)
          else occurrences_from O rest sep
      end
  end.

(** [s.split(sep).length]: one piece per code unit for the empty
    separator, else one more than the occurrences of [sep]. *)
Definition split_length (s sep : string) : Z :=
  match sep with
  | EmptyString => Z.of_nat (String.length s)
  | _ => Z.of_nat (S (occurrences_from O s sep))
  end.

(** GetSubstitution of ECMAScript, for a search by string (no capture
    groups): in the replacement text [$$] stands for a dollar sign, [$&] for
    the matched text, [$`] for what precedes the match and [$'] for what
    follows it; any other character, a dollar sign included, stands for
    itself. *)
Fixpoint GetSubstitution (matched before after : string) (template : string)
  : string :=
  match template with
  | EmptyString => EmptyString
  | String c rest =>
      if Ascii.eqb c "$" then
        match rest with
        | EmptyString => String c EmptyString
        | String d rest' =>
            if Ascii.eqb d "$" then
              String "$" (GetSubstitution matched before after rest')
            else if Ascii.eqb d "&" then
              (matched ++ GetSubstitution matched before after rest')%string
            else if Ascii.eqb d "`" then
              (before ++ GetSubstitution matched before after rest')%string
            else if Ascii.eqb d "'" then
              (after ++ GetSubstitution matched before after rest')%string
            else String c (GetSubstitution matched before after rest)
        end
      else String c (GetSubstitution matched before after rest)
  end.

(** [s.replace(pat, repl)] with a string [pat]: the first occurrence only. *)
Definition replace (s pat repl : string) : string :=
  match indexOf s pat with
  | None => s
  | Some pos =>
      let before := take pos s in
      let after := drop (pos + String.length pat) s in
      (before ++ GetSubstitution pat before after repl ++ after)%string
  end.

(** [s.replaceAll(pat, repl)] with a string [pat].  [seen] is the part of
    the subject already passed, [s] what is left of it; [skip] characters of
    [s] belong to the occurrence replaced last.  The empty pattern occurs
    before every character and at the end. *)
Fixpoint replaceAll_from (pat repl : string) (skip : nat) (seen s : string)
  : string :=
  match s with
  | EmptyString =>
      match pat with
      | EmptyString => GetSubstitution pat seen EmptyString repl
      | _ => EmptyString
      end
  | String c rest =>
      let seen' := (seen ++ String c EmptyString)%string in
      match skip with
      | S k => replaceAll_from pat repl k seen' rest
      | O =>
          if String.prefix pat s then
            let sub :=
              GetSubstitution pat seen (drop (String.length pat) s) repl in
            match pat with
            | EmptyString =>
                (sub ++ String c (replaceAll_from pat repl O seen' rest))%string
            | _ =>
                (sub ++ replaceAll_from pat repl (String.length pat - 1)
                          seen' rest)%string
            end
          else String c (replaceAll_from pat repl O seen' rest)
      end
  end.

Definition replaceAll (s pat repl : string) : string :=
  replaceAll_from pat repl O EmptyString s.

(** [s.split(sep)] for a separator of one character. *)
Fixpoint split_on (sep : ascii) (s : string) : list string :=
  match s with
  | EmptyString => [EmptyString]
  | String c rest =>
      if Ascii.eqb c sep then EmptyString :: split_on sep rest
      else
        match split_on sep rest with
        | line :: lines => String c line :: lines
        | [] => [String c EmptyString]
        end
  end.

(** [s.padStart(width)]: blanks on the left up to [width] characters. *)
Definition padStart (width : nat) (s : string) : string :=
  (repeat " " (width - String.length s) ++ s)%string.

(** [xs.slice(from, to)] on an array: negative indices count from the end
    and both are clamped to the array. *)
Definition slice_list {A : Type} (xs : list A) (from to : Z) : list A :=
  let len := Z.of_nat (List.length xs) in
  let s := Demux.clamp_index len from in
  let e := Demux.clamp_index len to in
  firstn (Z.to_nat (e - s)) (skipn (Z.to_nat s) xs).

(** A replacement of the first occurrence that takes [repl] literally. *)
Definition replace_literally (s pat repl : string) : string :=
  match indexOf s pat with
  | None => s
  | Some pos =>
      (take pos s ++ repl ++ drop (pos + String.length pat) s)%string
  end.

End JSString.

(** ** Promises, the Docker daemon and the Node runtime

    Asynchronous code is modelled in a monad that threads the clock (in
    milliseconds) and the list of requests issued so far.  The daemon and
    the runtime are oracles: each request is answered, after some latency,
    by a value or by an error, or is never answered; what happens may depend
    on every request made before it. *)
Module Docker.
Import JS.

Definition time := N.

(** How a promise ends.  [Stuck]: it never settles, because a request it
    awaits stays pending (or a loop outruns its fuel, which none does). *)
Inductive outcome (A : Type) : Type :=
| Fulfilled (a : A)
| Rejected (e : thrown)
| Stuck.
Arguments Fulfilled {A} a.
Arguments Rejected {A} e.
Arguments Stuck {A}.

(** What becomes of a request: it is settled, by a value or by an error, or
    it stays pending for ever (the daemon hangs, the command in the
    container never ends). *)
Inductive settlement (A : Type) : Type :=
| Settled (c : completion A)
| Pending.
Arguments Settled {A} c.
Arguments Pending {A}.

Coercion Settled : completion >-> settlement.

(** The answer to a request and the time it takes; the latency of a request
    that stays pending means nothing. *)
Record reply (A : Type) : Type := { latency : N; answer : settlement A }.
Arguments latency {A} r.
Arguments answer {A} r.

(** The options of [container.exec]. *)
Record ExecCreateOptions : Type :=
  { Cmd : list string;
    AttachStdin : bool;
    AttachStdout : bool;
    AttachStderr : bool;
    Tty : bool;
    WorkingDir : option string;
    User : option string;
    Env : option (list string) }.

(** The options of [exec.start]. *)
Record ExecStartOptions : Type :=
  { Detach : bool; start_Tty : bool; start_stdin : bool }.

(** A request to the daemon or to the host, as the tools issue them. *)
Inductive call : Type :=
| ContainerInspect (id : string)
| ContainerExec (id : string) (options : ExecCreateOptions)
| ExecStart (exec : string) (options : ExecStartOptions)
| StdinPipe (exec : string) (input : string)
| StreamEnd (exec : string)
| ExecInspect (exec : string)
| ListContainers (all : bool)
| ReadFile (path : string).

Record Port : Type :=
  { IP : option string;
    PrivatePort : Z;
    PublicPort : option Z;
    Type_ : string }.

(** An entry of [docker.listContainers]. *)
Record ContainerInfo : Type :=
  { Id : string;
    Names : list string;
    Image : string;
    State : string;
    Status : string;
    Ports : list Port }.

Record run (A : Type) : Type :=
  { result : outcome A; finished_at : time; calls : list call }.
Arguments result {A} r.
Arguments finished_at {A} r.
Arguments calls {A} r.

(** A computation started at a given instant after the given requests. *)
Definition Async (A : Type) : Type := time -> list call -> run A.

Definition ret {A : Type} (a : A) : Async A :=
  fun t log => {| result := Fulfilled a; finished_at := t; calls := log |}.

Definition throw {A : Type} (e : thrown) : Async A :=
  fun t log => {| result := Rejected e; finished_at := t; calls := log |}.

Definition bind {A B : Type} (m : Async A) (f : A -> Async B) : Async B :=
  fun t log =>
    let r := m t log in
    match result r with
    | Fulfilled a => f a (finished_at r) (calls r)
    | Rejected e =>
        {| result := Rejected e; finished_at := finished_at r;
           calls := calls r |}
    | Stuck =>
        {| result := Stuck; finished_at := finished_at r; calls := calls r |}
    end.

(** [try { m } catch (error) { h error }] *)
Definition try_catch {A : Type} (m : Async A) (h : thrown -> Async A)
  : Async A :=
  fun t log =>
    let r := m t log in
    match result r with
    | Rejected e => h e (finished_at r) (calls r)
    | _ => r
    end.

(** [await] of a request: the promise settles as the oracle's answer does,
    and never when the request stays pending. *)
Definition await {A : Type} (c : call) (oracle : list call -> reply A)
  : Async A :=
  fun t log =>
    let r := oracle log in
    {| result := match answer r with
                 | Settled (Return a) => Fulfilled a
                 | Settled (Throw e) => Rejected e
                 | Pending => Stuck
                 end;
       finished_at := (t + latency r)%N;
       calls := log ++ [c] |}.

(** A synchronous call inside asynchronous code. *)
Definition lift {A : Type} (c : option (completion A)) : Async A :=
  fun t log =>
    {| result := match c with
                 | Some (Return a) => Fulfilled a
                 | Some (Throw e) => Rejected e
                 | None => Stuck
                 end;
       finished_at := t; calls := log |}.

(** The Node runtime of the host: when a timer armed for the given number
    of milliseconds fires, which of a timer and a promise due at the same
    instant is served first, the host's files and paths, and how a number
    is written.  A JavaScript number is modelled by the rational it
    denotes. *)
Record Runtime : Type :=
  { timer_fires_after : Q -> N;
    timer_first_on_tie : bool;
    readFile : list call -> string -> reply string;
    cwd : string;
    path_isAbsolute : string -> bool;
    path_resolve : string -> string -> string;
    path_dirname : string -> string;
    number_toString : Q -> string }.

(** [ToIntegerOrInfinity] of a number: its integer part, towards zero. *)
Definition truncate (n : Q) : Z := Z.quot (Qnum n) (Zpos (Qden n)).

(** [Math.max(a, b)] and [Math.min(a, b)] *)
Definition Math_max (a b : Q) : Q := if Qle_bool a b then b else a.
Definition Math_min (a b : Q) : Q := if Qle_bool a b then a else b.

(** [String(n)] for a number, as in a template literal: the decimal digits
    of an integer below 10^21 in magnitude; how any other number is
    written (a fraction, an exponent) is left to the runtime. *)
Definition show_number (rt : Runtime) (n : Q) : string :=
  let reduced := Qred n in
  match Qden reduced with
  | 1%positive =>
      if Z.abs (Qnum reduced) <? 10 ^ 21
      then JSString.string_of_Z (Qnum reduced)
      else number_toString rt reduced
  | _ => number_toString rt reduced
  end.

(** How the sample hosts below write a positive number with one decimal
    digit, such as 1.5. *)
Definition tenths (n : Q) : string :=
  (JSString.string_of_Z (truncate n) ++ "."
   ++ JSString.string_of_Z (Z.abs (truncate (n * 10)) mod 10))%string.

(** [Promise.race([m, new Promise((_, reject) =>
       setTimeout(() => reject(e), delay))])].
    Both start together; the one that settles first decides.  The requests
    of [m] are issued whichever wins: losing the race does not cancel it. *)
Definition race_with_timer {A : Type} (rt : Runtime) (m : Async A)
  (delay : Q) (e : thrown) : Async A :=
  fun t log =>
    let r := m t log in
    let fire := (t + timer_fires_after rt delay)%N in
    let timer_wins :=
      match result r with
      | Stuck => true
      | _ => (fire <? finished_at r)%N
             || ((fire =? finished_at r)%N && timer_first_on_tie rt)
      end in
    if timer_wins
    then {| result := Rejected e; finished_at := fire; calls := calls r |}
    else r.

(** [{ content: [{ type: 'text', text }] }] *)
Inductive content_item : Type := TextContent (text : string).
Record CallToolResult : Type := { content : list content_item }.

Definition text_result (text : string) : CallToolResult :=
  {| content := [TextContent text] |}.

Section Daemon.

(** What [container.inspect()] resolves to (dockerode's
    [ContainerInspectInfo]), with its [State.Running]. *)
Variable ContainerInspectInfo : Type.
Variable Running : ContainerInspectInfo -> bool.

Record Daemon : Type :=
  { container_inspect : list call -> string -> reply ContainerInspectInfo;
    container_exec : list call -> string -> ExecCreateOptions -> reply string;
    exec_start : list call -> string -> ExecStartOptions -> reply unit;
    stream_end : list call -> string -> reply (list Demux.Buffer);
    exec_inspect : list call -> string -> reply (option Z);
    listContainers : list call -> bool -> reply (list ContainerInfo) }.

Record ToolContext : Type := { docker : Daemon }.

End Daemon.

Arguments container_inspect {ContainerInspectInfo} d.
Arguments container_exec {ContainerInspectInfo} d.
Arguments exec_start {ContainerInspectInfo} d.
Arguments stream_end {ContainerInspectInfo} d.
Arguments exec_inspect {ContainerInspectInfo} d.
Arguments listContainers {ContainerInspectInfo} d.
Arguments docker {ContainerInspectInfo} t.

Declare Scope async_scope.
Delimit Scope async_scope with async.
Notation "x <- m ;; k" := (bind m (fun x => k))
  (at level 61, m at next level, right associativity) : async_scope.

End Docker.

(** ** Shell quoting (docker-code server, [escapeShellArg]) *)
Module Shell.

Definition quote : ascii := "'"%char.
Definition backslash : ascii := "\"%char.
Definition newline : ascii := "010"%char.

(** [arg.replace(/'/g, repl)] for a replacement text without [$]: every
    single quote of [arg] is replaced by [repl], all else is kept. *)
Fixpoint replace_quotes (repl : string) (arg : string) : string :=
  match arg with
  | EmptyString => EmptyString
  | String c rest =>
      if Ascii.eqb c quote then (repl ++ replace_quotes repl rest)%string
      else String c (replace_quotes repl rest)
  end.

(** [`'${arg.replace(/'/g, "'\\''")}'`]: the replacement is the four
    characters quote, backslash, quote, quote. *)
Definition escapeShellArg (arg : string) : string :=
  ("'" ++ replace_quotes "'\''" arg ++ "'")%string.

(** *** Reference semantics: POSIX quote removal (XCU 2.2.1 to 2.2.3)

    Characters that must be quoted to stand for themselves, or that may need
    to be in some contexts: an unquoted occurrence ends the word or starts an
    expansion, so such a text is not one literal word. *)
Definition special (c : ascii) : bool :=
  existsb (Ascii.eqb c)
    (list_ascii_of_string "|&;<>()$` *?[#~=%"
     ++ ["034"%char; "009"%char; "010"%char]).

Inductive quoting : Type := Unquoted | SingleQuoted.

(** The value of [w] read as one shell word: inside single quotes every
    character stands for itself up to the closing quote; outside, a backslash
    makes the next character literal (and removes a following newline).
    [None]: an unterminated quote, a trailing backslash, or an unquoted
    special character. *)
Fixpoint shell_word (q : quoting) (w : string) : option string :=
  match w with
  | EmptyString =>
      match q with
      | Unquoted => Some EmptyString
      | SingleQuoted => None
      end
  | String c rest =>
      match q with
      | SingleQuoted =>
          if Ascii.eqb c quote then shell_word Unquoted rest
          else option_map (String c) (shell_word SingleQuoted rest)
      | Unquoted =>
          if Ascii.eqb c quote then shell_word SingleQuoted rest
          else if Ascii.eqb c backslash then
            match rest with
            | EmptyString => None
            | String d rest' =>
                if Ascii.eqb d newline then shell_word Unquoted rest'
                else option_map (String d) (shell_word Unquoted rest')
            end
          else if special c then None
          else option_map (String c) (shell_word Unquoted rest)
      end
  end.

(** *** The escaping as the specification words it: wrap in single quotes
    and double each embedded single quote. *)
Definition doubled_quotes (arg : string) : string :=
  ("'" ++ replace_quotes "''" arg ++ "'")%string.

(** [s] with each single quote replaced by [repl], character by character. *)
Definition each_quote_replaced (repl : string) (s : string) : string :=
  JS.concat_strings
    (map (fun c => if Ascii.eqb c quote then repl else String c EmptyString)
         (list_ascii_of_string s)).

End Shell.

(** ** HTTP authentication (http-server.ts, [authMiddleware]) *)
Module Auth.
Import JSString.

(** What the middleware does with a request: hand it on with [next()], or
    answer [res.status(status).json({error: {code, message}})]. *)
Inductive verdict : Type :=
| Next
| Respond (status : Z) (code : Z) (message : string).

(** [s.startsWith(p)] *)
Definition startsWith (s p : string) : bool := String.prefix p s.

Definition authMiddleware (MCP_AUTH_TOKEN authorization : option string)
  : verdict :=
  match truthy MCP_AUTH_TOKEN with
  | None => Next
  | Some authToken =>
      match truthy authorization with
      | None =>
          Respond 401 (-32001)
            "Authentication required. Please provide Authorization header."
      | Some authHeader =>
          let token := if startsWith authHeader "Bearer "
                       then JSString.drop 7 authHeader
                       else authHeader in
          if negb (String.eqb token authToken) then
            Respond 403 (-32002) "Invalid authentication token."
          else Next
      end
  end.

(** The header value the comparison uses. *)
Definition presented_token (authHeader : string) : string :=
  if startsWith authHeader "Bearer " then JSString.drop 7 authHeader
  else authHeader.

End Auth.

(** ** The tool handlers *)
Module Tools.
Import JS JSString Docker.
Local Open Scope string_scope.
Local Open Scope async_scope.

(** What [executeDockerCommand] resolves to. *)
Record ExecResult : Type :=
  { stdout : string; stderr : string; exitCode : option Z }.

(** The parameters of the exec tool as the client sends them, and as the
    zod schema hands them to the handler. *)
Record ExecInput : Type :=
  { in_container_id : string;
    in_command : string;
    in_stdin : option string;
    in_working_dir : option string;
    in_user : option string;
    in_env : option (list string);
    in_timeout : option Q }.

Record ExecParams : Type :=
  { container_id : string;
    command : string;
    stdin : option string;
    working_dir : option string;
    user : option string;
    env : option (list string);
    timeout : Q }.

(** [z.object({ ..., working_dir: z.string().optional().default(...),
      timeout: z.number().optional().default(30) })] *)
Definition exec_inputSchema (i : ExecInput) : ExecParams :=
  {| container_id := in_container_id i;
     command := in_command i;
     stdin := in_stdin i;
     working_dir :=
       Some (match in_working_dir i with
             | Some d => d
             | None => "/home/ubuntu/workspace"
             end);
     user := in_user i;
     env := in_env i;
     timeout := match in_timeout i with
                | Some t => t
                | None => 30%Q
                end |}.

(** A request that is sent without being awaited. *)
Definition emit (c : call) : Async unit :=
  fun t log =>
    {| result := Fulfilled tt; finished_at := t; calls := (log ++ [c])%list |}.

(** [`${exitCode}`] for [number | null] *)
Definition show_exitCode (e : option Z) : string :=
  match e with
  | Some n => string_of_Z n
  | None => "null"
  end.

(** [s ? a : b] on a string: the empty string is falsy. *)
Definition nonempty (s : string) : bool :=
  match s with
  | EmptyString => false
  | String _ _ => true
  end.

(** [name.replace(/^\//, '')] *)
Definition strip_slash (n : string) : string :=
  match n with
  | String c rest => if Ascii.eqb c "/" then rest else n
  | EmptyString => n
  end.

(** [a || b] on strings *)
Definition or_else (a b : string) : string :=
  if nonempty a then a else b.

Definition format_port (p : Port) : string :=
  match PublicPort p with
  | Some pub =>
      if Z.eqb pub 0 then string_of_Z (PrivatePort p) ++ "/" ++ Type_ p
      else
        or_else (match IP p with Some ip => ip | None => EmptyString end)
                "0.0.0.0"
        ++ ":" ++ string_of_Z pub ++ "->" ++ string_of_Z (PrivatePort p)
        ++ "/" ++ Type_ p
  | None => string_of_Z (PrivatePort p) ++ "/" ++ Type_ p
  end.

(** One turn of the loop over the containers of [list_containers]. *)
Definition format_container (output : string) (container : ContainerInfo)
  : string :=
  let name := join ", " (map strip_slash (Names container)) in
  let image := Image container in
  let status := Status container in
  let state := State container in
  let ports := or_else (join ", " (map format_port (Ports container))) "none" in
  let output := output ++ "Name:    " ++ name ++ nl in
  let output := output ++ "ID:      " ++ take 12 (Id container) ++ nl in
  let output := output ++ "Image:   " ++ image ++ nl in
  let output := output ++ "State:   " ++ state ++ nl in
  let output := output ++ "Status:  " ++ status ++ nl in
  let output := output ++ "Ports:   " ++ ports ++ nl in
  output ++ repeat "-" 80 ++ nl ++ nl.

(** The light-bulb sign of the help text, as UTF-8. *)
Definition bulb : string :=
  String "240" (String "159" (String "146" (String "161" EmptyString))).

Section Handlers.

Variable toString : Demux.Buffer -> string.
Variable ContainerInspectInfo : Type.
Variable Running : ContainerInspectInfo -> bool.
Variable rt : Runtime.

(** [get-container-info.ts], lines 17 to 112: the report built from the
    inspection result.  Synchronous; it ends with the text, or throws where
    the result lacks a field it reads. *)
Variable describe_container : ContainerInspectInfo -> completion string.

Definition executeDockerCommand (docker : Daemon ContainerInspectInfo)
  (containerId command : string) (stdin workingDir user : option string)
  (env : option (list string)) : Async ExecResult :=
  try_catch
    (info <- await (ContainerInspect containerId)
               (fun log => container_inspect docker log containerId) ;;
     if negb (Running info) then
       throw (JsError ("Container '" ++ containerId ++ "' is not running"))
     else
       let options :=
         {| Cmd := ["/bin/bash"; "-c"; command];
            AttachStdin := nonempty_option stdin;
            AttachStdout := true;
            AttachStderr := true;
            Tty := false;
            WorkingDir := workingDir;
            User := user;
            Env := env |} in
       exec <- await (ContainerExec containerId options)
                 (fun log => container_exec docker log containerId options) ;;
       let start :=
         {| Detach := false; start_Tty := false;
            start_stdin := nonempty_option stdin |} in
       _ <- await (ExecStart exec start)
              (fun log => exec_start docker log exec start) ;;
       _ <- match truthy stdin with
            | Some input => emit (StdinPipe exec input)
            | None => ret tt
            end ;;
       chunks <- await (StreamEnd exec)
                   (fun log => stream_end docker log exec) ;;
       let allData := List.concat chunks in
       parsed <- lift (Demux.parseDockerStream toString allData) ;;
       execInfo <- await (ExecInspect exec)
                     (fun log => exec_inspect docker log exec) ;;
       ret {| stdout := Demux.stdout parsed;
              stderr := Demux.stderr parsed;
              exitCode := execInfo |})
    (fun error => throw error).

(** The text the exec tool answers with when the command has run. *)
Definition exec_output (result : ExecResult) : string :=
  let output := EmptyString in
  let output :=
    if nonempty (stdout result)
    then output ++ "STDOUT:" ++ nl ++ stdout result ++ nl else output in
  let output :=
    if nonempty (stderr result)
    then output ++ "STDERR:" ++ nl ++ stderr result ++ nl else output in
  output ++ "Exit Code: " ++ show_exitCode (exitCode result).

(** [exec.ts], [handler] *)
Definition exec_handler (params : ExecParams)
  (context : ToolContext ContainerInspectInfo) : Async CallToolResult :=
  try_catch
    (result <- race_with_timer rt
                 (executeDockerCommand (docker context)
                    (container_id params) (command params) (stdin params)
                    (working_dir params) (user params) (env params))
                 (timeout params * 1000)%Q
                 (JsError "Command timeout") ;;
     ret (text_result (exec_output result)))
    (fun error =>
       ret (text_result
              ("Execution error: " ++ message_or "Unknown error" error))).

(** [list-containers.ts], [handler] *)
Definition list_containers_handler (all : bool)
  (context : ToolContext ContainerInspectInfo) : Async CallToolResult :=
  try_catch
    (containers <- await (ListContainers all)
                     (fun log => listContainers (docker context) log all) ;;
     match containers with
     | [] =>
         ret (text_result
                (if all then "No containers found."
                 else "No running containers found. Use all=true to see all containers."))
     | _ =>
         let output :=
           (if all then "All" else "Running") ++ " Containers:" ++ nl
           ++ repeat "=" 80 ++ nl ++ nl in
         let output := fold_left format_container containers output in
         ret (text_result (trim output))
     end)
    (fun error =>
       ret (text_result
              ("Error listing containers: "
               ++ message_or "Unknown error" error))).

(** [get-container-info.ts], [handler] *)
Definition get_container_info_handler (container_id : string)
  (context : ToolContext ContainerInspectInfo) : Async CallToolResult :=
  try_catch
    (info <- await (ContainerInspect container_id)
               (fun log => container_inspect (docker context) log container_id) ;;
     output <- lift (Some (describe_container info)) ;;
     ret (text_result output))
    (fun error =>
       ret (text_result
              ("Error getting container info: "
               ++ message_or "Unknown error" error))).

(** The loop of [get-compose-file.ts] over the candidate paths: the first
    file that can be read ends it; a failure moves on to the next. *)
Fixpoint first_readable (paths : list string) : Async (string * string) :=
  match paths with
  | [] => ret (EmptyString, EmptyString)
  | testPath :: rest =>
      try_catch
        (let resolvedPath :=
           if path_isAbsolute rt testPath then testPath
           else path_resolve rt (cwd rt) testPath in
         content <- await (ReadFile resolvedPath)
                      (fun log => readFile rt log resolvedPath) ;;
         ret (testPath, content))
        (fun _ => first_readable rest)
  end.

(** [get-compose-file.ts], [handler] *)
Definition get_compose_file_handler (compose_file : string)
  (context : ToolContext ContainerInspectInfo) : Async CallToolResult :=
  try_catch
    (let possiblePaths :=
       [ compose_file; "docker/compose.yaml"; "docker/compose.yml";
         "docker-compose.yaml"; "docker-compose.yml";
         "compose.yaml"; "compose.yml" ] in
     found <- first_readable possiblePaths ;;
     let foundPath := fst found in
     let composeContent := snd found in
     if negb (nonempty composeContent) then
       let output :=
         nl ++ "Docker Compose file not found on host filesystem." ++ nl ++ nl
         ++ "Searched for compose file in:" ++ nl
         ++ join nl (map (fun p => "- " ++ path_resolve rt (cwd rt) p)
                         possiblePaths)
         ++ nl ++ nl
         ++ bulb ++ " To view the compose file:" ++ nl
         ++ "1. Make sure it exists in one of the searched locations" ++ nl
         ++ "2. Specify the correct path with the compose_file parameter" ++ nl
         ++ "3. Use an absolute path if the file is elsewhere" ++ nl ++ nl
         ++ "MCP Server working directory: " ++ cwd rt ++ nl ++ "      " in
       ret (text_result (trim output))
     else
       let output :=
         nl ++ "Docker Compose Configuration (" ++ foundPath ++ "):" ++ nl
         ++ repeat "=" 60 ++ nl ++ nl
         ++ composeContent ++ nl ++ nl
         ++ repeat "=" 60 ++ nl
         ++ "File Location: " ++ path_resolve rt (cwd rt) foundPath
         ++ nl ++ "    " in
       ret (text_result (trim output)))
    (fun error =>
       ret (text_result
              ("Error getting compose file: "
               ++ message_or "Unknown error" error))).

(** *** The docker-code server: one target container for every tool *)

Variable TARGET_CONTAINER : string.

(** [`test -f ${escapeShellArg(p)} && echo "exists" || echo "not found"`] *)
Definition existsCommand (file_path : string) : string :=
  "test -f " ++ Shell.escapeShellArg file_path
  ++ " && echo " ++ dq ++ "exists" ++ dq
  ++ " || echo " ++ dq ++ "not found" ++ dq.

(** [`cat ${escapeShellArg(p)}`] *)
Definition catCommand (file_path : string) : string :=
  "cat " ++ Shell.escapeShellArg file_path.

(** [exitCode !== 0] *)
Definition failed (r : ExecResult) : bool :=
  negb (match exitCode r with
        | Some n => Z.eqb n 0
        | None => false
        end).

(** The here-document that writes [contents] to [file_path]. *)
Definition writeCommand (file_path contents : string) : string :=
  "cat > " ++ Shell.escapeShellArg file_path ++ " << 'EOF_MARKER_UNIQUE'" ++ nl
  ++ contents ++ nl
  ++ "EOF_MARKER_UNIQUE".

Definition run_in_target (docker : Daemon ContainerInspectInfo)
  (command : string) : Async ExecResult :=
  executeDockerCommand docker TARGET_CONTAINER command None None None None.

(** The [exec] tool of the docker-code server: its source repeats
    [executeDockerCommand] and the handler of [exec.ts] word for word, with
    the target container in the place of [container_id]. *)
Definition target_exec (docker : Daemon ContainerInspectInfo)
  (command : string) (stdin working_dir user : option string)
  (env : option (list string)) (timeout : Q) : Async CallToolResult :=
  exec_handler
    {| container_id := TARGET_CONTAINER; command := command; stdin := stdin;
       working_dir := working_dir; user := user; env := env;
       timeout := timeout |}
    {| docker := docker |}.

(** The [search_replace] tool. *)
Definition search_replace (docker : Daemon ContainerInspectInfo)
  (file_path old_string new_string : string) (replace_all : bool)
  : Async CallToolResult :=
  try_catch
    (if String.eqb old_string new_string then
       ret (text_result "Error: old_string and new_string must be different")
     else
       checkResult <- run_in_target docker (existsCommand file_path) ;;
       if negb (String.eqb (trim (stdout checkResult)) "exists") then
         ret (text_result ("Error: File not found: " ++ file_path))
       else
         catResult <- run_in_target docker (catCommand file_path) ;;
         if failed catResult then
           ret (text_result ("Error reading file: " ++ stderr catResult))
         else
           let content := stdout catResult in
           if negb replace_all
              && Z.gtb (split_length content old_string - 1) 1 then
             ret (text_result
                    ("Error: old_string " ++ dq ++ old_string ++ dq
                     ++ " is not unique in the file. Use replace_all=true or provide more context to make it unique."))
           else if negb (includes content old_string) then
             ret (text_result
                    ("Error: old_string " ++ dq ++ old_string ++ dq
                     ++ " not found in file"))
           else
             let newContent :=
               if replace_all
               then replaceAll content old_string new_string
               else replace content old_string new_string in
             writeResult <-
               run_in_target docker (writeCommand file_path newContent) ;;
             if failed writeResult then
               ret (text_result
                      ("Error writing file: " ++ stderr writeResult))
             else
               let replacementCount :=
                 if replace_all
                 then (split_length content old_string - 1)%Z
                 else 1%Z in
               ret (text_result
                      ("Successfully replaced " ++ string_of_Z replacementCount
                       ++ " occurrence(s) in " ++ file_path)))
    (fun error =>
       ret (text_result
              ("Error: " ++ message_or "Unknown error occurred" error))).

(** The fields of the inspection result that the compose tool of the
    docker-code server prints. *)
Record InspectedFields : Type :=
  { info_Name : string;
    info_Id : string;
    info_Image : string;
    info_Status : string;
    info_StartedAt : string;
    info_WorkingDir : string;
    info_User : string }.

Variable inspected : ContainerInspectInfo -> InspectedFields.

(** The [get_compose_file] tool of the docker-code server. *)
Definition target_compose_file (docker : Daemon ContainerInspectInfo)
  (compose_file : string) : Async CallToolResult :=
  try_catch
    (let possiblePaths :=
       [ compose_file; "docker/compose.yaml"; "docker/compose.yml";
         "docker-compose.yaml"; "docker-compose.yml";
         "compose.yaml"; "compose.yml" ] in
     found <- first_readable possiblePaths ;;
     let foundPath := fst found in
     let composeContent := snd found in
     if negb (nonempty composeContent) then
       info <- await (ContainerInspect TARGET_CONTAINER)
                 (fun log => container_inspect docker log TARGET_CONTAINER) ;;
       let info := inspected info in
       let output :=
         nl ++ "Docker Compose file not found on host filesystem." ++ nl ++ nl
         ++ "Container Information:" ++ nl
         ++ "Target Container: " ++ TARGET_CONTAINER ++ nl
         ++ "Name: " ++ info_Name info ++ nl
         ++ "ID: " ++ take 12 (info_Id info) ++ nl
         ++ "Image: " ++ info_Image info ++ nl
         ++ "State: " ++ info_Status info ++ nl
         ++ "Started: " ++ info_StartedAt info ++ nl
         ++ "Working Dir: " ++ or_else (info_WorkingDir info) "/" ++ nl
         ++ "User: " ++ or_else (info_User info) "root" ++ nl ++ nl
         ++ "Searched for compose file in:" ++ nl
         ++ join nl (map (fun p => "- " ++ path_resolve rt (cwd rt) p)
                         possiblePaths)
         ++ nl ++ nl
         ++ bulb ++ " To view the compose file:" ++ nl
         ++ "1. Make sure it exists in one of the searched locations" ++ nl
         ++ "2. Specify the correct path with the compose_file parameter" ++ nl
         ++ "3. Use an absolute path if the file is elsewhere" ++ nl ++ nl
         ++ "MCP Server working directory: " ++ cwd rt ++ nl
         ++ "          " in
       ret (text_result (trim output))
     else
       let output :=
         nl ++ "Docker Compose Configuration (" ++ foundPath ++ "):" ++ nl
         ++ repeat "=" 60 ++ nl ++ nl
         ++ composeContent ++ nl ++ nl
         ++ repeat "=" 60 ++ nl
         ++ "Target Container: " ++ TARGET_CONTAINER ++ nl
         ++ "File Location: " ++ path_resolve rt (cwd rt) foundPath
         ++ nl ++ "        " in
       ret (text_result (trim output)))
    (fun error =>
       ret (text_result
              ("Error getting compose file: "
               ++ message_or "Unknown error" error))).

(** The [read_file] tool; [offset] and [limit] are any numbers. *)
Definition read_file (docker : Daemon ContainerInspectInfo)
  (target_file : string) (offset limit : option Q) : Async CallToolResult :=
  try_catch
    (checkResult <- run_in_target docker (existsCommand target_file) ;;
     if negb (String.eqb (trim (stdout checkResult)) "exists") then
       ret (text_result ("Error: File not found: " ++ target_file))
     else
       catResult <- run_in_target docker (catCommand target_file) ;;
       if failed catResult then
         ret (text_result ("Error reading file: " ++ stderr catResult))
       else
         let content := stdout catResult in
         if negb (nonempty content) then ret (text_result "File is empty.")
         else
           let lines := split_on "010" content in
           let length := inject_Z (Z.of_nat (List.length lines)) in
           let startLine :=
             match offset with
             | Some o => Math_max 1 o
             | None => 1%Q
             end in
           let endLine :=
             match limit with
             | Some l => Math_min length (startLine + l - 1)%Q
             | None => length
             end in
           let selectedLines :=
             slice_list lines (truncate (startLine - 1)%Q)
               (truncate endLine) in
           let numberedLines :=
             map (fun numbered : nat * string =>
                    let lineNumber :=
                      (startLine
                       + inject_Z (Z.of_nat (fst numbered)))%Q in
                    padStart 6 (show_number rt lineNumber)
                    ++ "|" ++ snd numbered)
                 (combine (seq 0 (List.length selectedLines))
                          selectedLines) in
           ret (text_result (join nl numberedLines)))
    (fun error =>
       ret (text_result
              ("Error: " ++ message_or "Unknown error occurred" error))).

(** The [write_file] tool. *)
Definition write_file (docker : Daemon ContainerInspectInfo)
  (file_path contents : string) : Async CallToolResult :=
  try_catch
    (let dir := path_dirname rt file_path in
     _ <- (if negb (String.eqb dir ".") && negb (String.eqb dir "/") then
             _ <- run_in_target docker
                    ("mkdir -p " ++ Shell.escapeShellArg dir) ;;
             ret tt
           else ret tt) ;;
     checkResult <-
       run_in_target docker
         ("test -f " ++ Shell.escapeShellArg file_path
          ++ " && echo " ++ dq ++ "exists" ++ dq
          ++ " || echo " ++ dq ++ "new" ++ dq) ;;
     let exists_ := String.eqb (trim (stdout checkResult)) "exists" in
     result <- run_in_target docker (writeCommand file_path contents) ;;
     if failed result then
       ret (text_result ("Error writing file: " ++ stderr result))
     else
       let action := if exists_ then "Overwritten" else "Created" in
       ret (text_result
              (action ++ " file: " ++ file_path ++ " ("
               ++ string_of_Z (Z.of_nat (String.length contents))
               ++ " characters)")))
    (fun error =>
       ret (text_result
              ("Error: " ++ message_or "Unknown error occurred" error))).

(** The [list_dir] tool. *)
Definition list_dir (docker : Daemon ContainerInspectInfo)
  (target_directory : string) (show_hidden : bool) : Async CallToolResult :=
  try_catch
    (checkResult <-
       run_in_target docker
         ("test -d " ++ Shell.escapeShellArg target_directory
          ++ " && echo " ++ dq ++ "exists" ++ dq
          ++ " || echo " ++ dq ++ "not found" ++ dq) ;;
     if negb (String.eqb (trim (stdout checkResult)) "exists") then
       ret (text_result ("Error: Directory not found: " ++ target_directory))
     else
       let lsCommand :=
         if show_hidden
         then "ls -la " ++ Shell.escapeShellArg target_directory
         else "ls -l " ++ Shell.escapeShellArg target_directory in
       result <- run_in_target docker lsCommand ;;
       if failed result then
         ret (text_result ("Error listing directory: " ++ stderr result))
       else
         let output := trim (stdout result) in
         if negb (nonempty output) then ret (text_result "Directory is empty.")
         else ret (text_result output))
    (fun error =>
       ret (text_result
              ("Error: " ++ message_or "Unknown error occurred" error))).

(** What the [grep] tool receives. *)
Record GrepParams : Type :=
  { grep_pattern : string;
    grep_path : option string;
    grep_type : option string;
    case_insensitive : bool;
    context_before : option Q;
    context_after : option Q;
    context : option Q;
    head_limit : option Q }.

(** The command line the [grep] tool builds. *)
Definition grep_command (p : GrepParams) : string :=
  let searchPath := match grep_path p with Some d => d | None => "." end in
  let cmd := "grep -r" in
  let cmd := if case_insensitive p then cmd ++ " -i" else cmd in
  let cmd := cmd ++ " -n" in
  let cmd :=
    match context p with
    | Some c => cmd ++ " -C " ++ show_number rt c
    | None =>
        let cmd := match context_before p with
                   | Some b => cmd ++ " -B " ++ show_number rt b
                   | None => cmd
                   end in
        match context_after p with
        | Some a => cmd ++ " -A " ++ show_number rt a
        | None => cmd
        end
    end in
  let cmd :=
    match truthy (grep_type p) with
    | Some type => cmd ++ " --include=" ++ dq ++ "*." ++ type ++ dq
    | None => cmd
    end in
  let cmd :=
    cmd ++ " " ++ Shell.escapeShellArg (grep_pattern p)
    ++ " " ++ Shell.escapeShellArg searchPath in
  match head_limit p with
  | Some n =>
      if Qeq_bool n 0 then cmd else cmd ++ " | head -" ++ show_number rt n
  | None => cmd
  end.

(** The [grep] tool. *)
Definition grep (docker : Daemon ContainerInspectInfo) (p : GrepParams)
  : Async CallToolResult :=
  try_catch
    (result <- run_in_target docker (grep_command p) ;;
     if match exitCode result with Some n => Z.eqb n 1 | None => false end
        && negb (nonempty (stderr result)) then
       ret (text_result "No matches found.")
     else if negb (match exitCode result with
                   | Some n => Z.eqb n 0 || Z.eqb n 1
                   | None => false
                   end) then
       ret (text_result
              ("Error: " ++ or_else (stderr result) "Search failed"))
     else
       let output := trim (stdout result) in
       ret (text_result (or_else output "No matches found.")))
    (fun error =>
       ret (text_result ("Error: " ++ message_or "Search failed" error))).

(** The [find_files] tool; [type] is one of [f], [d] and [l]. *)
Definition find_files (docker : Daemon ContainerInspectInfo)
  (pattern searchPath type : string) : Async CallToolResult :=
  try_catch
    (let cmd :=
       "find " ++ Shell.escapeShellArg searchPath ++ " -type " ++ type
       ++ " -name " ++ Shell.escapeShellArg pattern in
     result <- run_in_target docker cmd ;;
     if failed result then
       ret (text_result
              ("Error: " ++ or_else (stderr result) "Find command failed"))
     else
       let output := trim (stdout result) in
       if negb (nonempty output) then
         ret (text_result ("No files found matching pattern: " ++ pattern))
       else ret (text_result output))
    (fun error =>
       ret (text_result ("Error: " ++ message_or "File search failed" error))).

(** The [delete_file] tool. *)
Definition delete_file (docker : Daemon ContainerInspectInfo)
  (target_file explanation : string) : Async CallToolResult :=
  try_catch
    (checkResult <- run_in_target docker (existsCommand target_file) ;;
     if negb (String.eqb (trim (stdout checkResult)) "exists") then
       ret (text_result ("File does not exist: " ++ target_file))
     else
       typeResult <-
         run_in_target docker
           ("test -d " ++ Shell.escapeShellArg target_file
            ++ " && echo " ++ dq ++ "directory" ++ dq
            ++ " || echo " ++ dq ++ "file" ++ dq) ;;
       if String.eqb (trim (stdout typeResult)) "directory" then
         ret (text_result
                ("Error: Cannot delete directory with delete_file tool: "
                 ++ target_file))
       else
         result <-
           run_in_target docker ("rm " ++ Shell.escapeShellArg target_file) ;;
         if failed result then
           ret (text_result ("Error deleting file: " ++ stderr result))
         else
           ret (text_result
                  ("Successfully deleted file: " ++ target_file ++ nl
                   ++ "Reason: " ++ explanation)))
    (fun error =>
       ret (text_result
              ("Error deleting file: "
               ++ message_or "Unknown error occurred" error))).

(** The [shell] tool: instructions only, nothing is run. *)
Definition shell_help (shell : string) (user working_dir : option string)
  : Async CallToolResult :=
  try_catch
    (let output :=
       nl ++ "To start an interactive shell in container '"
       ++ TARGET_CONTAINER ++ "':" ++ nl ++ nl
       ++ "Direct Docker command:" ++ nl
       ++ "docker exec -it "
       ++ match truthy user with
          | Some u => "-u " ++ u ++ " "
          | None => EmptyString
          end
       ++ match truthy working_dir with
          | Some d => "-w " ++ d ++ " "
          | None => EmptyString
          end
       ++ TARGET_CONTAINER ++ " " ++ shell ++ nl ++ nl
       ++ "Or use the 'exec' tool with commands like:" ++ nl
       ++ "- " ++ dq ++ "pwd" ++ dq ++ " to see current directory" ++ nl
       ++ "- " ++ dq ++ "ls -la" ++ dq ++ " to list files" ++ nl
       ++ "- " ++ dq ++ "whoami" ++ dq ++ " to see current user" ++ nl
       ++ "- " ++ dq ++ "env" ++ dq ++ " to see environment variables"
       ++ nl ++ nl
       ++ bulb
       ++ " This server provides full code editing capabilities inside the container:"
       ++ nl
       ++ "- read_file: Read files from the container" ++ nl
       ++ "- write_file: Create/edit files in the container" ++ nl
       ++ "- search_replace: Find and replace text in container files" ++ nl
       ++ "- list_dir: Browse directories in the container" ++ nl
       ++ "- grep: Search for patterns in container files" ++ nl
       ++ "- find_files: Find files by name pattern" ++ nl
       ++ "- delete_file: Remove files from the container" ++ nl
       ++ "- get_compose_file: View the Docker Compose configuration" ++ nl
       ++ "        " in
     ret (text_result (trim output)))
    (fun error =>
       ret (text_result ("Error: " ++ message_or "Unknown error" error))).

End Handlers.

(** Whether a request starts a shell command that redirects into a file. *)
Definition is_write_command (c : call) : bool :=
  match c with
  | ContainerExec _ options =>
      match Cmd options with
      | [_; _; command] => String.prefix "cat > " command
      | _ => false
      end
  | _ => false
  end.

(** Whether a request creates or starts an exec instance. *)
Definition is_exec_call (c : call) : bool :=
  match c with
  | ContainerExec _ _ | ExecStart _ _ => true
  | _ => false
  end.


(** *** The tool registry (tools/registry.ts) *)
Section Registry.

Variable toString : Demux.Buffer -> string.
Variable ContainerInspectInfo : Type.
Variable Running : ContainerInspectInfo -> bool.
Variable rt : Runtime.
Variable describe_container : ContainerInspectInfo -> completion string.

(** A tool: its name, its description, the schema that turns what the
    client sends into the handler's parameters, and the handler. *)
Record ToolDefinition : Type :=
  { name : string;
    description : string;
    input : Type;
    params : Type;
    inputSchema : input -> params;
    handler : params -> ToolContext ContainerInspectInfo
              -> Async CallToolResult }.

Definition execCommand : ToolDefinition :=
  {| name := "exec";
     description := "Execute a command in a Docker container";
     inputSchema := exec_inputSchema;
     handler := exec_handler toString ContainerInspectInfo Running rt |}.

Definition listContainers : ToolDefinition :=
  {| name := "list_containers";
     description := "List Docker containers. By default shows only running containers, use all=true to show all containers including stopped ones.";
     inputSchema := fun all : option bool =>
                      match all with Some b => b | None => false end;
     handler := list_containers_handler ContainerInspectInfo |}.

Definition getContainerInfo : ToolDefinition :=
  {| name := "get_container_info";
     description := "Get detailed information about a specific Docker container including state, network, mounts, environment, and resource configuration.";
     inputSchema := fun container_id : string => container_id;
     handler := get_container_info_handler ContainerInspectInfo
                  describe_container |}.

Definition getComposeFile : ToolDefinition :=
  {| name := "get_compose_file";
     description := "Fetch and display the Docker Compose configuration file. This reads from the host filesystem where the MCP server is running, not from inside the container.";
     inputSchema := fun compose_file : option string =>
                      match compose_file with
                      | Some f => f
                      | None => "docker/compose.yaml"
                      end;
     handler := get_compose_file_handler ContainerInspectInfo rt |}.

(** The registry of the container server. *)
Definition AVAILABLE_TOOLS : list ToolDefinition :=
  [execCommand; listContainers; getContainerInfo].

(** The registry of the server that targets one container. *)
Definition AVAILABLE_TOOLS_target : list ToolDefinition :=
  [execCommand; getComposeFile].

Definition getAllTools : list ToolDefinition := AVAILABLE_TOOLS.

Definition getToolByName (n : string) : option ToolDefinition :=
  find (fun tool => String.eqb (name tool) n) AVAILABLE_TOOLS.

(** *** The docker-code server ([getServer] registers its tools inline) *)

Variable TARGET_CONTAINER : string.
Variable inspected : ContainerInspectInfo -> InspectedFields.

(** What the client sends to the [grep] tool. *)
Record GrepInput : Type :=
  { in_pattern : string;
    in_path : option string;
    in_type : option string;
    in_case_insensitive : option bool;
    in_context_before : option Q;
    in_context_after : option Q;
    in_context : option Q;
    in_head_limit : option Q }.

Definition target_exec_tool : ToolDefinition :=
  {| name := "exec";
     description := "Execute a command in the target Docker container";
     inputSchema :=
       fun i : string * option string * option string * option string
               * option (list string) * option Q =>
         let '(command, stdin, working_dir, user, env, timeout) := i in
         (command, stdin, working_dir, user, env,
          match timeout with Some t => t | None => 30%Q end);
     handler := fun p context =>
       let '(command, stdin, working_dir, user, env, timeout) := p in
       target_exec toString ContainerInspectInfo Running rt TARGET_CONTAINER
         (docker context) command stdin working_dir user env timeout |}.

Definition target_compose_file_tool : ToolDefinition :=
  {| name := "get_compose_file";
     description := "Fetch and display the Docker Compose configuration file. This reads from the host filesystem where the MCP server is running, not from inside the container.";
     inputSchema := fun compose_file : option string =>
                      match compose_file with
                      | Some f => f
                      | None => "docker/compose.yaml"
                      end;
     handler := fun compose_file context =>
       target_compose_file ContainerInspectInfo rt TARGET_CONTAINER inspected
         (docker context) compose_file |}.

Definition read_file_tool : ToolDefinition :=
  {| name := "read_file";
     description := "Reads a file from inside the Docker container. You can optionally specify a line offset and limit for large files. Lines in the output are numbered starting at 1.";
     inputSchema := fun i : string * option Q * option Q => i;
     handler := fun p context =>
       let '(target_file, offset, limit) := p in
       read_file toString ContainerInspectInfo Running rt TARGET_CONTAINER
         (docker context) target_file offset limit |}.

Definition write_file_tool : ToolDefinition :=
  {| name := "write_file";
     description := "Writes a file inside the Docker container. This tool will overwrite the existing file if there is one at the provided path.";
     inputSchema := fun i : string * string => i;
     handler := fun p context =>
       let '(file_path, contents) := p in
       write_file toString ContainerInspectInfo Running rt TARGET_CONTAINER
         (docker context) file_path contents |}.

Definition search_replace_tool : ToolDefinition :=
  {| name := "search_replace";
     description := "Performs exact string replacements in files inside the Docker container. The edit will FAIL if old_string is not unique in the file unless replace_all is true.";
     inputSchema :=
       fun i : string * string * string * option bool =>
         let '(file_path, old_string, new_string, replace_all) := i in
         (file_path, old_string, new_string,
          match replace_all with Some b => b | None => false end);
     handler := fun p context =>
       let '(file_path, old_string, new_string, replace_all) := p in
       search_replace toString ContainerInspectInfo Running TARGET_CONTAINER
         (docker context) file_path old_string new_string replace_all |}.

Definition list_dir_tool : ToolDefinition :=
  {| name := "list_dir";
     description := "Lists files and directories inside the Docker container. Does not display dot-files and dot-directories by default.";
     inputSchema :=
       fun i : string * option bool =>
         (fst i, match snd i with Some b => b | None => false end);
     handler := fun p context =>
       list_dir toString ContainerInspectInfo Running TARGET_CONTAINER
         (docker context) (fst p) (snd p) |}.

Definition grep_tool : ToolDefinition :=
  {| name := "grep";
     description := "A powerful search tool for finding patterns in files inside the Docker container. Supports full regex syntax.";
     inputSchema :=
       fun i : GrepInput =>
         {| grep_pattern := in_pattern i;
            grep_path := in_path i;
            grep_type := in_type i;
            case_insensitive :=
              match in_case_insensitive i with Some b => b | None => false end;
            context_before := in_context_before i;
            context_after := in_context_after i;
            context := in_context i;
            head_limit := in_head_limit i |};
     handler := fun p context =>
       grep toString ContainerInspectInfo Running rt TARGET_CONTAINER
         (docker context) p |}.

Definition find_files_tool : ToolDefinition :=
  {| name := "find_files";
     description := "Find files matching a pattern inside the Docker container using find command.";
     inputSchema :=
       fun i : string * option string * option string =>
         let '(pattern, path, type) := i in
         (pattern,
          match path with Some d => d | None => "." end,
          match type with Some k => k | None => "f" end);
     handler := fun p context =>
       let '(pattern, path, type) := p in
       find_files toString ContainerInspectInfo Running TARGET_CONTAINER
         (docker context) pattern path type |}.

Definition delete_file_tool : ToolDefinition :=
  {| name := "delete_file";
     description := "Deletes a file inside the Docker container. The operation will fail gracefully if the file doesn't exist or cannot be deleted.";
     inputSchema := fun i : string * string => i;
     handler := fun p context =>
       delete_file toString ContainerInspectInfo Running TARGET_CONTAINER
         (docker context) (fst p) (snd p) |}.

Definition shell_tool : ToolDefinition :=
  {| name := "shell";
     description := "Get instructions for starting an interactive shell session in the target container";
     inputSchema :=
       fun i : option string * option string * option string =>
         let '(shell, user, working_dir) := i in
         (match shell with Some sh => sh | None => "/bin/bash" end,
          user, working_dir);
     handler := fun p context =>
       let '(shell, user, working_dir) := p in
       shell_help TARGET_CONTAINER shell user working_dir |}.

(** The tools of the docker-code server, in the order it registers them. *)
Definition code_server : list ToolDefinition :=
  [ target_exec_tool; target_compose_file_tool; read_file_tool;
    write_file_tool; search_replace_tool; list_dir_tool; grep_tool;
    find_files_tool; delete_file_tool; shell_tool ].

(** The callback [getServer] registers for a tool: the schema is applied
    to the arguments, then the handler runs. *)
Definition call_tool (toolDef : ToolDefinition) (arguments : input toolDef)
  (toolContext : ToolContext ContainerInspectInfo) : Async CallToolResult :=
  handler toolDef (inputSchema toolDef arguments) toolContext.

End Registry.

Arguments name {ContainerInspectInfo} t.
Arguments description {ContainerInspectInfo} t.
Arguments input {ContainerInspectInfo} t.
Arguments params {ContainerInspectInfo} t.
Arguments inputSchema {ContainerInspectInfo} t.
Arguments handler {ContainerInspectInfo} t.
Arguments call_tool {ContainerInspectInfo} toolDef.

(** The tool names as the specification lists them. *)
Definition specified_tools : list string :=
  [ "execute-command"; "list-containers"; "inspect-container"; "read-file";
    "write-file"; "replace-text"; "list-directory"; "search-text";
    "find-files"; "delete-file"; "fetch-compose-file" ].

(** *** Properties of computations *)

(** The promise settles. *)
Definition settles {A : Type} (m : Async A) : Prop :=
  forall t log, result (m t log) <> Stuck.

(** The promise is fulfilled with a text result, whatever the start. *)
Definition answers_text (m : Async CallToolResult) : Prop :=
  forall t log, exists text, result (m t log) = Fulfilled (text_result text).

(** The promise is fulfilled with a text result or rejected. *)
Definition text_or_rejected (m : Async CallToolResult) : Prop :=
  forall t log,
    match result (m t log) with
    | Fulfilled r => exists text, r = text_result text
    | Rejected _ => True
    | Stuck => False
    end.

(** Every request the daemon receives is answered, by a value or by an
    error: the daemon never hangs and no command runs for ever. *)
Definition daemon_answers {ContainerInspectInfo : Type}
  (docker : Daemon ContainerInspectInfo) : Prop :=
  (forall log id, answer (container_inspect docker log id) <> Pending)
  /\ (forall log id options,
         answer (container_exec docker log id options) <> Pending)
  /\ (forall log exec options,
         answer (exec_start docker log exec options) <> Pending)
  /\ (forall log exec, answer (stream_end docker log exec) <> Pending)
  /\ (forall log exec, answer (exec_inspect docker log exec) <> Pending)
  /\ (forall log all, answer (Docker.listContainers docker log all) <> Pending).

(** Every read of a file of the host ends. *)
Definition host_answers (rt : Runtime) : Prop :=
  forall log path, answer (readFile rt log path) <> Pending.

(** The promise stays pending only if [R] fails. *)
Definition pending_only {A : Type} (R : Prop) (m : Async A) : Prop :=
  forall t log, result (m t log) = Stuck -> ~ R.

(** The promise is fulfilled with a text result or rejected, or stays
    pending, the latter only if [R] fails. *)
Definition text_unless (R : Prop) (m : Async CallToolResult) : Prop :=
  forall t log,
    match result (m t log) with
    | Fulfilled r => exists text, r = text_result text
    | Rejected _ => True
    | Stuck => ~ R
    end.

(** The promise is never rejected: it is fulfilled with a text result, or
    it stays pending, the latter only if [R] fails. *)
Definition answers_unless (R : Prop) (m : Async CallToolResult) : Prop :=
  forall t log,
    match result (m t log) with
    | Fulfilled r => exists text, r = text_result text
    | Rejected _ => False
    | Stuck => ~ R
    end.

(** Every run of [m] only adds requests that satisfy [P]. *)
Definition adds_only {A : Type} (P : call -> Prop) (m : Async A) : Prop :=
  forall t log, exists added,
    calls (m t log) = (log ++ added)%list /\ Forall P added.

(** The replacement text holds no dollar sign. *)
Definition dollar_free (template : string) : Prop :=
  forallb (fun c => negb (Ascii.eqb c "$")) (list_ascii_of_string template)
  = true.

Definition no_write (log : list call) : Prop :=
  forallb (fun c => negb (is_write_command c)) log = true.

Definition no_exec (log : list call) : Prop :=
  forallb (fun c => negb (is_exec_call c)) log = true.

(** *** A scripted container: one regular file, every command succeeds *)

(** The command of the exec instance created last. *)
Fixpoint last_command (log : list call) : string :=
  match log with
  | [] => EmptyString
  | c :: rest =>
      match last_command rest, c with
      | EmptyString, ContainerExec _ options =>
          match Cmd options with
          | [_; _; command] => command
          | _ => EmptyString
          end
      | found, _ => found
      end
  end.

Definition stdout_frame (s : string) : Demux.Buffer :=
  Demux.encode_frame
    {| Demux.tag := x01; Demux.reserved := (x00, x00, x00);
       Demux.payload := list_byte_of_string s |}.

Definition answer_now {A : Type} (a : A) : reply A :=
  {| latency := 1; answer := Return a |}.

Definition scripted_daemon (file_path file_content : string) : Daemon bool :=
  {| container_inspect := fun _ _ => answer_now true;
     container_exec := fun _ _ _ => answer_now "exec-1";
     exec_start := fun _ _ _ => answer_now tt;
     stream_end := fun log _ =>
       let command := last_command log in
       answer_now
         [ stdout_frame
             (if String.prefix "test -f " command then "exists" ++ nl
              else if String.eqb command ("cat " ++ Shell.escapeShellArg file_path)
                   then file_content
                   else EmptyString) ];
     exec_inspect := fun _ _ => answer_now (Some 0%Z);
     Docker.listContainers := fun _ _ => answer_now [] |}.

(** The same host, its container stopped. *)
Definition stopped_daemon : Daemon bool :=
  {| container_inspect := fun _ _ => answer_now false;
     container_exec := fun _ _ _ => answer_now "exec-1";
     exec_start := fun _ _ _ => answer_now tt;
     stream_end := fun _ _ => answer_now [];
     exec_inspect := fun _ _ => answer_now (Some 0%Z);
     Docker.listContainers := fun _ _ => answer_now [] |}.

(** A daemon whose commands take ten minutes to end. *)
Definition slow_daemon : Daemon bool :=
  {| container_inspect := fun _ _ => answer_now true;
     container_exec := fun _ _ _ => answer_now "exec-1";
     exec_start := fun _ _ _ => answer_now tt;
     stream_end := fun _ _ => {| latency := 600000; answer := Return [] |};
     exec_inspect := fun _ _ => answer_now (Some 0%Z);
     Docker.listContainers := fun _ _ => answer_now [] |}.

(** A daemon that accepts every request and answers none. *)
Definition hanging_daemon : Daemon bool :=
  {| container_inspect := fun _ _ => {| latency := 0; answer := Pending |};
     container_exec := fun _ _ _ => {| latency := 0; answer := Pending |};
     exec_start := fun _ _ _ => {| latency := 0; answer := Pending |};
     stream_end := fun _ _ => {| latency := 0; answer := Pending |};
     exec_inspect := fun _ _ => {| latency := 0; answer := Pending |};
     Docker.listContainers := fun _ _ =>
       {| latency := 0; answer := Pending |} |}.

(** A daemon that answers at once, in a container whose commands never
    end: the stream of an exec instance is never closed. *)
Definition endless_daemon : Daemon bool :=
  {| container_inspect := fun _ _ => answer_now true;
     container_exec := fun _ _ _ => answer_now "exec-1";
     exec_start := fun _ _ _ => answer_now tt;
     stream_end := fun _ _ => {| latency := 0; answer := Pending |};
     exec_inspect := fun _ _ => answer_now (Some 0%Z);
     Docker.listContainers := fun _ _ => answer_now [] |}.

(** A daemon that takes five milliseconds to report a stopped container. *)
Definition late_stopped_daemon : Daemon bool :=
  {| container_inspect := fun _ _ =>
       {| latency := 5; answer := Return false |};
     container_exec := fun _ _ _ => answer_now "exec-1";
     exec_start := fun _ _ _ => answer_now tt;
     stream_end := fun _ _ => answer_now [];
     exec_inspect := fun _ _ => answer_now (Some 0%Z);
     Docker.listContainers := fun _ _ => answer_now [] |}.

Definition sample_input : ExecInput :=
  {| in_container_id := "box"; in_command := "ls";
     in_stdin := None; in_working_dir := None; in_user := None;
     in_env := None; in_timeout := None |}.

Definition sample_fields (running : bool) : InspectedFields :=
  {| info_Name := "/box"; info_Id := "0123456789abcdef";
     info_Image := "ubuntu"; info_Status := if running then "running" else "exited";
     info_StartedAt := "2024-01-01T00:00:00Z";
     info_WorkingDir := EmptyString; info_User := EmptyString |}.

(** The call [exec] of [cat '/f'] in the container [box]. *)
Definition cat_input : ExecInput :=
  {| in_container_id := "box"; in_command := "cat '/f'";
     in_stdin := None; in_working_dir := None; in_user := None;
     in_env := None; in_timeout := None |}.

(** The call [exec] of [ls] with a timeout of 0 seconds. *)
Definition hasty_input : ExecInput :=
  {| in_container_id := "box"; in_command := "ls";
     in_stdin := None; in_working_dir := None; in_user := None;
     in_env := None; in_timeout := Some 0%Q |}.

(** A runtime whose timers fire one millisecond after the delay asked for. *)
Definition punctual_runtime : Runtime :=
  {| timer_fires_after := fun delay =>
       (Z.to_N (Qnum delay / Zpos (Qden delay)) + 1)%N;
     timer_first_on_tie := true;
     readFile := fun _ _ => {| latency := 1; answer := Throw (JsError "ENOENT") |};
     cwd := "/srv";
     path_isAbsolute := String.prefix "/";
     path_resolve := fun base p => base ++ "/" ++ p;
     path_dirname := fun _ => "/";
     number_toString := tenths |}.

Definition idle_runtime : Runtime :=
  {| timer_fires_after := fun _ => 30000%N;
     timer_first_on_tie := true;
     readFile := fun _ _ => {| latency := 1; answer := Throw (JsError "ENOENT") |};
     cwd := "/srv";
     path_isAbsolute := String.prefix "/";
     path_resolve := fun base p => base ++ "/" ++ p;
     path_dirname := fun _ => "/";
     number_toString := tenths |}.

End Tools.

(** ** Requests, commands and hosts used to state further properties *)
Module Commands.
Import JS JSString Docker Tools.
Local Open Scope string_scope.

(** The options [executeDockerCommand] creates its exec instance with. *)
Definition createOptions (command : string) (stdin workingDir user : option string)
  (env : option (list string)) : ExecCreateOptions :=
  {| Cmd := ["/bin/bash"; "-c"; command];
     AttachStdin := nonempty_option stdin;
     AttachStdout := true;
     AttachStderr := true;
     Tty := false;
     WorkingDir := workingDir;
     User := user;
     Env := env |}.

(** ... and starts it with. *)
Definition startOptions (stdin : option string) : ExecStartOptions :=
  {| Detach := false; start_Tty := false;
     start_stdin := nonempty_option stdin |}.

(** A request that stays inside [container]: an inspection of it, or an
    exec instance in it that runs [/bin/bash -c command] for a command that
    satisfies [P], or a request on such an instance. *)
Definition bash_in (container : string) (P : string -> Prop) (c : call)
  : Prop :=
  match c with
  | ContainerInspect id => id = container
  | ContainerExec id options =>
      id = container
      /\ exists command,
          Cmd options = ["/bin/bash"; "-c"; command] /\ P command
  | ListContainers _ | ReadFile _ => False
  | ExecStart _ _ | StdinPipe _ _ | StreamEnd _ | ExecInspect _ => True
  end.

(** [`test -d ${escapeShellArg(p)} && echo "exists" || echo "not found"`] *)
Definition dirExistsCommand (target_directory : string) : string :=
  "test -d " ++ Shell.escapeShellArg target_directory
  ++ " && echo " ++ dq ++ "exists" ++ dq
  ++ " || echo " ++ dq ++ "not found" ++ dq.

(** [`test -d ${escapeShellArg(p)} && echo "directory" || echo "file"`] *)
Definition isDirectoryCommand (target_file : string) : string :=
  "test -d " ++ Shell.escapeShellArg target_file
  ++ " && echo " ++ dq ++ "directory" ++ dq
  ++ " || echo " ++ dq ++ "file" ++ dq.

(** [`test -f ${escapeShellArg(p)} && echo "exists" || echo "new"`] *)
Definition isNewCommand (file_path : string) : string :=
  "test -f " ++ Shell.escapeShellArg file_path
  ++ " && echo " ++ dq ++ "exists" ++ dq
  ++ " || echo " ++ dq ++ "new" ++ dq.

(** [show_hidden ? `ls -la ${...}` : `ls -l ${...}`] *)
Definition lsCommand (target_directory : string) (show_hidden : bool)
  : string :=
  if show_hidden
  then "ls -la " ++ Shell.escapeShellArg target_directory
  else "ls -l " ++ Shell.escapeShellArg target_directory.

(** [`rm ${escapeShellArg(target_file)}`] *)
Definition rmCommand (target_file : string) : string :=
  "rm " ++ Shell.escapeShellArg target_file.

(** [`mkdir -p ${escapeShellArg(dir)}`] *)
Definition mkdirCommand (dir : string) : string :=
  "mkdir -p " ++ Shell.escapeShellArg dir.

(** [`find ${escapeShellArg(searchPath)} -type ${type} -name ${...}`] *)
Definition findCommand (pattern searchPath type : string) : string :=
  "find " ++ Shell.escapeShellArg searchPath ++ " -type " ++ type
  ++ " -name " ++ Shell.escapeShellArg pattern.

(** Whether a request starts a shell command that removes a file. *)
Definition is_rm_command (c : call) : bool :=
  match c with
  | ContainerExec _ options =>
      match Cmd options with
      | [_; _; command] => String.prefix "rm " command
      | _ => false
      end
  | _ => false
  end.

Definition no_rm (log : list call) : Prop :=
  forallb (fun c => negb (is_rm_command c)) log = true.

(** The lines [read_file] selects for an [offset] and a [limit] that are
    integers, each with the number it is shown with. *)
Definition selected_lines (content : string) (offset limit : option Z)
  : list (Z * string) :=
  let lines := split_on "010" content in
  let startLine :=
    match offset with
    | Some o => Z.max 1 o
    | None => 1%Z
    end in
  let endLine :=
    match limit with
    | Some l => Z.min (Z.of_nat (List.length lines)) (startLine + l - 1)
    | None => Z.of_nat (List.length lines)
    end in
  let selectedLines := slice_list lines (startLine - 1) endLine in
  map (fun numbered : nat * string =>
         ((startLine + Z.of_nat (fst numbered))%Z, snd numbered))
      (combine (seq 0 (List.length selectedLines)) selectedLines).

(** [`${lineNumber.toString().padStart(6)}|${line}`] *)
Definition numbered_line (rt : Runtime) (numbered : Z * string) : string :=
  padStart 6 (show_number rt (inject_Z (fst numbered)))
  ++ "|" ++ snd numbered.

(** [path.isAbsolute(p) ? p : path.resolve(process.cwd(), p)] *)
Definition resolvedPath (rt : Runtime) (testPath : string) : string :=
  if path_isAbsolute rt testPath then testPath
  else path_resolve rt (cwd rt) testPath.

(** The candidates of [get-compose-file.ts], in the order they are tried. *)
Definition possiblePaths (compose_file : string) : list string :=
  [ compose_file; "docker/compose.yaml"; "docker/compose.yml";
    "docker-compose.yaml"; "docker-compose.yml";
    "compose.yaml"; "compose.yml" ].

(** The delimiter of the here-document of [writeCommand]. *)
Definition EOF_MARKER : string := "EOF_MARKER_UNIQUE".

(** How a shell reads a here-document whose delimiter is quoted: the lines
    that follow the command line, up to the first line that is the
    delimiter, are the body, taken literally; the lines after the delimiter
    are read as further commands.  Without a delimiter line the body runs
    to the end of the script. *)
Fixpoint here_document (delimiter : string) (lines : list string)
  : list string * option (list string) :=
  match lines with
  | [] => ([], None)
  | line :: rest =>
      if String.eqb line delimiter then ([], Some rest)
      else
        let (body, commands) := here_document delimiter rest in
        (line :: body, commands)
  end.

(** What one container adds to the report of [list_containers]. *)
Definition container_block (container : ContainerInfo) : string :=
  format_container EmptyString container.

(** [`${all ? 'All' : 'Running'} Containers:\n${'='.repeat(80)}\n\n`] *)
Definition containers_header (all : bool) : string :=
  (if all then "All" else "Running") ++ " Containers:" ++ nl
  ++ repeat "=" 80 ++ nl ++ nl.

(** *** Sample hosts *)

(** A daemon with one running container that publishes a port. *)
Definition one_container_daemon : Daemon bool :=
  {| container_inspect := fun _ _ => answer_now true;
     container_exec := fun _ _ _ => answer_now "exec-1";
     exec_start := fun _ _ _ => answer_now tt;
     stream_end := fun _ _ => answer_now [];
     exec_inspect := fun _ _ => answer_now (Some 0%Z);
     Docker.listContainers := fun _ _ =>
       answer_now
         [ {| Id := "0123456789abcdef"; Names := ["/web"]; Image := "nginx";
              State := "running"; Status := "Up 2 hours";
              Ports := [ {| IP := None; PrivatePort := 80;
                            PublicPort := Some 8080; Type_ := "tcp" |} ] |} ]
  |}.


(** A daemon that cannot be reached. *)
Definition unreachable_daemon : Daemon bool :=
  {| container_inspect := fun _ _ =>
       {| latency := 1; answer := Throw (JsError "connect ENOENT") |};
     container_exec := fun _ _ _ => answer_now "exec-1";
     exec_start := fun _ _ _ => answer_now tt;
     stream_end := fun _ _ => answer_now [];
     exec_inspect := fun _ _ => answer_now (Some 0%Z);
     Docker.listContainers := fun _ _ => answer_now [] |}.

(** A host with one readable file. *)
Definition host_with_file (file content : string) : Runtime :=
  {| timer_fires_after := fun _ => 30000%N;
     timer_first_on_tie := true;
     readFile := fun _ p =>
       {| latency := 1;
          answer := if String.eqb p file then Return content
                    else Throw (JsError "ENOENT") |};
     cwd := "/srv";
     path_isAbsolute := String.prefix "/";
     path_resolve := fun base p => base ++ "/" ++ p;
     path_dirname := fun _ => "/";
     number_toString := tenths |}.

(** A host on which every path lies in [/srv/app]. *)
Definition nested_runtime : Runtime :=
  {| timer_fires_after := fun _ => 30000%N;
     timer_first_on_tie := true;
     readFile := fun _ _ =>
       {| latency := 1; answer := Throw (JsError "ENOENT") |};
     cwd := "/srv";
     path_isAbsolute := String.prefix "/";
     path_resolve := fun base p => base ++ "/" ++ p;
     path_dirname := fun _ => "/srv/app";
     number_toString := tenths |}.

End Commands.

(* ================================================================== *)
(** * Part II: properties *)
(* ================================================================== *)

(** ** The stream demultiplexer *)
Module DemuxFacts.
Import JS Demux.

Lemma append_nil_r (s : string) : (s ++ EmptyString)%string = s.
Proof. induction s as [|c s IH]; simpl; [reflexivity | now rewrite IH]. Qed.

Lemma append_assoc (a b c : string) :
  ((a ++ b) ++ c)%string = (a ++ (b ++ c))%string.
Proof. induction a as [|x a IH]; simpl; [reflexivity | now rewrite IH]. Qed.

Lemma length_nonneg (data : Buffer) : 0 <= length data.
Proof. unfold length; lia. Qed.

Lemma length_app (a b : Buffer) : length (a ++ b) = length a + length b.
Proof. unfold length; rewrite List.length_app; lia. Qed.

Lemma length_cons (x : byte) (a : Buffer) : length (x :: a) = 1 + length a.
Proof. unfold length; simpl List.length; lia. Qed.

Lemma byte_val_range (b : byte) : 0 <= byte_val b < 256.
Proof.
  unfold byte_val. pose proof (Byte.to_N_bounded b) as H.
  split; [lia|]. apply N2Z.inj_le in H. simpl in H. lia.
Qed.

Lemma byte_val_of (z : Z) : 0 <= z < 256 -> byte_val (byte_of z) = z.
Proof.
  intros Hz. unfold byte_val, byte_of.
  destruct (Byte.of_N (Z.to_N z)) as [b|] eqn:E.
  - apply Byte.to_of_N in E. rewrite E. lia.
  - apply Byte.of_N_None_iff in E. lia.
Qed.

(** Reading past a prefix is reading in what follows it. *)
Lemma index_app (pre l : Buffer) (k : Z) :
  0 <= k -> index (pre ++ l) (length pre + k) = index l k.
Proof.
  intros Hk. unfold index, length.
  destruct (Z.ltb_spec (Z.of_nat (List.length pre) + k) 0); [lia|].
  destruct (Z.ltb_spec k 0); [lia|].
  replace (Z.to_nat (Z.of_nat (List.length pre) + k))
    with (List.length pre + Z.to_nat k)%nat by lia.
  now rewrite nth_error_app2, Nat.add_comm, Nat.add_sub by lia.
Qed.

Lemma readUInt32BE_app (pre l : Buffer) (k : Z) :
  0 <= k -> readUInt32BE (pre ++ l) (length pre + k) = readUInt32BE l k.
Proof.
  intros Hk. unfold readUInt32BE.
  rewrite <- !Z.add_assoc, !index_app by lia. reflexivity.
Qed.

Lemma be32_value (n : Z) :
  0 <= n < 2 ^ 32 ->
  byte_val (byte_of (n / 2 ^ 24 mod 256)) * 2 ^ 24
  + byte_val (byte_of (n / 2 ^ 16 mod 256)) * 2 ^ 16
  + byte_val (byte_of (n / 2 ^ 8 mod 256)) * 2 ^ 8
  + byte_val (byte_of (n mod 256)) = n.
Proof.
  intros Hn.
  rewrite !byte_val_of by (apply Z.mod_pos_bound; lia).
  change (2 ^ 24) with 16777216. change (2 ^ 16) with 65536.
  change (2 ^ 8) with 256. change (2 ^ 32) with 4294967296 in Hn.
  assert (E1 : n / 65536 = n / 256 / 256)
    by (rewrite Z.div_div by lia; reflexivity).
  assert (E2 : n / 16777216 = n / 65536 / 256)
    by (rewrite Z.div_div by lia; reflexivity).
  pose proof (Z.div_mod n 256 ltac:(lia)) as D0.
  pose proof (Z.div_mod (n / 256) 256 ltac:(lia)) as D1.
  pose proof (Z.div_mod (n / 65536) 256 ltac:(lia)) as D2.
  rewrite <- E1 in D1. rewrite <- E2 in D2.
  assert (0 <= n / 16777216 < 256)
    by (split; [apply Z.div_pos; lia | apply Z.div_lt_upper_bound; lia]).
  rewrite (Z.mod_small (n / 16777216) 256) by lia.
  lia.
Qed.

Lemma readUInt32BE_header (f : frame) (post : Buffer) :
  wf_frame f ->
  readUInt32BE (encode_frame f ++ post) 4 = Return (length (payload f)).
Proof.
  intros Hwf. unfold encode_frame. destruct (reserved f) as [[r1 r2] r3].
  unfold readUInt32BE, index; simpl.
  f_equal. apply be32_value. split; [apply length_nonneg | exact Hwf].
Qed.

Lemma length_encode_frame (f : frame) :
  length (encode_frame f) = 8 + length (payload f).
Proof.
  unfold encode_frame. destruct (reserved f) as [[r1 r2] r3].
  unfold length, be32. cbn [List.length app]. lia.
Qed.

Lemma index_tag (f : frame) (post : Buffer) :
  index (encode_frame f ++ post) 0 = Some (byte_val (tag f)).
Proof.
  unfold encode_frame. destruct (reserved f) as [[r1 r2] r3]. reflexivity.
Qed.

Lemma slice_app (pre mid post : Buffer) :
  slice (pre ++ mid ++ post) (length pre) (length pre + length mid) = mid.
Proof.
  unfold slice, clamp_index. rewrite !length_app.
  pose proof (length_nonneg pre). pose proof (length_nonneg mid).
  pose proof (length_nonneg post).
  destruct (Z.ltb_spec (length pre) 0); [lia|].
  destruct (Z.ltb_spec (length pre + length mid) 0); [lia|].
  rewrite !Z.min_l by lia.
  replace (length pre + length mid - length pre) with (length mid) by lia.
  unfold length. rewrite !Nat2Z.id.
  rewrite skipn_app, skipn_all, Nat.sub_diag. simpl.
  rewrite firstn_app, firstn_all, Nat.sub_diag. simpl.
  apply app_nil_r.
Qed.

Lemma slice_payload (pre post : Buffer) (f : frame) :
  slice (pre ++ encode_frame f ++ post)
        (length pre + 8) (length pre + 8 + length (payload f)) = payload f.
Proof.
  unfold encode_frame. destruct (reserved f) as [[r1 r2] r3].
  set (hdr := [tag f; r1; r2; r3] ++ be32 (length (payload f))).
  replace (pre ++ (tag f :: r1 :: r2 :: r3 :: be32 (length (payload f))
                     ++ payload f) ++ post)
    with ((pre ++ hdr) ++ payload f ++ post)
    by (unfold hdr; rewrite <- !app_assoc; reflexivity).
  replace (length pre + 8) with (length (pre ++ hdr))
    by (rewrite length_app; reflexivity).
  apply slice_app.
Qed.

Lemma byte_of_val (b : byte) : byte_of (byte_val b) = b.
Proof.
  unfold byte_of, byte_val. rewrite N2Z.id, Byte.of_to_N. reflexivity.
Qed.

Lemma be32_bytes (l0 l1 l2 l3 : byte) :
  be32 (byte_val l0 * 2 ^ 24 + byte_val l1 * 2 ^ 16
        + byte_val l2 * 2 ^ 8 + byte_val l3) = [l0; l1; l2; l3].
Proof.
  pose proof (byte_val_range l0). pose proof (byte_val_range l1).
  pose proof (byte_val_range l2). pose proof (byte_val_range l3).
  unfold be32.
  change (2 ^ 24) with 16777216. change (2 ^ 16) with 65536.
  change (2 ^ 8) with 256.
  set (n := byte_val l0 * 16777216 + byte_val l1 * 65536
            + byte_val l2 * 256 + byte_val l3).
  assert (E3 : n mod 256 = byte_val l3).
  { symmetry. apply (Z.mod_unique_pos n 256
      (byte_val l0 * 65536 + byte_val l1 * 256 + byte_val l2)); unfold n; lia. }
  assert (E2 : n / 256 mod 256 = byte_val l2).
  { replace (n / 256)
      with (byte_val l0 * 65536 + byte_val l1 * 256 + byte_val l2)
      by (apply (Z.div_unique_pos n 256 _ (byte_val l3)); unfold n; lia).
    symmetry. apply (Z.mod_unique_pos _ 256
      (byte_val l0 * 256 + byte_val l1)); lia. }
  assert (E1 : n / 65536 mod 256 = byte_val l1).
  { replace (n / 65536) with (byte_val l0 * 256 + byte_val l1)
      by (apply (Z.div_unique_pos n 65536 _
                   (byte_val l2 * 256 + byte_val l3)); unfold n; lia).
    symmetry. apply (Z.mod_unique_pos _ 256 (byte_val l0)); lia. }
  assert (E0 : n / 16777216 mod 256 = byte_val l0).
  { replace (n / 16777216) with (byte_val l0)
      by (apply (Z.div_unique_pos n 16777216 _
                   (byte_val l1 * 65536 + byte_val l2 * 256 + byte_val l3));
          unfold n; lia).
    apply Z.mod_small; lia. }
  rewrite E0, E1, E2, E3, !byte_of_val. reflexivity.
Qed.

(** Every buffer reads, in exactly the way [split_frames] computes, as
    complete well-formed frames followed by a truncated suffix. *)
Lemma split_frames_sound (fuel : nat) :
  forall data : Buffer,
    (List.length data <= fuel)%nat ->
    data = encode_frames (fst (split_frames fuel data))
           ++ snd (split_frames fuel data)
    /\ Forall wf_frame (fst (split_frames fuel data))
    /\ truncated (snd (split_frames fuel data)).
Proof.
  induction fuel as [|fuel IH]; intros data Hlen.
  - destruct data; [|simpl in Hlen; lia].
    simpl. repeat split; [constructor | left; unfold length; simpl; lia].
  - assert (Hshort : length data < 8 ->
              data = encode_frames [] ++ data /\ Forall wf_frame []
              /\ truncated data)
      by (intros; repeat split; [constructor | left; assumption]).
    destruct data as [|t [|r1 [|r2 [|r3 [|l0 [|l1 [|l2 [|l3 more]]]]]]]];
      try (apply Hshort; unfold length; simpl; lia).
    clear Hshort. cbn [split_frames].
    set (size := byte_val l0 * 2 ^ 24 + byte_val l1 * 2 ^ 16
                 + byte_val l2 * 2 ^ 8 + byte_val l3).
    assert (Hsize : 0 <= size < 2 ^ 32).
    { pose proof (byte_val_range l0). pose proof (byte_val_range l1).
      pose proof (byte_val_range l2). pose proof (byte_val_range l3).
      unfold size. change (2 ^ 24) with 16777216. change (2 ^ 16) with 65536.
      change (2 ^ 8) with 256. change (2 ^ 32) with 4294967296. lia. }
    destruct (Z.ltb_spec (length more) size) as [Hlt | Hge].
    + simpl fst; simpl snd. repeat split; [constructor|].
      right. exists size. split; [reflexivity|].
      unfold length in *. simpl List.length. lia.
    + specialize (IH (skipn (Z.to_nat size) more)).
      destruct (split_frames fuel (skipn (Z.to_nat size) more))
        as [fs rest] eqn:E.
      simpl fst in *; simpl snd in *.
      assert (Hpl : length (firstn (Z.to_nat size) more) = size).
      { unfold length in *. rewrite List.length_firstn. lia. }
      destruct IH as (Hdata & Hwf & Ht).
      { simpl in Hlen. rewrite List.length_skipn. lia. }
      repeat split; [| constructor; [unfold wf_frame; simpl; lia | exact Hwf]
                     | exact Ht].
      change (encode_frames (?f :: fs))
        with (encode_frame f ++ encode_frames fs).
      assert (Henc : encode_frame
                       {| tag := t; reserved := (r1, r2, r3);
                          payload := firstn (Z.to_nat size) more |}
                     = [t; r1; r2; r3; l0; l1; l2; l3]
                         ++ firstn (Z.to_nat size) more).
      { unfold encode_frame. cbn [tag reserved payload].
        rewrite Hpl. unfold size. rewrite be32_bytes. reflexivity. }
      rewrite Henc, <- !app_assoc, <- Hdata, firstn_skipn. reflexivity.
Qed.

Lemma index_in_range (data : Buffer) (i : Z) :
  0 <= i < length data -> exists v, index data i = Some v /\ 0 <= v < 256.
Proof.
  intros Hi. unfold index, length in *.
  destruct (Z.ltb_spec i 0); [lia|].
  destruct (nth_error data (Z.to_nat i)) as [b|] eqn:E.
  - exists (byte_val b). split; [reflexivity | apply byte_val_range].
  - apply nth_error_None in E. lia.
Qed.

Lemma readUInt32BE_in_range (data : Buffer) (off : Z) :
  0 <= off -> off + 4 <= length data ->
  exists size, readUInt32BE data off = Return size /\ 0 <= size < 2 ^ 32.
Proof.
  intros H0 H4. unfold readUInt32BE.
  destruct (index_in_range data off) as (v0 & -> & ?); [lia|].
  destruct (index_in_range data (off + 1)) as (v1 & -> & ?); [lia|].
  destruct (index_in_range data (off + 2)) as (v2 & -> & ?); [lia|].
  destruct (index_in_range data (off + 3)) as (v3 & -> & ?); [lia|].
  eexists; split; [reflexivity|].
  change (2 ^ 24) with 16777216. change (2 ^ 16) with 65536.
  change (2 ^ 8) with 256. change (2 ^ 32) with 4294967296. lia.
Qed.

Section Decoder.
Variable toString : Buffer -> string.

Lemma body_frame (pre post : Buffer) (f : frame) (st : loop_state) :
  wf_frame f -> st_offset st = length pre ->
  body toString (pre ++ encode_frame f ++ post) st = Continue (consume toString st f).
Proof.
  intros Hwf Hoff. unfold body. rewrite Hoff.
  pose proof (length_nonneg pre). pose proof (length_nonneg post).
  pose proof (length_nonneg (payload f)).
  rewrite !length_app, length_encode_frame.
  destruct (Z.gtb_spec (length pre + 8)
              (length pre + (8 + length (payload f) + length post))); [lia|].
  rewrite readUInt32BE_app, readUInt32BE_header by (lia || assumption).
  destruct (Z.gtb_spec (length pre + 8 + length (payload f))
              (length pre + (8 + length (payload f) + length post))); [lia|].
  rewrite slice_payload.
  rewrite <- (Z.add_0_r (length pre)) at 1 2.
  rewrite index_app, index_tag by lia.
  unfold consume. rewrite Hoff. f_equal.
  destruct (byte_val (tag f)) as [|[p|p|]|p]; try reflexivity.
  destruct p; reflexivity.
Qed.

Lemma body_truncated (pre rest : Buffer) (st : loop_state) :
  truncated rest -> st_offset st = length pre ->
  body toString (pre ++ rest) st = Break.
Proof.
  intros Ht Hoff. unfold body. rewrite Hoff, length_app.
  destruct (Z.gtb_spec (length pre + 8) (length pre + length rest));
    [reflexivity|].
  destruct Ht as [Hshort | (size & Hsize & Hlong)]; [lia|].
  rewrite readUInt32BE_app, Hsize by lia.
  destruct (Z.gtb_spec (length pre + 8 + size) (length pre + length rest));
    [reflexivity | lia].
Qed.

Lemma payloads_of_cons (t : Z) (f : frame) (fs : list frame) :
  payloads_of toString t (f :: fs) =
  String.append
    (if byte_val (tag f) =? t then toString (payload f) else EmptyString)
    (payloads_of toString t fs).
Proof.
  unfold payloads_of. simpl.
  destruct (byte_val (tag f) =? t); reflexivity.
Qed.

Lemma while_S (fuel : nat) (data : Buffer) (st : loop_state) :
  while toString (S fuel) data st =
  if st_offset st <? length data then
    match body toString data st with
    | Break => Some (Return (result_of st))
    | Raise e => Some (Throw e)
    | Continue st' => while toString fuel data st'
    end
  else Some (Return (result_of st)).
Proof. reflexivity. Qed.

(** The loop, started at a frame boundary, appends the payloads of the
    frames ahead of it and stops at the truncated suffix. *)
Lemma while_frames (fs : list frame) :
  forall (pre rest : Buffer) (st : loop_state) (fuel : nat),
    Forall wf_frame fs -> truncated rest ->
    st_offset st = length pre -> (List.length fs < fuel)%nat ->
    while toString fuel (pre ++ encode_frames fs ++ rest) st =
    Some (Return
            {| stdout := (st_stdout st ++ payloads_of toString 1 fs)%string;
               stderr := (st_stderr st ++ payloads_of toString 2 fs)%string |}).
Proof.
  induction fs as [|f fs IH]; intros pre rest st fuel Hwf Ht Hoff Hfuel.
  - destruct fuel as [|fuel]; [simpl in Hfuel; lia|].
    simpl encode_frames. simpl app. rewrite while_S.
    rewrite body_truncated by assumption.
    unfold payloads_of; simpl. rewrite !append_nil_r.
    destruct (st_offset st <? length (pre ++ rest)); reflexivity.
  - destruct fuel as [|fuel]; [simpl in Hfuel; lia|].
    inversion Hwf as [|? ? Hf Hfs]; subst.
    simpl encode_frames. rewrite <- app_assoc. rewrite while_S.
    rewrite body_frame by assumption.
    pose proof (length_nonneg pre).
    pose proof (length_nonneg (payload f)).
    pose proof (length_nonneg (encode_frames fs ++ rest)).
    assert (Hlt : (st_offset st <?
                   length (pre ++ encode_frame f ++ encode_frames fs ++ rest))
                  = true).
    { apply Z.ltb_lt. rewrite Hoff, !length_app, length_encode_frame.
      rewrite length_app in *. lia. }
    rewrite Hlt.
    replace (pre ++ encode_frame f ++ encode_frames fs ++ rest)
      with ((pre ++ encode_frame f) ++ encode_frames fs ++ rest)
      by (rewrite <- app_assoc; reflexivity).
    rewrite IH; try assumption.
    + rewrite !payloads_of_cons. unfold consume; simpl.
      destruct (byte_val (tag f) =? 1), (byte_val (tag f) =? 2);
        rewrite ?append_assoc; reflexivity.
    + unfold consume; simpl.
      rewrite length_app, length_encode_frame. lia.
    + simpl in Hfuel. lia.
Qed.

Lemma length_encode_frames (fs : list frame) :
  8 * Z.of_nat (List.length fs) <= length (encode_frames fs).
Proof.
  induction fs as [|f fs IH]; simpl; [unfold length; simpl; lia|].
  rewrite length_app, length_encode_frame.
  pose proof (length_nonneg (payload f)). lia.
Qed.

Lemma frames_then_suffix (fs : list frame) (rest : Buffer) :
  Forall wf_frame fs -> truncated rest ->
  parseDockerStream toString (encode_frames fs ++ rest) =
  Some (Return (demux toString fs)).
Proof.
  intros Hwf Ht. unfold parseDockerStream.
  change (encode_frames fs ++ rest) with ([] ++ encode_frames fs ++ rest).
  rewrite while_frames; try assumption; try reflexivity.
  simpl app. pose proof (length_encode_frames fs) as H.
  rewrite List.length_app. unfold length in H. lia.
Qed.


(** What one pass through the loop body does to the offset. *)
Lemma body_progress (data : Buffer) (st : loop_state) :
  0 <= st_offset st ->
  match body toString data st with
  | Break =>
      length data < st_offset st + 8 \/
      exists size, readUInt32BE data (st_offset st + 4) = Return size
                   /\ length data < st_offset st + 8 + size
  | Continue st' =>
      exists size, readUInt32BE data (st_offset st + 4) = Return size
                   /\ 0 <= size
                   /\ st_offset st' = st_offset st + 8 + size
                   /\ st_offset st' <= length data
  | Raise _ => False
  end.
Proof.
  intros Hoff. unfold body.
  destruct (Z.gtb_spec (st_offset st + 8) (length data)) as [Hgt | Hle];
    [left; lia|].
  destruct (readUInt32BE_in_range data (st_offset st + 4))
    as (size & Hsize & Hrange); [lia | lia |].
  rewrite Hsize.
  destruct (Z.gtb_spec (st_offset st + 8 + size) (length data)).
  - right. exists size. split; [reflexivity | lia].
  - exists size. simpl. repeat split; try reflexivity; lia.
Qed.

Lemma while_total (data : Buffer) (fuel : nat) :
  forall st : loop_state,
    0 <= st_offset st <= length data ->
    length data - st_offset st < 8 * Z.of_nat fuel ->
    exists out, while toString fuel data st = Some (Return out).
Proof.
  induction fuel as [|fuel IH]; intros st Hoff Hfuel; [lia|].
  rewrite while_S.
  destruct (Z.ltb_spec (st_offset st) (length data)); [|eauto].
  pose proof (body_progress data st ltac:(lia)) as Hb.
  destruct (body toString data st) as [|st'|e]; [eauto | | contradiction].
  destruct Hb as (size & _ & Hsize & Hoff' & Hle).
  apply IH; lia.
Qed.

Lemma parseDockerStream_returns (data : Buffer) :
  exists out, parseDockerStream toString data = Some (Return out).
Proof.
  pose proof (length_nonneg data) as Hlen. unfold parseDockerStream.
  apply while_total; unfold initial; cbn [st_offset]; [lia|].
  unfold length in *. lia.
Qed.

(** C9.  [parseDockerStream] terminates on every buffer.  Each pass through
    the loop body, entered at a non-negative offset, either breaks (fewer
    than 8 bytes remain, or the declared payload exceeds what remains) or
    moves the offset forward by [8 + size] with [size >= 0], never past the
    end of the buffer and never throwing; so [length data / 8 + 1] tests of
    the loop condition always suffice, and the scan returns a result for
    every input. *)
Theorem parseDockerStream_terminates (data : Buffer) :
  (forall st,
      0 <= st_offset st ->
      match body toString data st with
      | Break =>
          length data < st_offset st + 8 \/
          exists size, readUInt32BE data (st_offset st + 4) = Return size
                       /\ length data < st_offset st + 8 + size
      | Continue st' =>
          exists size, readUInt32BE data (st_offset st + 4) = Return size
                       /\ st_offset st' = st_offset st + 8 + size
                       /\ st_offset st + 8 <= st_offset st' <= length data
      | Raise _ => False
      end)
  /\ (forall fuel,
         length data < 8 * Z.of_nat fuel ->
         exists out, while toString fuel data initial = Some (Return out))
  /\ (exists out, parseDockerStream toString data = Some (Return out)).
Proof.
  pose proof (length_nonneg data) as Hlen.
  split; [|split].
  - intros st Hoff. pose proof (body_progress data st Hoff) as Hb.
    destruct (body toString data st) as [|st'|e]; try exact Hb.
    destruct Hb as (size & Hread & Hsize & Hoff' & Hle).
    exists size. repeat split; try assumption; lia.
  - intros fuel Hfuel.
    apply while_total; unfold initial; cbn [st_offset]; lia.
  - apply parseDockerStream_returns.
Qed.

End Decoder.

(** [truncated] is decidable: [truncatedb] computes it. *)
Lemma truncatedb_spec (rest : Buffer) :
  truncatedb rest = true <-> truncated rest.
Proof.
  unfold truncatedb, truncated.
  destruct (Z.ltb_spec (length rest) 8) as [Hshort | Hlong]; simpl.
  - split; [intros _; left; exact Hshort | reflexivity].
  - destruct (readUInt32BE rest 4) as [size | e].
    + rewrite Z.ltb_lt. split.
      * intros H. right. exists size. split; [reflexivity | exact H].
      * intros [H | (size' & [= <-] & H)]; [lia | exact H].
    + split; [discriminate|].
      intros [H | (size' & Hread & _)]; [lia | discriminate Hread].
Qed.

Lemma sample_suffix_truncated : truncated sample_suffix.
Proof.
  right. exists 5. split; reflexivity.
Defined.

Lemma sample_frames_wf : Forall wf_frame sample_frames.
Proof. repeat constructor. Defined.



Lemma parseDockerStream_terminates_witness :
  exists out,
    while string_of_list_byte 5
      (encode_frames sample_frames ++ sample_suffix) initial
    = Some (Return out).
Proof.
  apply (proj1 (proj2 (parseDockerStream_terminates string_of_list_byte
                         (encode_frames sample_frames ++ sample_suffix))) 5%nat).
  vm_compute. reflexivity.
Defined.

End DemuxFacts.

(** ** JavaScript strings *)
Module JSStringFacts.
Import JSString Tools.
Local Open Scope string_scope.

(** The operations on the examples of the language reference. *)
Example replace_examples :
  replace "abc" "b" "$&$&" = "abbc"
  /\ replace "abc" "b" "[$`|$'|$$|$1|$]" = "a[a|c|$|$1|$]c"
  /\ replace "abc" "z" "y" = "abc"
  /\ replaceAll "aaa" "aa" "X" = "Xa"
  /\ replaceAll "abc" EmptyString "-" = "-a-b-c-"
  /\ replaceAll "abcabc" "b" "[$`|$']" = "a[a|cabc]ca[abca|c]c".
Proof. repeat split. Qed.

Example split_length_examples :
  split_length "a,b,c" "," = 3%Z
  /\ split_length "aaa" "aa" = 2%Z
  /\ split_length "abc" EmptyString = 3%Z
  /\ split_length EmptyString EmptyString = 0%Z
  /\ split_length EmptyString "x" = 1%Z.
Proof. repeat split. Qed.

Example trim_examples :
  trim ("  exists" ++ nl) = "exists"
  /\ trim "a b" = "a b"
  /\ trim (nl ++ " ") = EmptyString.
Proof. repeat split. Qed.

Lemma take_drop (n : nat) (s : string) : take n s ++ drop n s = s.
Proof.
  revert s. induction n as [|n IH]; intros [|c s]; simpl;
    try reflexivity. now rewrite IH.
Qed.

Lemma drop_drop (n m : nat) (s : string) : drop n (drop m s) = drop (m + n) s.
Proof.
  revert s. induction m as [|m IH]; intros s; [reflexivity|].
  destruct s as [|c s]; simpl; [destruct n; reflexivity | apply IH].
Qed.

Lemma prefix_split (p s : string) :
  String.prefix p s = true -> s = p ++ drop (String.length p) s.
Proof.
  revert s. induction p as [|c p IH]; intros s H; [reflexivity|].
  destruct s as [|d s]; [discriminate|]. simpl in H.
  destruct (Ascii.ascii_dec c d) as [<- | Hne]; [|discriminate].
  simpl. f_equal. apply IH, H.
Qed.

(** [indexOf] finds an occurrence: the subject is what precedes it, the
    pattern, and what follows it. *)
Lemma indexOf_split (s pat : string) (pos : nat) :
  indexOf s pat = Some pos ->
  s = take pos s ++ pat ++ drop (pos + String.length pat) s.
Proof.
  revert pos. induction s as [|c s IH]; intros pos H.
  - cbn [indexOf] in H.
    destruct (String.prefix pat EmptyString) eqn:E; [|discriminate].
    inversion H; subst. apply prefix_split in E. exact E.
  - cbn [indexOf] in H.
    destruct (String.prefix pat (String c s)) eqn:E.
    + inversion H; subst. apply prefix_split in E. exact E.
    + destruct (indexOf s pat) as [k|] eqn:Ek; [|discriminate].
      inversion H; subst. simpl. f_equal. apply IH. reflexivity.
Qed.

(** ... and the leftmost one. *)
Lemma indexOf_first (s pat : string) (pos : nat) :
  indexOf s pat = Some pos ->
  forall k, (k < pos)%nat -> String.prefix pat (drop k s) = false.
Proof.
  revert pos. induction s as [|c s IH]; intros pos H k Hk.
  - cbn [indexOf] in H.
    destruct (String.prefix pat EmptyString); [|discriminate].
    inversion H; subst. lia.
  - cbn [indexOf] in H.
    destruct (String.prefix pat (String c s)) eqn:E.
    + inversion H; subst. lia.
    + destruct (indexOf s pat) as [j|] eqn:Ej; [|discriminate].
      inversion H; subst. destruct k as [|k]; [exact E|].
      simpl. apply (IH j eq_refl). lia.
Qed.

Lemma includes_indexOf (s pat : string) :
  includes s pat = true <-> exists pos, indexOf s pat = Some pos.
Proof.
  unfold includes. destruct (indexOf s pat) as [pos|]; split;
    try discriminate; eauto. intros [pos H]. discriminate H.
Qed.

Lemma dollar_free_cons (c : ascii) (template : string) :
  dollar_free (String c template) ->
  Ascii.eqb c "$" = false /\ dollar_free template.
Proof.
  unfold dollar_free. simpl. intros H. apply andb_true_iff in H.
  destruct H as [H1 H2]. split; [|exact H2].
  now destruct (Ascii.eqb c "$").
Qed.

(** A replacement text without dollar signs stands for itself. *)
Lemma GetSubstitution_dollar_free (matched before after template : string) :
  dollar_free template ->
  GetSubstitution matched before after template = template.
Proof.
  induction template as [|c template IH]; intros H; [reflexivity|].
  apply dollar_free_cons in H. destruct H as [Hc Ht].
  cbn [GetSubstitution]. rewrite Hc, (IH Ht). reflexivity.
Qed.

Lemma replace_dollar_free (s pat repl : string) :
  dollar_free repl -> replace s pat repl = replace_literally s pat repl.
Proof.
  intros H. unfold replace, replace_literally.
  destruct (indexOf s pat); [|reflexivity].
  now rewrite GetSubstitution_dollar_free.
Qed.

(** With a replacement text free of dollar signs, [replace] puts it in the
    place of the leftmost occurrence and keeps the rest. *)
Lemma replace_first_occurrence (s pat repl : string) :
  dollar_free repl -> includes s pat = true ->
  exists before after,
    s = before ++ pat ++ after
    /\ replace s pat repl = before ++ repl ++ after
    /\ (forall k, (k < String.length before)%nat ->
                  String.prefix pat (drop k s) = false).
Proof.
  intros Hfree Hin. apply includes_indexOf in Hin. destruct Hin as [pos Hpos].
  exists (take pos s), (drop (pos + String.length pat) s).
  split; [apply indexOf_split, Hpos|]. split.
  - rewrite (replace_dollar_free _ _ _ Hfree). unfold replace_literally.
    rewrite Hpos. reflexivity.
  - intros k Hk. apply (indexOf_first s pat pos Hpos).
    assert (Hlen : forall n t, (String.length (take n t) <= n)%nat).
    { induction n as [|n IHn]; intros [|x t]; simpl; try lia.
      specialize (IHn t). lia. }
    specialize (Hlen pos s). lia.
Qed.

End JSStringFacts.

(** ** Shell escaping *)
Module ShellFacts.
Import Shell.

(** The reference semantics on a few words. *)
Example shell_word_examples :
  shell_word Unquoted "'a b'" = Some "a b"%string
  /\ shell_word Unquoted "a\ b" = Some "a b"%string
  /\ shell_word Unquoted "'it'\''s'" = Some "it's"%string
  /\ shell_word Unquoted "'$HOME'" = Some "$HOME"%string
  /\ shell_word Unquoted "a b" = None
  /\ shell_word Unquoted "$HOME" = None
  /\ shell_word Unquoted "'open" = None.
Proof. repeat split. Qed.

Lemma shell_word_quoted_body (s : string) :
  shell_word SingleQuoted (replace_quotes "'\''" s ++ "'") = Some s.
Proof.
  induction s as [|c s IH]; [reflexivity|].
  cbn [replace_quotes].
  destruct (Ascii.eqb c quote) eqn:E.
  - apply Ascii.eqb_eq in E. subst c.
    change (option_map (String quote)
              (shell_word SingleQuoted (replace_quotes "'\''" s ++ "'"))
            = Some (String quote s)).
    rewrite IH. reflexivity.
  - cbn [String.append shell_word]. rewrite E, IH. reflexivity.
Qed.

(** C2.  Read as one shell word under POSIX quote removal, the escaped form
    of any string evaluates to exactly that string. *)
Theorem escapeShellArg_roundtrip (s : string) :
  shell_word Unquoted (escapeShellArg s) = Some s.
Proof.
  unfold escapeShellArg. cbn [String.append shell_word].
  change (Ascii.eqb "'"%char quote) with true. cbv iota.
  apply shell_word_quoted_body.
Qed.

Lemma each_quote_replaced_cons (repl : string) (c : ascii) (s : string) :
  each_quote_replaced repl (String c s) =
  ((if Ascii.eqb c quote then repl else String c EmptyString)
     ++ each_quote_replaced repl s)%string.
Proof. reflexivity. Qed.

Lemma replace_quotes_each (repl s : string) :
  replace_quotes repl s = each_quote_replaced repl s.
Proof.
  induction s as [|c s IH]; [reflexivity|].
  rewrite each_quote_replaced_cons. cbn [replace_quotes].
  rewrite IH. destruct (Ascii.eqb c quote); reflexivity.
Qed.

(** C3, as the code has it.  The escaped form is the argument between two
    single quotes, with every embedded single quote replaced by the four
    characters quote, backslash, quote, quote; all other characters are
    kept. *)
Theorem escapeShellArg_shape (s : string) :
  escapeShellArg s =
  ("'" ++ each_quote_replaced "'\''" s ++ "'")%string
  /\ String.length (escapeShellArg s)
     = (2 + String.length s
        + 3 * List.length (filter (Ascii.eqb quote) (list_ascii_of_string s)))%nat.
Proof.
  split.
  - unfold escapeShellArg. rewrite replace_quotes_each. reflexivity.
  - unfold escapeShellArg. cbn [String.append String.length].
    assert (H : forall t, String.length (t ++ "'") = S (String.length t)).
    { induction t as [|x t IHt]; [reflexivity|]. cbn. now rewrite IHt. }
    rewrite H. clear H. cbn [Nat.add]. do 2 f_equal.
    induction s as [|c s IH]; [reflexivity|].
    cbn [replace_quotes list_ascii_of_string filter].
    rewrite (Ascii.eqb_sym quote c).
    destruct (Ascii.eqb c quote); cbn [String.append String.length List.length];
      rewrite IH; lia.
Qed.

(** C3, as the specification words it, fails on a lone single quote: the
    code yields six characters, doubling would yield four. *)
Lemma escapeShellArg_not_doubling :
  escapeShellArg "'" = "''\'''"%string
  /\ escapeShellArg "'" <> doubled_quotes "'".
Proof. split; [reflexivity | discriminate]. Qed.

(** Doubling would not survive the shell: the doubled form of a lone quote
    reads back as the empty word. *)
Lemma doubled_quotes_lose_quote :
  shell_word Unquoted (doubled_quotes "'") = Some EmptyString.
Proof. reflexivity. Qed.

End ShellFacts.

(** ** HTTP authentication *)
Module AuthFacts.
Import JSString Auth.

Lemma truthy_some (x : option string) (s : string) :
  truthy x = Some s <-> x = Some s /\ s <> EmptyString.
Proof.
  destruct x as [[|c r]|]; simpl; split.
  - discriminate.
  - intros [H1 H2]. congruence.
  - intros H. inversion H; subst. split; [reflexivity | discriminate].
  - intros [H _]. exact H.
  - discriminate.
  - intros [H _]. discriminate.
Qed.

Lemma truthy_none (x : option string) :
  truthy x = None <-> x = None \/ x = Some EmptyString.
Proof.
  destruct x as [[|c r]|]; simpl; split; intros H; auto; try discriminate;
    destruct H as [H | H]; discriminate.
Qed.

Lemma presented_token_raw_or_bearer (authHeader authToken : string) :
  startsWith authToken "Bearer " = false ->
  (presented_token authHeader = authToken <->
   authHeader = authToken
   \/ (startsWith authHeader "Bearer " = true
       /\ JSString.drop 7 authHeader = authToken)).
Proof.
  intros Hraw. unfold presented_token.
  destruct (startsWith authHeader "Bearer ") eqn:E; split.
  - intros H. right. split; [reflexivity | exact H].
  - intros [-> | [_ H]]; [congruence | exact H].
  - intros H. left. exact H.
  - intros [H | [H _]]; [exact H | discriminate].
Qed.

(** C7, as the code has it.  With no token configured (the variable unset
    or empty) every request passes.  With a non-empty token configured, a
    request passes exactly when its Authorization header is non-empty and,
    after removing a leading [Bearer ] if there is one, equals the token;
    for a token that does not itself begin with [Bearer ] this is: the
    header, raw or with its [Bearer ] prefix removed, equals the token.  A
    missing or empty header is answered 401, any other mismatch 403. *)
Theorem authMiddleware_spec (MCP_AUTH_TOKEN authorization : option string) :
  (truthy MCP_AUTH_TOKEN = None ->
   authMiddleware MCP_AUTH_TOKEN authorization = Next)
  /\
  (forall authToken,
      truthy MCP_AUTH_TOKEN = Some authToken ->
      (authMiddleware MCP_AUTH_TOKEN authorization = Next <->
       exists authHeader,
         truthy authorization = Some authHeader
         /\ presented_token authHeader = authToken)
      /\ (startsWith authToken "Bearer " = false ->
          (authMiddleware MCP_AUTH_TOKEN authorization = Next <->
           exists authHeader,
             authorization = Some authHeader
             /\ (authHeader = authToken
                 \/ (startsWith authHeader "Bearer " = true
                     /\ JSString.drop 7 authHeader = authToken))))
      /\ (truthy authorization = None ->
          exists code message,
            authMiddleware MCP_AUTH_TOKEN authorization
            = Respond 401 code message)
      /\ (forall authHeader,
             truthy authorization = Some authHeader ->
             presented_token authHeader <> authToken ->
             exists code message,
               authMiddleware MCP_AUTH_TOKEN authorization
               = Respond 403 code message)).
Proof.
  split; [unfold authMiddleware; intros ->; reflexivity|].
  intros authToken Htoken.
  assert (Hpass : authMiddleware MCP_AUTH_TOKEN authorization = Next <->
                  exists authHeader,
                    truthy authorization = Some authHeader
                    /\ presented_token authHeader = authToken).
  { unfold authMiddleware. rewrite Htoken. split.
    - destruct (truthy authorization) as [authHeader|]; [|discriminate].
      fold (presented_token authHeader).
      destruct (String.eqb_spec (presented_token authHeader) authToken);
        [eauto | discriminate].
    - intros (authHeader & -> & Heq). fold (presented_token authHeader).
      rewrite Heq, String.eqb_refl. reflexivity. }
  split; [exact Hpass|]. split; [|split].
  - intros Hraw. rewrite Hpass. split.
    + intros (authHeader & Hheader & Heq). exists authHeader.
      apply truthy_some in Hheader. destruct Hheader as [-> _].
      split; [reflexivity|].
      apply (presented_token_raw_or_bearer _ _ Hraw), Heq.
    + intros (authHeader & -> & Hmatch). exists authHeader.
      apply (presented_token_raw_or_bearer _ _ Hraw) in Hmatch.
      split; [|exact Hmatch].
      apply truthy_some. split; [reflexivity|].
      apply truthy_some in Htoken. destruct Htoken as [_ Hnonempty].
      intros ->. apply Hnonempty. rewrite <- Hmatch. reflexivity.
  - unfold authMiddleware. rewrite Htoken. intros ->. eauto.
  - unfold authMiddleware. rewrite Htoken. intros authHeader -> Hne.
    fold (presented_token authHeader).
    destruct (String.eqb_spec (presented_token authHeader) authToken);
      [contradiction | simpl; eauto].
Qed.

Lemma authMiddleware_spec_witness :
  authMiddleware (Some "s3cret"%string) (Some "Bearer s3cret"%string) = Next
  /\ (exists code message,
         authMiddleware (Some "s3cret"%string) (Some "Bearer wrong"%string)
         = Respond 403 code message).
Proof.
  split.
  - apply (proj1 (proj2 (authMiddleware_spec (Some "s3cret"%string)
                           (Some "Bearer s3cret"%string))
                        "s3cret"%string eq_refl)).
    exists "Bearer s3cret"%string. split; reflexivity.
  - apply (proj2 (proj2 (proj2 (proj2 (authMiddleware_spec
                                          (Some "s3cret"%string)
                                          (Some "Bearer wrong"%string))
                                       "s3cret"%string eq_refl)))
             "Bearer wrong"%string eq_refl).
    discriminate.
Defined.

(** C7, as the specification words it, fails twice.  A token that itself
    begins with [Bearer ] is refused although the raw header equals it; and
    with the variable set to the empty string a request without a header
    passes instead of being answered 401. *)
Lemma authMiddleware_counterexample :
  (let token := "Bearer abc"%string in
   let header := "Bearer abc"%string in
   ~ (authMiddleware (Some token) (Some header) = Next <->
      header = token \/ JSString.drop 7 header = token))
  /\ ~ (exists code message,
           authMiddleware (Some EmptyString) None = Respond 401 code message).
Proof.
  split.
  - cbv zeta. intros [_ H]. specialize (H (or_introl eq_refl)).
    discriminate H.
  - intros (code & message & H). discriminate H.
Qed.

End AuthFacts.

(** ** The tool handlers *)
Module ToolsFacts.
Import JS JSString Docker Tools.
Local Open Scope string_scope.
Local Open Scope async_scope.

(** *** The monad *)

Lemma try_catch_rethrow {A : Type} (m : Async A) (t : time) (log : list call) :
  try_catch m (fun error => throw error) t log = m t log.
Proof.
  unfold try_catch, throw. destruct (m t log) as [[a|e|] fin cs]; reflexivity.
Qed.

Lemma settles_ret {A : Type} (a : A) : settles (ret a).
Proof. intros t log; discriminate. Qed.

Lemma settles_throw {A : Type} (e : thrown) : settles (@throw A e).
Proof. intros t log; discriminate. Qed.

Lemma settles_emit (c : call) : settles (emit c).
Proof. intros t log; discriminate. Qed.

Lemma settles_await {A : Type} (c : call) (oracle : list call -> reply A) :
  (forall log, answer (oracle log) <> Pending) -> settles (await c oracle).
Proof.
  intros Hanswer t log. unfold await; simpl. specialize (Hanswer log).
  destruct (answer (oracle log)) as [[a|e]|];
    [discriminate | discriminate | contradiction].
Qed.

Lemma settles_bind {A B : Type} (m : Async A) (f : A -> Async B) :
  settles m -> (forall a, settles (f a)) -> settles (bind m f).
Proof.
  intros Hm Hf t log. unfold bind. specialize (Hm t log).
  destruct (result (m t log)) as [a|e|]; [apply Hf | discriminate | contradiction].
Qed.

Lemma settles_try_catch {A : Type} (m : Async A) (h : thrown -> Async A) :
  settles m -> (forall e, settles (h e)) -> settles (try_catch m h).
Proof.
  intros Hm Hh t log. unfold try_catch. specialize (Hm t log).
  destruct (result (m t log)) as [a|e|] eqn:E;
    [rewrite E; discriminate | apply Hh | contradiction].
Qed.

Lemma settles_race {A : Type} (rt : Runtime) (m : Async A) (delay : Q)
  (e : thrown) : settles (race_with_timer rt m delay e).
Proof.
  intros t log. unfold race_with_timer.
  destruct (result (m t log)) as [a|e'|] eqn:E; simpl;
    [| | discriminate];
    match goal with |- context [if ?b then _ else _] => destruct b end;
    simpl; rewrite ?E; discriminate.
Qed.

Lemma answers_text_ret (text : string) : answers_text (ret (text_result text)).
Proof. intros t log. exists text. reflexivity. Qed.

Lemma text_or_rejected_ret (text : string) :
  text_or_rejected (ret (text_result text)).
Proof. intros t log. simpl. exists text. reflexivity. Qed.

Lemma text_or_rejected_throw (e : thrown) : text_or_rejected (throw e).
Proof. intros t log. exact I. Qed.

Lemma text_or_rejected_bind {A : Type} (m : Async A)
  (f : A -> Async CallToolResult) :
  settles m -> (forall a, text_or_rejected (f a)) ->
  text_or_rejected (bind m f).
Proof.
  intros Hm Hf t log. unfold bind. specialize (Hm t log).
  destruct (result (m t log)) as [a|e|]; [apply Hf | exact I | contradiction].
Qed.

(** A handler whose whole body sits in a [try] whose [catch] answers with a
    text never rejects. *)
Lemma answers_text_try_catch (m : Async CallToolResult)
  (h : thrown -> Async CallToolResult) :
  text_or_rejected m -> (forall e, answers_text (h e)) ->
  answers_text (try_catch m h).
Proof.
  intros Hm Hh t log. unfold try_catch. specialize (Hm t log).
  destruct (result (m t log)) as [r|e|] eqn:E.
  - destruct Hm as [text ->]. exists text. exact E.
  - apply Hh.
  - contradiction.
Qed.

(** *** Requests that may stay pending *)

Lemma pending_only_settles {A : Type} (R : Prop) (m : Async A) :
  settles m -> pending_only R m.
Proof. intros Hm t log Hstuck. destruct (Hm t log Hstuck). Qed.

Lemma pending_only_await {A : Type} (R : Prop) (c : call)
  (oracle : list call -> reply A) :
  (R -> forall log, answer (oracle log) <> Pending) ->
  pending_only R (await c oracle).
Proof.
  intros Hanswer t log Hstuck HR. specialize (Hanswer HR log).
  unfold await in Hstuck; simpl in Hstuck.
  destruct (answer (oracle log)) as [[a|e]|];
    [discriminate | discriminate | contradiction].
Qed.

Lemma pending_only_bind {A B : Type} (R : Prop) (m : Async A)
  (f : A -> Async B) :
  pending_only R m -> (forall a, pending_only R (f a)) ->
  pending_only R (bind m f).
Proof.
  intros Hm Hf t log. unfold bind. specialize (Hm t log).
  destruct (result (m t log)) as [a|e|];
    [apply Hf | discriminate | intros _; now apply Hm].
Qed.

Lemma pending_only_try_catch {A : Type} (R : Prop) (m : Async A)
  (h : thrown -> Async A) :
  pending_only R m -> (forall e, pending_only R (h e)) ->
  pending_only R (try_catch m h).
Proof.
  intros Hm Hh t log. unfold try_catch. specialize (Hm t log).
  destruct (result (m t log)) as [a|e|] eqn:E;
    [rewrite E; discriminate | apply Hh | intros _; now apply Hm].
Qed.

Lemma text_unless_ret (R : Prop) (text : string) :
  text_unless R (ret (text_result text)).
Proof. intros t log. simpl. exists text. reflexivity. Qed.

Lemma text_unless_bind {A : Type} (R : Prop) (m : Async A)
  (f : A -> Async CallToolResult) :
  pending_only R m -> (forall a, text_unless R (f a)) ->
  text_unless R (bind m f).
Proof.
  intros Hm Hf t log. unfold bind. specialize (Hm t log).
  destruct (result (m t log)) as [a|e|];
    [apply Hf | exact I | now apply Hm].
Qed.

(** A handler whose whole body sits in a [try] whose [catch] answers with a
    text is never rejected; it stays pending only with its body. *)
Lemma answers_unless_try_catch (R : Prop) (m : Async CallToolResult)
  (h : thrown -> Async CallToolResult) :
  text_unless R m -> (forall e, answers_text (h e)) ->
  answers_unless R (try_catch m h).
Proof.
  intros Hm Hh t log. unfold try_catch. specialize (Hm t log).
  destruct (result (m t log)) as [r|e|] eqn:E.
  - rewrite E. exact Hm.
  - destruct (Hh e (finished_at (m t log)) (calls (m t log))) as [text ->].
    exists text. reflexivity.
  - rewrite E. exact Hm.
Qed.

(** What a handler that is never rejected gives its caller. *)
Lemma answers_unless_outcome (R : Prop) (m : Async CallToolResult)
  (t : time) (log : list call) :
  answers_unless R m ->
  (forall e, result (m t log) <> Rejected e)
  /\ (forall r, result (m t log) = Fulfilled r ->
                exists text, r = text_result text)
  /\ (R -> exists text, result (m t log) = Fulfilled (text_result text)).
Proof.
  intros Hm. specialize (Hm t log).
  destruct (result (m t log)) as [r|e|]; repeat split.
  - discriminate.
  - intros r' [= <-]. exact Hm.
  - intros _. destruct Hm as [text ->]. exists text. reflexivity.
  - contradiction.
  - discriminate.
  - contradiction.
  - discriminate.
  - discriminate.
  - intros HR. contradiction.
Qed.

Lemma answers_text_outcome (R : Prop) (m : Async CallToolResult)
  (t : time) (log : list call) :
  answers_text m ->
  (forall e, result (m t log) <> Rejected e)
  /\ (forall r, result (m t log) = Fulfilled r ->
                exists text, r = text_result text)
  /\ (R -> exists text, result (m t log) = Fulfilled (text_result text)).
Proof.
  intros Hm. destruct (Hm t log) as [text E]. rewrite E. repeat split.
  - discriminate.
  - intros r' [= <-]. exists text. reflexivity.
  - intros _. exists text. reflexivity.
Qed.

(** *** The requests a computation issues *)

Lemma adds_only_ret {A : Type} (P : call -> Prop) (a : A) :
  adds_only P (ret a).
Proof.
  intros t log. exists []. split; [symmetry; apply app_nil_r | constructor].
Qed.

Lemma adds_only_throw {A : Type} (P : call -> Prop) (e : thrown) :
  adds_only P (@throw A e).
Proof.
  intros t log. exists []. split; [symmetry; apply app_nil_r | constructor].
Qed.

Lemma adds_only_lift {A : Type} (P : call -> Prop)
  (c : option (completion A)) :
  adds_only P (lift c).
Proof.
  intros t log. exists []. split; [symmetry; apply app_nil_r | constructor].
Qed.

Lemma adds_only_await {A : Type} (P : call -> Prop) (c : call)
  (oracle : list call -> reply A) : P c -> adds_only P (await c oracle).
Proof.
  intros H t log. exists [c].
  split; [reflexivity | repeat constructor; exact H].
Qed.

Lemma adds_only_emit (P : call -> Prop) (c : call) :
  P c -> adds_only P (emit c).
Proof.
  intros H t log. exists [c].
  split; [reflexivity | repeat constructor; exact H].
Qed.

Lemma adds_only_bind {A B : Type} (P : call -> Prop) (m : Async A)
  (f : A -> Async B) :
  adds_only P m -> (forall a, adds_only P (f a)) -> adds_only P (bind m f).
Proof.
  intros Hm Hf t log. destruct (Hm t log) as (added & Hcalls & Hadded).
  unfold bind. destruct (result (m t log)) as [a|e|].
  - destruct (Hf a (finished_at (m t log)) (calls (m t log)))
      as (added' & Hcalls' & Hadded').
    exists (added ++ added')%list. split.
    + rewrite Hcalls', Hcalls, app_assoc. reflexivity.
    + apply Forall_app. split; assumption.
  - exists added. split; assumption.
  - exists added. split; assumption.
Qed.

Lemma adds_only_try_catch {A : Type} (P : call -> Prop) (m : Async A)
  (h : thrown -> Async A) :
  adds_only P m -> (forall e, adds_only P (h e)) -> adds_only P (try_catch m h).
Proof.
  intros Hm Hh t log. destruct (Hm t log) as (added & Hcalls & Hadded).
  unfold try_catch. destruct (result (m t log)) as [a|e|].
  - exists added. split; assumption.
  - destruct (Hh e (finished_at (m t log)) (calls (m t log)))
      as (added' & Hcalls' & Hadded').
    exists (added ++ added')%list. split.
    + rewrite Hcalls', Hcalls, app_assoc. reflexivity.
    + apply Forall_app. split; assumption.
  - exists added. split; assumption.
Qed.

Lemma adds_only_no_write {A : Type} (m : Async A) (t : time)
  (log : list call) :
  adds_only (fun c => is_write_command c = false) m ->
  no_write log -> no_write (calls (m t log)).
Proof.
  intros Hm Hlog. destruct (Hm t log) as (added & -> & Hadded).
  unfold no_write in *. rewrite forallb_app, Hlog. simpl.
  apply forallb_forall. intros c Hc.
  rewrite Forall_forall in Hadded. now rewrite (Hadded c Hc).
Qed.

Lemma calls_try_catch_ret {A : Type} (m : Async A) (g : thrown -> A)
  (t : time) (log : list call) :
  calls (try_catch m (fun e => ret (g e)) t log) = calls (m t log).
Proof.
  unfold try_catch. destruct (result (m t log)); reflexivity.
Qed.

Lemma calls_bind {A B : Type} (m : Async A) (f : A -> Async B)
  (t : time) (log : list call) :
  calls (bind m f t log) =
  match result (m t log) with
  | Fulfilled a => calls (f a (finished_at (m t log)) (calls (m t log)))
  | _ => calls (m t log)
  end.
Proof. unfold bind. destruct (result (m t log)); reflexivity. Qed.

Section Handlers.

Variable toString : Demux.Buffer -> string.
Variable ContainerInspectInfo : Type.
Variable Running : ContainerInspectInfo -> bool.
Variable rt : Runtime.
Variable describe_container : ContainerInspectInfo -> completion string.
Variable TARGET_CONTAINER : string.
Variable inspected : ContainerInspectInfo -> InspectedFields.

Local Abbreviation executeDockerCommand :=
  (executeDockerCommand toString ContainerInspectInfo Running).
Local Abbreviation exec_handler :=
  (exec_handler toString ContainerInspectInfo Running rt).

Lemma settles_parse (data : Demux.Buffer) :
  settles (lift (Demux.parseDockerStream toString data)).
Proof.
  intros t log. unfold lift; simpl.
  destruct (DemuxFacts.parseDockerStream_returns toString data) as [out ->].
  discriminate.
Qed.

(** Picks, among the answers assumed of the daemon and of the host, the one
    about the request at hand. *)
Ltac answered :=
  intros [(? & ? & ? & ? & ? & ?) ?] ?;
  match goal with H : _ |- _ => solve [apply H] end.

Lemma pending_only_executeDockerCommand
  (docker : Daemon ContainerInspectInfo)
  (containerId command : string) (stdin workingDir user : option string)
  (env : option (list string)) :
  pending_only (daemon_answers docker /\ host_answers rt)
    (executeDockerCommand docker containerId command stdin workingDir
       user env).
Proof.
  unfold Tools.executeDockerCommand.
  apply pending_only_try_catch;
    [|intros; apply pending_only_settles, settles_throw].
  apply pending_only_bind; [apply pending_only_await; answered|].
  intros info.
  destruct (negb (Running info));
    [apply pending_only_settles, settles_throw|].
  apply pending_only_bind; [apply pending_only_await; answered|].
  intros exec.
  apply pending_only_bind; [apply pending_only_await; answered|].
  intros _. apply pending_only_bind.
  { apply pending_only_settles.
    destruct (truthy stdin); [apply settles_emit | apply settles_ret]. }
  intros _.
  apply pending_only_bind; [apply pending_only_await; answered|].
  intros chunks.
  apply pending_only_bind; [apply pending_only_settles, settles_parse|].
  intros parsed.
  apply pending_only_bind; [apply pending_only_await; answered|].
  intros execInfo. apply pending_only_settles, settles_ret.
Qed.

(** With a daemon that answers, a command settles. *)
Lemma settles_executeDockerCommand (docker : Daemon ContainerInspectInfo)
  (containerId command : string) (stdin workingDir user : option string)
  (env : option (list string)) (t : time) (log : list call) :
  daemon_answers docker ->
  result (executeDockerCommand docker containerId command stdin workingDir
            user env t log) <> Stuck.
Proof.
  intros (H1 & H2 & H3 & H4 & H5 & H6).
  revert t log. change (settles (executeDockerCommand docker containerId
                                   command stdin workingDir user env)).
  unfold Tools.executeDockerCommand.
  apply settles_try_catch; [|intros; apply settles_throw].
  apply settles_bind; [apply settles_await; intros; apply H1|]. intros info.
  destruct (negb (Running info)); [apply settles_throw|].
  apply settles_bind; [apply settles_await; intros; apply H2|]. intros exec.
  apply settles_bind; [apply settles_await; intros; apply H3|]. intros _.
  apply settles_bind.
  { destruct (truthy stdin); [apply settles_emit | apply settles_ret]. }
  intros _.
  apply settles_bind; [apply settles_await; intros; apply H4|]. intros chunks.
  apply settles_bind; [apply settles_parse|]. intros parsed.
  apply settles_bind; [apply settles_await; intros; apply H5|].
  intros execInfo. apply settles_ret.
Qed.

(** The handler of [exec] settles whatever the daemon does: its timer
    fires. *)
Lemma exec_handler_answers (params : ExecParams)
  (context : ToolContext ContainerInspectInfo) :
  answers_text (exec_handler params context).
Proof.
  apply answers_text_try_catch; [|intros; apply answers_text_ret].
  apply text_or_rejected_bind; [apply settles_race|].
  intros result. apply text_or_rejected_ret.
Qed.

Lemma list_containers_handler_answers (all : bool)
  (context : ToolContext ContainerInspectInfo) :
  answers_unless (daemon_answers (docker context) /\ host_answers rt)
    (list_containers_handler ContainerInspectInfo all context).
Proof.
  apply answers_unless_try_catch; [|intros; apply answers_text_ret].
  apply text_unless_bind; [apply pending_only_await; answered|].
  intros [|c containers]; apply text_unless_ret.
Qed.

Lemma get_container_info_handler_answers (container_id : string)
  (context : ToolContext ContainerInspectInfo) :
  answers_unless (daemon_answers (docker context) /\ host_answers rt)
    (get_container_info_handler ContainerInspectInfo describe_container
       container_id context).
Proof.
  apply answers_unless_try_catch; [|intros; apply answers_text_ret].
  apply text_unless_bind; [apply pending_only_await; answered|].
  intros info.
  apply text_unless_bind; [|intros; apply text_unless_ret].
  apply pending_only_settles. intros t log. unfold lift; simpl.
  destruct (describe_container info); discriminate.
Qed.

Lemma pending_only_first_readable (R : Prop) (paths : list string) :
  (R -> host_answers rt) -> pending_only R (first_readable rt paths).
Proof.
  intros Hhost.
  induction paths as [|p paths IH];
    [apply pending_only_settles, settles_ret|].
  cbn [first_readable]. apply pending_only_try_catch; [|intros; exact IH].
  apply pending_only_bind;
    [|intros; apply pending_only_settles, settles_ret].
  apply pending_only_await. intros HR log. apply (Hhost HR).
Qed.

Lemma pending_only_run_in_target (docker : Daemon ContainerInspectInfo)
  (command : string) :
  pending_only (daemon_answers docker /\ host_answers rt)
    (run_in_target toString ContainerInspectInfo Running
       TARGET_CONTAINER docker command).
Proof. apply pending_only_executeDockerCommand. Qed.

(** Walks through a handler body: each awaited request is one the daemon
    or the host is assumed to answer, each branch ends in a text. *)
Ltac answers :=
  repeat first
    [ apply text_unless_ret
    | apply text_unless_bind;
      [ first [ apply pending_only_run_in_target
              | apply pending_only_first_readable; now intros [_ ?]
              | apply pending_only_await; answered ]
      | intros ? ]
    | progress cbv zeta
    | match goal with
      | |- text_unless _ (if ?b then _ else _) => destruct b
      | |- text_unless _ (match ?x with _ => _ end) => destruct x
      end ].

Lemma get_compose_file_handler_answers (compose_file : string)
  (context : ToolContext ContainerInspectInfo) :
  answers_unless (daemon_answers (docker context) /\ host_answers rt)
    (get_compose_file_handler ContainerInspectInfo rt compose_file context).
Proof.
  unfold get_compose_file_handler. cbv zeta.
  apply answers_unless_try_catch; [|intros; apply answers_text_ret]. answers.
Qed.

Lemma search_replace_answers (docker : Daemon ContainerInspectInfo)
  (file_path old_string new_string : string) (replace_all : bool) :
  answers_unless (daemon_answers docker /\ host_answers rt)
    (search_replace toString ContainerInspectInfo Running TARGET_CONTAINER
       docker file_path old_string new_string replace_all).
Proof.
  apply answers_unless_try_catch; [|intros; apply answers_text_ret]. answers.
Qed.

Lemma target_compose_file_answers (docker : Daemon ContainerInspectInfo)
  (compose_file : string) :
  answers_unless (daemon_answers docker /\ host_answers rt)
    (target_compose_file ContainerInspectInfo rt TARGET_CONTAINER inspected
       docker compose_file).
Proof.
  unfold target_compose_file. cbv zeta.
  apply answers_unless_try_catch; [|intros; apply answers_text_ret]. answers.
Qed.

Lemma read_file_answers (docker : Daemon ContainerInspectInfo)
  (target_file : string) (offset limit : option Q) :
  answers_unless (daemon_answers docker /\ host_answers rt)
    (read_file toString ContainerInspectInfo Running rt TARGET_CONTAINER
       docker target_file offset limit).
Proof.
  apply answers_unless_try_catch; [|intros; apply answers_text_ret]. answers.
Qed.

Lemma write_file_answers (docker : Daemon ContainerInspectInfo)
  (file_path contents : string) :
  answers_unless (daemon_answers docker /\ host_answers rt)
    (write_file toString ContainerInspectInfo Running rt TARGET_CONTAINER
       docker file_path contents).
Proof.
  unfold write_file. cbv zeta.
  apply answers_unless_try_catch; [|intros; apply answers_text_ret].
  apply text_unless_bind.
  { destruct (_ && _); [|apply pending_only_settles, settles_ret].
    apply pending_only_bind; [apply pending_only_run_in_target|].
    intros; apply pending_only_settles, settles_ret. }
  intros _. answers.
Qed.

Lemma list_dir_answers (docker : Daemon ContainerInspectInfo)
  (target_directory : string) (show_hidden : bool) :
  answers_unless (daemon_answers docker /\ host_answers rt)
    (list_dir toString ContainerInspectInfo Running TARGET_CONTAINER docker
       target_directory show_hidden).
Proof.
  apply answers_unless_try_catch; [|intros; apply answers_text_ret]. answers.
Qed.

Lemma grep_answers (docker : Daemon ContainerInspectInfo) (p : GrepParams) :
  answers_unless (daemon_answers docker /\ host_answers rt)
    (grep toString ContainerInspectInfo Running rt TARGET_CONTAINER docker
       p).
Proof.
  apply answers_unless_try_catch; [|intros; apply answers_text_ret]. answers.
Qed.

Lemma find_files_answers (docker : Daemon ContainerInspectInfo)
  (pattern searchPath type : string) :
  answers_unless (daemon_answers docker /\ host_answers rt)
    (find_files toString ContainerInspectInfo Running TARGET_CONTAINER docker
       pattern searchPath type).
Proof.
  unfold find_files. cbv zeta.
  apply answers_unless_try_catch; [|intros; apply answers_text_ret]. answers.
Qed.

Lemma delete_file_answers (docker : Daemon ContainerInspectInfo)
  (target_file explanation : string) :
  answers_unless (daemon_answers docker /\ host_answers rt)
    (delete_file toString ContainerInspectInfo Running TARGET_CONTAINER docker
       target_file explanation).
Proof.
  apply answers_unless_try_catch; [|intros; apply answers_text_ret]. answers.
Qed.

Lemma shell_help_answers (shell : string) (user working_dir : option string) :
  answers_text (shell_help TARGET_CONTAINER shell user working_dir).
Proof.
  unfold shell_help. cbv zeta.
  apply answers_text_try_catch; [|intros; apply answers_text_ret].
  repeat first
    [ apply text_or_rejected_ret
    | progress cbv zeta
    | match goal with
      | |- text_or_rejected (if ?b then _ else _) => destruct b
      | |- text_or_rejected (match ?x with _ => _ end) => destruct x
      end ].
Qed.


(** *** The search-and-replace tool *)

(** A command only adds the request that creates its own exec instance and
    requests that start no command. *)
Lemma executeDockerCommand_adds (docker : Daemon ContainerInspectInfo)
  (containerId command : string) (stdin workingDir user : option string)
  (env : option (list string)) :
  adds_only
    (fun c => is_write_command c = String.prefix "cat > " command
              \/ is_write_command c = false)
    (Tools.executeDockerCommand toString ContainerInspectInfo Running docker
       containerId command stdin workingDir user env).
Proof.
  unfold Tools.executeDockerCommand.
  apply adds_only_try_catch; [|intros; apply adds_only_throw].
  apply adds_only_bind; [apply adds_only_await; right; reflexivity|].
  intros info. destruct (negb (Running info)); [apply adds_only_throw|].
  apply adds_only_bind; [apply adds_only_await; left; reflexivity|].
  intros exec.
  apply adds_only_bind; [apply adds_only_await; right; reflexivity|].
  intros _. apply adds_only_bind.
  { destruct (truthy stdin);
      [apply adds_only_emit; right; reflexivity | apply adds_only_ret]. }
  intros _.
  apply adds_only_bind; [apply adds_only_await; right; reflexivity|].
  intros chunks. apply adds_only_bind; [apply adds_only_lift|].
  intros parsed.
  apply adds_only_bind; [apply adds_only_await; right; reflexivity|].
  intros execInfo. apply adds_only_ret.
Qed.

Lemma run_in_target_reads (docker : Daemon ContainerInspectInfo)
  (command : string) :
  String.prefix "cat > " command = false ->
  adds_only (fun c => is_write_command c = false)
    (run_in_target toString ContainerInspectInfo Running TARGET_CONTAINER
       docker command).
Proof.
  intros Hcmd t log.
  destruct (executeDockerCommand_adds docker TARGET_CONTAINER command
              None None None None t log) as (added & Hcalls & Hadded).
  exists added. split; [exact Hcalls|].
  eapply Forall_impl; [|exact Hadded]. intros c [H | H]; congruence.
Qed.

(** A command that writes the file is issued only after every check has
    passed: the strings differ, the file exists, it could be read, the old
    string occurs in it, and it occurs once or every occurrence is to be
    replaced. *)
Lemma search_replace_write_guarded (docker : Daemon ContainerInspectInfo)
  (file_path old_string new_string : string) (replace_all : bool)
  (t : time) (log : list call) :
  let run := run_in_target toString ContainerInspectInfo Running
               TARGET_CONTAINER docker in
  let check := run (existsCommand file_path) t log in
  let cat := run (catCommand file_path) (finished_at check) (calls check) in
  let response :=
    search_replace toString ContainerInspectInfo Running TARGET_CONTAINER
      docker file_path old_string new_string replace_all t log in
  no_write log ->
  ~ no_write (calls response) ->
  old_string <> new_string
  /\ exists checkResult catResult,
      result check = Fulfilled checkResult
      /\ trim (stdout checkResult) = "exists"
      /\ result cat = Fulfilled catResult
      /\ failed catResult = false
      /\ includes (stdout catResult) old_string = true
      /\ (replace_all = true
          \/ (split_length (stdout catResult) old_string - 1 <= 1)%Z).
Proof.
  intros run check cat response Hlog Hwrite.
  assert (Hcheck : no_write (calls check)).
  { apply adds_only_no_write;
      [apply run_in_target_reads; reflexivity | exact Hlog]. }
  assert (Hcat : no_write (calls cat)).
  { apply adds_only_no_write;
      [apply run_in_target_reads; reflexivity | exact Hcheck]. }
  unfold response, search_replace in Hwrite.
  rewrite calls_try_catch_ret in Hwrite.
  destruct (String.eqb_spec old_string new_string) as [Heq | Hne];
    [contradiction|].
  split; [exact Hne|].
  rewrite calls_bind in Hwrite. fold run in Hwrite. fold check in Hwrite.
  destruct (result check) as [checkResult| |] eqn:Echeck;
    [|contradiction|contradiction].
  destruct (String.eqb_spec (trim (stdout checkResult)) "exists")
    as [Hexists | Hmissing]; cbn [negb] in Hwrite; [|contradiction].
  rewrite calls_bind in Hwrite. fold cat in Hwrite.
  destruct (result cat) as [catResult| |] eqn:Ecat;
    [|contradiction|contradiction].
  destruct (failed catResult) eqn:Efailed; [contradiction|].
  cbv zeta in Hwrite.
  destruct (negb replace_all
            && (split_length (stdout catResult) old_string - 1 >? 1)%Z)
    eqn:Eunique; [contradiction|].
  destruct (includes (stdout catResult) old_string) eqn:Efound;
    cbn [negb] in Hwrite; [|contradiction].
  exists checkResult, catResult. repeat split; try assumption.
  destruct replace_all; [left; reflexivity | right].
  cbn [negb andb] in Eunique. rewrite Z.gtb_ltb in Eunique.
  apply Z.ltb_ge in Eunique. exact Eunique.
Qed.

(** When every check has passed, the requests are those of the write
    command for the replaced contents, and a successful write is reported
    with the number of replacements. *)
Lemma search_replace_writes (docker : Daemon ContainerInspectInfo)
  (file_path old_string new_string : string) (replace_all : bool)
  (t : time) (log : list call) (checkResult catResult : ExecResult) :
  let run := run_in_target toString ContainerInspectInfo Running
               TARGET_CONTAINER docker in
  let check := run (existsCommand file_path) t log in
  let cat := run (catCommand file_path) (finished_at check) (calls check) in
  let content := stdout catResult in
  let newContent :=
    if replace_all then replaceAll content old_string new_string
    else replace content old_string new_string in
  let write :=
    run (writeCommand file_path newContent) (finished_at cat) (calls cat) in
  let response :=
    search_replace toString ContainerInspectInfo Running TARGET_CONTAINER
      docker file_path old_string new_string replace_all t log in
  old_string <> new_string ->
  result check = Fulfilled checkResult ->
  trim (stdout checkResult) = "exists" ->
  result cat = Fulfilled catResult ->
  failed catResult = false ->
  includes content old_string = true ->
  (replace_all = true \/ (split_length content old_string - 1 <= 1)%Z) ->
  calls response = calls write
  /\ (forall writeResult,
         result write = Fulfilled writeResult -> failed writeResult = false ->
         result response
         = Fulfilled
             (text_result
                ("Successfully replaced "
                 ++ string_of_Z (if replace_all
                                 then split_length content old_string - 1
                                 else 1)
                 ++ " occurrence(s) in " ++ file_path))).
Proof.
  intros run check cat content newContent write response
         Hne Hcheck Hexists Hcat Hok Hfound Hunique.
  assert (Eunique : negb replace_all
                    && (split_length content old_string - 1 >? 1)%Z = false).
  { destruct Hunique as [-> | Hle]; [reflexivity|].
    apply andb_false_iff. right. rewrite Z.gtb_ltb. apply Z.ltb_ge. exact Hle. }
  unfold response, search_replace.
  apply String.eqb_neq in Hne.
  split.
  - rewrite calls_try_catch_ret, Hne, calls_bind.
    fold run. fold check. rewrite Hcheck, Hexists, String.eqb_refl.
    cbn [negb]. rewrite calls_bind. fold cat. rewrite Hcat, Hok. cbv zeta.
    fold content. rewrite Eunique, Hfound. cbn [negb].
    rewrite calls_bind. fold newContent. fold write.
    destruct (result write) as [w| |]; [|reflexivity|reflexivity].
    destruct (failed w); reflexivity.
  - intros writeResult Hwrite Hwok.
    unfold try_catch, bind. rewrite Hne.
    fold run. fold check. rewrite Hcheck, Hexists, String.eqb_refl.
    cbn [negb]. fold cat. rewrite Hcat, Hok. cbv zeta.
    fold content. rewrite Eunique, Hfound. cbn [negb].
    fold newContent. fold write. rewrite Hwrite, Hwok. reflexivity.
Qed.

(** *** The exec tool *)

(** What the handler makes of the outcome of the race. *)
Lemma exec_handler_run (params : ExecParams)
  (context : ToolContext ContainerInspectInfo) (t : time) (log : list call) :
  let raced :=
    race_with_timer rt
      (executeDockerCommand (docker context) (container_id params)
         (command params) (stdin params) (working_dir params) (user params)
         (env params))
      (timeout params * 1000)%Q (JsError "Command timeout") t log in
  exec_handler params context t log =
  {| result :=
       match result raced with
       | Fulfilled res => Fulfilled (text_result (exec_output res))
       | Rejected e =>
           Fulfilled (text_result
                        ("Execution error: " ++ message_or "Unknown error" e))
       | Stuck => Stuck
       end;
     finished_at := finished_at raced;
     calls := calls raced |}.
Proof.
  intros raced. unfold Tools.exec_handler, try_catch, bind, ret.
  fold raced. destruct raced as [[res|e|] fin cs]; reflexivity.
Qed.

Lemma executeDockerCommand_not_running (docker : Daemon ContainerInspectInfo)
  (containerId command : string) (stdin workingDir user : option string)
  (env : option (list string)) (t : time) (log : list call)
  (info : ContainerInspectInfo) (lat : N) :
  container_inspect docker log containerId
  = {| latency := lat; answer := Return info |} ->
  Running info = false ->
  executeDockerCommand docker containerId command stdin workingDir user env
    t log
  = {| result :=
         Rejected (JsError ("Container '" ++ containerId ++ "' is not running"));
       finished_at := (t + lat)%N;
       calls := (log ++ [ContainerInspect containerId])%list |}.
Proof.
  intros Hinspect Hstopped.
  unfold Tools.executeDockerCommand. rewrite try_catch_rethrow.
  unfold bind, await. cbv beta zeta. cbn [result finished_at calls].
  rewrite Hinspect. cbn [answer latency result]. rewrite Hstopped.
  reflexivity.
Qed.

(** C5, as the code has it.  When inspection reports that the container is
    not running, the exec tool issues that one inspection and nothing else
    (no exec instance is created or started), its answer is an error text,
    and the answer is there no later than the timer.  If the report arrives
    before the timer fires, the answer comes with the report and reads
    [Execution error: Container '<id>' is not running]; if the timer fires
    before the report arrives, the answer comes with the timer and reads
    [Execution error: Command timeout]. *)
Theorem exec_handler_not_running (params : ExecParams)
  (context : ToolContext ContainerInspectInfo) (t : time) (log : list call)
  (info : ContainerInspectInfo) (lat : N) :
  container_inspect (docker context) log (container_id params)
  = {| latency := lat; answer := Return info |} ->
  Running info = false ->
  let fire := (t + timer_fires_after rt (timeout params * 1000)%Q)%N in
  let response := exec_handler params context t log in
  calls response = (log ++ [ContainerInspect (container_id params)])%list
  /\ (no_exec log -> no_exec (calls response))
  /\ (exists message,
         result response
         = Fulfilled (text_result ("Execution error: " ++ message)))
  /\ (finished_at response <= fire)%N
  /\ ((t + lat < fire)%N ->
      result response
      = Fulfilled
          (text_result
             ("Execution error: Container '" ++ container_id params
              ++ "' is not running"))
      /\ finished_at response = (t + lat)%N)
  /\ ((fire < t + lat)%N ->
      result response
      = Fulfilled (text_result "Execution error: Command timeout")
      /\ finished_at response = fire).
Proof.
  intros Hinspect Hstopped fire response.
  unfold response. rewrite exec_handler_run. cbv zeta.
  unfold race_with_timer.
  rewrite (executeDockerCommand_not_running _ _ _ _ _ _ _ _ _ _ _
             Hinspect Hstopped).
  cbn [result finished_at calls]. fold fire.
  destruct (N.ltb_spec fire (t + lat)) as [Hlt | Hge];
    [|destruct (N.eqb_spec fire (t + lat)) as [Heq | Hne];
      [destruct (timer_first_on_tie rt)|]];
    cbn [orb andb result finished_at calls message_or].
  all: repeat split; try reflexivity; try lia; eauto.
  all: try (intros Hlog; unfold no_exec in *; rewrite forallb_app, Hlog;
            reflexivity).
Qed.


End Handlers.

(** *** Concrete runs *)



Lemma exec_handler_not_running_witness :
  result (Tools.exec_handler string_of_list_byte bool (fun b => b)
            idle_runtime (exec_inputSchema sample_input)
            {| docker := stopped_daemon |} 0%N [])
  = Fulfilled
      (text_result "Execution error: Container 'box' is not running").
Proof.
  exact (proj1
           (proj1 (proj2 (proj2 (proj2 (proj2
              (exec_handler_not_running string_of_list_byte bool
                 (fun b => b) idle_runtime (exec_inputSchema sample_input)
                 {| docker := stopped_daemon |} 0%N [] false 1%N
                 eq_refl eq_refl)))))
            eq_refl)).
Defined.


(** C5 fails when the timer fires before the report arrives.  The caller
    asks for a timeout of 0 seconds, the timer fires after 1 millisecond and
    the daemon takes 5 to report that the container is stopped: the answer
    is [Execution error: Command timeout], which comes from the timer and
    not from the report. *)
Lemma exec_handler_not_running_counterexample :
  let response :=
    Tools.exec_handler string_of_list_byte bool (fun b => b)
      punctual_runtime (exec_inputSchema hasty_input)
      {| docker := late_stopped_daemon |} 0%N [] in
  container_inspect late_stopped_daemon [] "box"
  = {| latency := 5; answer := Return false |}
  /\ result response
     = Fulfilled (text_result "Execution error: Command timeout")
  /\ result response
     <> Fulfilled
          (text_result "Execution error: Container 'box' is not running")
  /\ finished_at response = 1%N.
Proof.
  cbv zeta. split; [reflexivity|]. split; [vm_compute; reflexivity|].
  split; [vm_compute; discriminate | vm_compute; reflexivity].
Qed.

(** C10 fails on a replacement text that holds a dollar pattern.  The file
    holds [x]; replacing [x] by the four characters [$&$&] reports success,
    yet the command issued writes [xx]: [String.prototype.replace] expands
    [$&] to the matched text.  Taken literally the new contents would be
    [$&$&]. *)
Theorem search_replace_dollar_pattern :
  let response :=
    search_replace string_of_list_byte bool (fun b => b) "box"
      (scripted_daemon "/f" "x") "/f" "x" "$&$&" false 0%N [] in
  result response
  = Fulfilled (text_result "Successfully replaced 1 occurrence(s) in /f")
  /\ last_command (calls response) = writeCommand "/f" "xx"
  /\ replace_literally "x" "x" "$&$&" = "$&$&"
  /\ replace "x" "x" "$&$&" <> replace_literally "x" "x" "$&$&".
Proof.
  cbv zeta. repeat split; try (vm_compute; reflexivity).
  vm_compute. discriminate.
Qed.

(** *** The registry *)

(** C8, as the code has it.  The registry of the container server holds
    exactly [exec], [list_containers] and [get_container_info], that of the
    single-container server [exec] and [get_compose_file]; a lookup by name
    succeeds for exactly the three registered names; the docker-code server
    registers ten pairwise distinct names; and none of the names registered
    anywhere is one of the eleven names of the specification. *)
Theorem registry_names
  (toString : Demux.Buffer -> string) (ContainerInspectInfo : Type)
  (Running : ContainerInspectInfo -> bool) (rt : Runtime)
  (describe_container : ContainerInspectInfo -> completion string)
  (TARGET_CONTAINER : string)
  (inspected : ContainerInspectInfo -> InspectedFields) :
  let registry :=
    getAllTools toString ContainerInspectInfo Running rt describe_container in
  let target_registry :=
    AVAILABLE_TOOLS_target toString ContainerInspectInfo Running rt in
  let code_server_tools :=
    map name (code_server toString ContainerInspectInfo Running rt
                TARGET_CONTAINER inspected) in
  map name registry = ["exec"; "list_containers"; "get_container_info"]
  /\ map name target_registry = ["exec"; "get_compose_file"]
  /\ code_server_tools
     = [ "exec"; "get_compose_file"; "read_file"; "write_file";
         "search_replace"; "list_dir"; "grep"; "find_files"; "delete_file";
         "shell" ]
  /\ (forall n,
         (exists tool,
             getToolByName toString ContainerInspectInfo Running rt
               describe_container n = Some tool
             /\ name tool = n)
         <-> In n ["exec"; "list_containers"; "get_container_info"])
  /\ NoDup code_server_tools
  /\ (forall n,
         In n (map name registry ++ map name target_registry
               ++ code_server_tools)%list ->
         ~ In n specified_tools).
Proof.
  cbv zeta. split; [reflexivity|]. split; [reflexivity|].
  split; [reflexivity|]. split; [|split].
  - intros n. unfold getToolByName, AVAILABLE_TOOLS. cbn [find name execCommand
      Tools.listContainers getContainerInfo].
    split.
    + intros (tool & Hfind & Hname).
      destruct (String.eqb_spec "exec" n) as [<- | _]; [simpl; auto|].
      destruct (String.eqb_spec "list_containers" n) as [<- | _];
        [simpl; auto|].
      destruct (String.eqb_spec "get_container_info" n) as [<- | _];
        [simpl; auto | discriminate].
    + intros [<- | [<- | [<- | []]]]; cbn; eexists; split; reflexivity.
  - cbn [map code_server name target_exec_tool target_compose_file_tool
           read_file_tool write_file_tool search_replace_tool list_dir_tool
           grep_tool find_files_tool delete_file_tool shell_tool].
    repeat (constructor; [intros Hin; cbn in Hin;
                          repeat (destruct Hin as [Hin | Hin];
                                  [discriminate Hin|]); exact Hin|]).
    constructor.
  - intros n Hin Hspec. cbn in Hin.
    repeat (destruct Hin as [<- | Hin];
            [cbn in Hspec;
             repeat (destruct Hspec as [Hspec | Hspec];
                     [discriminate Hspec|]); exact Hspec|]).
    exact Hin.
Qed.

(** C8, as the specification words it, fails: [exec] is registered and is
    not among the listed names, and [execute-command] is listed and not
    registered. *)
Lemma registry_names_counterexample :
  let registered :=
    map name (getAllTools string_of_list_byte bool (fun b => b) idle_runtime
                (fun _ => Return EmptyString)) in
  ~ (forall n, In n registered <-> In n specified_tools).
Proof.
  cbv zeta. intros H. destruct (H "exec") as [H1 _].
  specialize (H1 (or_introl eq_refl)). cbn in H1.
  repeat (destruct H1 as [H1 | H1]; [discriminate H1|]). exact H1.
Qed.

End ToolsFacts.

(** ** More on the stream demultiplexer *)
Module DemuxMore.
Import JS Demux DemuxFacts.

Lemma concat_strings_app (xs ys : list string) :
  concat_strings (xs ++ ys)
  = String.append (concat_strings xs) (concat_strings ys).
Proof.
  induction xs as [|x xs IH]; [reflexivity|].
  simpl. rewrite IH, append_assoc. reflexivity.
Qed.

Lemma payloads_of_app (toString : Buffer -> string) (t : Z)
  (fs gs : list frame) :
  payloads_of toString t (fs ++ gs)
  = String.append (payloads_of toString t fs) (payloads_of toString t gs).
Proof.
  unfold payloads_of. rewrite filter_app, map_app. apply concat_strings_app.
Qed.

Lemma encode_frames_app (fs gs : list frame) :
  encode_frames (fs ++ gs) = encode_frames fs ++ encode_frames gs.
Proof. unfold encode_frames. apply flat_map_app. Qed.

Section Decoder.
Variable toString : Buffer -> string.

(** X1.  Complete frames in front of any further data: the scan of the
    whole buffer returns the payloads of those frames, by tag and in order,
    followed by what the scan of the further data alone returns.  So
    frame-aligned pieces of a stream can be demultiplexed piece by piece. *)
Theorem parseDockerStream_frames_then_data (fs : list frame) (data : Buffer) :
  Forall wf_frame fs ->
  exists out,
    parseDockerStream toString data = Some (Return out)
    /\ parseDockerStream toString (encode_frames fs ++ data)
       = Some (Return
                 {| stdout := String.append (payloads_of toString 1 fs)
                                            (stdout out);
                    stderr := String.append (payloads_of toString 2 fs)
                                            (stderr out) |}).
Proof.
  intros Hwf.
  destruct (split_frames_sound (List.length data) data (Nat.le_refl _))
    as (Hdata & Hgs & Hrest).
  set (gs := fst (split_frames (List.length data) data)) in *.
  set (rest := snd (split_frames (List.length data) data)) in *.
  exists (demux toString gs). split.
  - rewrite Hdata at 1. apply frames_then_suffix; assumption.
  - rewrite Hdata, app_assoc, <- encode_frames_app.
    rewrite frames_then_suffix;
      [| apply Forall_app; split; assumption | assumption].
    unfold demux. rewrite !payloads_of_app. reflexivity.
Qed.

Lemma proper_prefix_truncated (f : frame) (n : nat) :
  wf_frame f -> (n < List.length (encode_frame f))%nat ->
  truncated (firstn n (encode_frame f)).
Proof.
  intros Hwf Hn.
  pose proof (length_encode_frame f) as Hlen. unfold length in Hlen.
  unfold encode_frame in *. destruct (reserved f) as [[r1 r2] r3].
  pose proof (be32_value (length (payload f))
                (conj (length_nonneg _) Hwf)) as Hval.
  unfold be32 in *.
  do 8 (destruct n as [|n];
        [left; unfold length; cbn [firstn List.length app]; lia|]).
  right. exists (length (payload f)). split.
  - cbn [firstn app]. unfold readUInt32BE, index. simpl.
    f_equal. exact Hval.
  - cbn [firstn app]. unfold length in *. cbn [List.length app] in *.
    rewrite List.length_firstn. lia.
Qed.

(** X2.  A stream cut anywhere inside a frame, in its header or in its
    payload: the scan returns the payloads of the frames before the cut
    frame and nothing of the cut one. *)
Theorem parseDockerStream_cut_stream (fs : list frame) (f : frame) (n : nat) :
  Forall wf_frame fs -> wf_frame f ->
  (n < List.length (encode_frame f))%nat ->
  parseDockerStream toString (encode_frames fs ++ firstn n (encode_frame f))
  = Some (Return (demux toString fs)).
Proof.
  intros Hfs Hf Hn. apply frames_then_suffix; [exact Hfs|].
  apply proper_prefix_truncated; assumption.
Qed.

End Decoder.

Lemma parseDockerStream_frames_then_data_witness :
  exists out,
    parseDockerStream string_of_list_byte sample_suffix = Some (Return out)
    /\ parseDockerStream string_of_list_byte
         (encode_frames sample_frames ++ sample_suffix)
       = Some (Return {| stdout := String.append "hi" (stdout out);
                         stderr := String.append "err" (stderr out) |}).
Proof.
  exact (parseDockerStream_frames_then_data string_of_list_byte sample_frames
           sample_suffix sample_frames_wf).
Defined.

Lemma parseDockerStream_cut_stream_witness :
  parseDockerStream string_of_list_byte
    (encode_frames sample_frames
     ++ firstn 9 (encode_frame
                    {| tag := x01; reserved := (x00, x00, x00);
                       payload := [x6f; x6b] |}))
  = Some (Return {| stdout := "hi"; stderr := "err" |}).
Proof.
  apply (parseDockerStream_cut_stream string_of_list_byte sample_frames
           {| tag := x01; reserved := (x00, x00, x00);
              payload := [x6f; x6b] |} 9 sample_frames_wf).
  - reflexivity.
  - simpl. lia.
Defined.

End DemuxMore.

(** ** Running a command in a container *)
Module ExecMore.
Import JS JSString Docker Tools ToolsFacts Commands.
Local Open Scope string_scope.
Local Open Scope async_scope.

(** One step of a computation that starts with a request. *)
Lemma bind_await {A B : Type} (c : call) (oracle : list call -> reply A)
  (f : A -> Async B) (t : time) (log : list call) :
  (a <- await c oracle ;; f a) t log
  = match answer (oracle log) with
    | Settled (Return a) =>
        f a (t + latency (oracle log))%N (log ++ [c])%list
    | Settled (Throw e) =>
        {| result := Rejected e;
           finished_at := (t + latency (oracle log))%N;
           calls := (log ++ [c])%list |}
    | Pending =>
        {| result := Stuck;
           finished_at := (t + latency (oracle log))%N;
           calls := (log ++ [c])%list |}
    end.
Proof.
  unfold bind, await. cbn [result finished_at calls].
  destruct (answer (oracle log)) as [[a|e]|]; reflexivity.
Qed.

Lemma bind_ret {A B : Type} (a : A) (f : A -> Async B) (t : time)
  (log : list call) :
  (x <- ret a ;; f x) t log = f a t log.
Proof. reflexivity. Qed.

Lemma bind_emit {B : Type} (c : call) (f : unit -> Async B) (t : time)
  (log : list call) :
  (x <- emit c ;; f x) t log = f tt t (log ++ [c])%list.
Proof. reflexivity. Qed.

Lemma bind_lift {A B : Type} (a : A) (f : A -> Async B) (t : time)
  (log : list call) :
  (x <- lift (Some (Return a)) ;; f x) t log = f a t log.
Proof. reflexivity. Qed.

Section Handlers.
Variable toString : Demux.Buffer -> string.
Variable ContainerInspectInfo : Type.
Variable Running : ContainerInspectInfo -> bool.

(** X3. When the container runs and the daemon answers every request,
    [executeDockerCommand] issues, in this order, the inspection, the
    creation of an exec instance for [/bin/bash -c command] (standard input
    attached exactly when a non-empty [stdin] is given), its start, the write
    of [stdin] if any, the wait for the end of the stream and the inspection
    of the instance; it is fulfilled when the last answer arrives, with the
    demultiplexed chunks of the stream as [stdout] and [stderr] and the exit
    code the daemon reports. *)
Theorem executeDockerCommand_success (docker : Daemon ContainerInspectInfo)
  (containerId command : string) (stdin workingDir user : option string)
  (env : option (list string)) (t : time) (log : list call)
  (info : ContainerInspectInfo) (exec : string)
  (chunks : list Demux.Buffer) (fs : list Demux.frame) (rest : Demux.Buffer)
  (code : option Z) (l1 l2 l3 l4 l5 : N) :
  let options := createOptions command stdin workingDir user env in
  let log1 := (log ++ [ContainerInspect containerId])%list in
  let log2 := (log1 ++ [ContainerExec containerId options])%list in
  let log3 := (log2 ++ [ExecStart exec (startOptions stdin)])%list in
  let log4 := match truthy stdin with
              | Some input => (log3 ++ [StdinPipe exec input])%list
              | None => log3
              end in
  let log5 := (log4 ++ [StreamEnd exec])%list in
  container_inspect docker log containerId
  = {| latency := l1; answer := Return info |} ->
  Running info = true ->
  container_exec docker log1 containerId options
  = {| latency := l2; answer := Return exec |} ->
  exec_start docker log2 exec (startOptions stdin)
  = {| latency := l3; answer := Return tt |} ->
  stream_end docker log4 exec = {| latency := l4; answer := Return chunks |} ->
  List.concat chunks = (Demux.encode_frames fs ++ rest)%list ->
  Forall Demux.wf_frame fs -> Demux.truncated rest ->
  exec_inspect docker log5 exec = {| latency := l5; answer := Return code |} ->
  Tools.executeDockerCommand toString ContainerInspectInfo Running
    docker containerId command stdin workingDir user env t log
  = {| result :=
         Fulfilled {| stdout := Demux.payloads_of toString 1 fs;
                      stderr := Demux.payloads_of toString 2 fs;
                      exitCode := code |};
       finished_at := (t + l1 + l2 + l3 + l4 + l5)%N;
       calls := (log5 ++ [ExecInspect exec])%list |}.
Proof.
  intros options log1 log2 log3 log4 log5
         Hinspect Hrunning Hexec Hstart Hstream Hchunks Hwf Hrest Hcode.
  unfold Tools.executeDockerCommand. rewrite try_catch_rethrow.
  subst options log1 log2 log3 log4 log5.
  unfold createOptions, startOptions in *.
  unfold bind, await, emit, lift, ret. cbv beta zeta.
  cbn [result finished_at calls]. rewrite Hinspect.
  cbn [answer latency result finished_at calls]. rewrite Hrunning.
  cbn [negb result finished_at calls]. rewrite Hexec.
  cbn [answer latency result finished_at calls]. rewrite Hstart.
  cbn [answer latency result finished_at calls].
  destruct (truthy stdin) as [input|];
    cbn [result finished_at calls]; rewrite Hstream;
    cbn [answer latency result finished_at calls];
    rewrite Hchunks, (DemuxFacts.frames_then_suffix toString fs rest Hwf Hrest);
    cbn [result finished_at calls]; rewrite Hcode; reflexivity.
Qed.

(** X4. [executeDockerCommand] stops at the first request the daemon
    refuses: whichever of the inspection, the creation of the exec instance,
    its start, the wait for the stream and the final inspection throws, the
    promise is rejected with that very error and no later request is
    issued. *)
Theorem executeDockerCommand_fails_fast (docker : Daemon ContainerInspectInfo)
  (containerId command : string) (stdin workingDir user : option string)
  (env : option (list string)) (t : time) (log : list call) (e : thrown) :
  let options := createOptions command stdin workingDir user env in
  let finished :=
    Tools.executeDockerCommand toString ContainerInspectInfo Running
      docker containerId command stdin workingDir user env t log in
  let stopped_after (requests : list call) :=
    result finished = Rejected e /\ calls finished = requests in
  let log1 := (log ++ [ContainerInspect containerId])%list in
  let log2 := (log1 ++ [ContainerExec containerId options])%list in
  (answer (container_inspect docker log containerId) = Throw e ->
   stopped_after log1)
  /\
  (forall info,
      answer (container_inspect docker log containerId) = Return info ->
      Running info = true ->
      (answer (container_exec docker log1 containerId options) = Throw e ->
       stopped_after log2)
      /\
      (forall exec,
          answer (container_exec docker log1 containerId options)
          = Return exec ->
          let log3 := (log2 ++ [ExecStart exec (startOptions stdin)])%list in
          let log4 := match truthy stdin with
                      | Some input => (log3 ++ [StdinPipe exec input])%list
                      | None => log3
                      end in
          let log5 := (log4 ++ [StreamEnd exec])%list in
          (answer (exec_start docker log2 exec (startOptions stdin)) = Throw e ->
           stopped_after log3)
          /\
          (answer (exec_start docker log2 exec (startOptions stdin))
           = Return tt ->
           (answer (stream_end docker log4 exec) = Throw e ->
            stopped_after log5)
           /\
           (forall chunks,
               answer (stream_end docker log4 exec) = Return chunks ->
               answer (exec_inspect docker log5 exec) = Throw e ->
               stopped_after (log5 ++ [ExecInspect exec])%list)))).
Proof.
  intros options finished stopped_after log1 log2.
  unfold stopped_after, finished, Tools.executeDockerCommand.
  clear stopped_after finished.
  rewrite try_catch_rethrow, bind_await.
  fold (createOptions command stdin workingDir user env).
  fold options. fold (startOptions stdin). fold log1.
  split.
  { intros ->. split; reflexivity. }
  intros info -> ->. change (negb true) with false. cbv iota.
  rewrite bind_await. fold log2.
  split.
  { intros ->. split; reflexivity. }
  intros exec ->. cbv zeta.
  set (log3 := (log2 ++ [ExecStart exec (startOptions stdin)])%list).
  set (log4 := match truthy stdin with
               | Some input => (log3 ++ [StdinPipe exec input])%list
               | None => log3
               end).
  set (log5 := (log4 ++ [StreamEnd exec])%list).
  rewrite bind_await. fold log3.
  split.
  { intros ->. split; reflexivity. }
  intros ->.
  assert (Hpipe :
    forall (f : unit -> Async ExecResult) t',
      (x <- match truthy stdin with
            | Some input => emit (StdinPipe exec input)
            | None => ret tt
            end ;; f x) t' log3
      = f tt t' log4).
  { intros f t'. unfold log4. destruct (truthy stdin); reflexivity. }
  rewrite Hpipe, bind_await. fold log5.
  split.
  { intros ->. split; reflexivity. }
  intros chunks ->.
  destruct (DemuxFacts.parseDockerStream_returns toString
              (List.concat chunks)) as [out ->].
  rewrite bind_lift, bind_await. intros ->. split; reflexivity.
Qed.

(** X19. The timer of the [exec] tool does not cancel the command: whether
    the timer or the command wins the race, the handler issues exactly the
    requests of the command's run, those that follow the deadline
    included. *)
Theorem exec_handler_timeout_keeps_command (rt : Runtime)
  (params : ExecParams) (context : ToolContext ContainerInspectInfo)
  (t : time) (log : list call) :
  let finished :=
    Tools.executeDockerCommand toString ContainerInspectInfo Running
      (docker context) (container_id params) (command params)
      (stdin params) (working_dir params) (user params) (env params) t log in
  let response :=
    exec_handler toString ContainerInspectInfo Running rt params context
      t log in
  calls response = calls finished.
Proof.
  intros finished response.
  unfold response. rewrite exec_handler_run. cbv zeta. cbn [calls].
  unfold race_with_timer. cbv zeta. fold finished.
  match goal with |- calls (if ?b then _ else _) = _ => destruct b end;
    reflexivity.
Qed.

End Handlers.

Lemma executeDockerCommand_success_witness :
  Tools.executeDockerCommand string_of_list_byte bool (fun b => b)
    (scripted_daemon "/f" "x") "box" (catCommand "/f") None None None None
    7%N []
  = {| result :=
         Fulfilled {| stdout := "x"; stderr := EmptyString;
                      exitCode := Some 0%Z |};
       finished_at := 12%N;
       calls :=
         [ ContainerInspect "box";
           ContainerExec "box"
             (createOptions (catCommand "/f") None None None None);
           ExecStart "exec-1" (startOptions None);
           StreamEnd "exec-1";
           ExecInspect "exec-1" ] |}.
Proof.
  apply (executeDockerCommand_success string_of_list_byte bool (fun b => b)
           (scripted_daemon "/f" "x") "box" (catCommand "/f")
           None None None None 7%N [] true "exec-1" [stdout_frame "x"]
           [ {| Demux.tag := x01; Demux.reserved := (x00, x00, x00);
                Demux.payload := [x78] |} ]
           [] (Some 0%Z) 1%N 1%N 1%N 1%N 1%N).
  - reflexivity.
  - reflexivity.
  - reflexivity.
  - reflexivity.
  - reflexivity.
  - reflexivity.
  - repeat constructor.
  - left. reflexivity.
  - reflexivity.
Defined.

Lemma executeDockerCommand_fails_fast_witness :
  let finished :=
    Tools.executeDockerCommand string_of_list_byte bool (fun b => b)
      unreachable_daemon "box" "ls" None None None None 0%N [] in
  result finished = Rejected (JsError "connect ENOENT")
  /\ calls finished = [ContainerInspect "box"].
Proof.
  exact (proj1
           (executeDockerCommand_fails_fast string_of_list_byte bool
              (fun b => b) unreachable_daemon "box" "ls" None None None None
              0%N [] (JsError "connect ENOENT"))
           eq_refl).
Defined.

End ExecMore.

(** ** The commands the tools of the docker-code server run *)
Module CommandsMore.
Import JS JSString Docker Tools ToolsFacts Commands.
Local Open Scope string_scope.
Local Open Scope async_scope.

Lemma adds_only_weaken {A : Type} (P Q : call -> Prop) (m : Async A) :
  (forall c, P c -> Q c) -> adds_only P m -> adds_only Q m.
Proof.
  intros HPQ Hm t log. destruct (Hm t log) as (added & Hcalls & Hadded).
  exists added. split; [exact Hcalls|].
  eapply Forall_impl; [exact HPQ | exact Hadded].
Qed.

Lemma bash_in_weaken (container : string) (P Q : string -> Prop) (c : call) :
  (forall command, P command -> Q command) ->
  bash_in container P c -> bash_in container Q c.
Proof.
  intros HPQ. destruct c; simpl; auto.
  intros (Hid & command & Hcmd & HP). eauto.
Qed.

Lemma adds_only_race {A : Type} (P : call -> Prop) (rt : Runtime)
  (m : Async A) (delay : Q) (e : thrown) :
  adds_only P m -> adds_only P (race_with_timer rt m delay e).
Proof.
  intros Hm t log. destruct (Hm t log) as (added & Hcalls & Hadded).
  exists added. split; [|exact Hadded].
  unfold race_with_timer. cbv zeta.
  match goal with |- calls (if ?b then _ else _) = _ => destruct b end;
    exact Hcalls.
Qed.

Section Handlers.
Variable toString : Demux.Buffer -> string.
Variable ContainerInspectInfo : Type.
Variable Running : ContainerInspectInfo -> bool.
Variable rt : Runtime.
Variable describe_container : ContainerInspectInfo -> completion string.
Variable TARGET_CONTAINER : string.
Variable inspected : ContainerInspectInfo -> InspectedFields.

Lemma executeDockerCommand_bash (docker : Daemon ContainerInspectInfo)
  (containerId command : string) (stdin workingDir user : option string)
  (env : option (list string)) :
  adds_only (bash_in containerId (eq command))
    (executeDockerCommand toString ContainerInspectInfo Running docker
       containerId command stdin workingDir user env).
Proof.
  unfold executeDockerCommand.
  apply adds_only_try_catch; [|intros; apply adds_only_throw].
  apply adds_only_bind; [apply adds_only_await; reflexivity|].
  intros info. destruct (negb (Running info)); [apply adds_only_throw|].
  apply adds_only_bind.
  { apply adds_only_await. simpl. split; [reflexivity|]. eauto. }
  intros exec.
  apply adds_only_bind; [apply adds_only_await; exact I|].
  intros _. apply adds_only_bind.
  { destruct (truthy stdin);
      [apply adds_only_emit; exact I | apply adds_only_ret]. }
  intros _.
  apply adds_only_bind; [apply adds_only_await; exact I|].
  intros chunks. apply adds_only_bind; [apply adds_only_lift|].
  intros parsed.
  apply adds_only_bind; [apply adds_only_await; exact I|].
  intros execInfo. apply adds_only_ret.
Qed.

Lemma run_in_target_bash (docker : Daemon ContainerInspectInfo)
  (P : string -> Prop) (command : string) :
  P command ->
  adds_only (bash_in TARGET_CONTAINER P)
    (run_in_target toString ContainerInspectInfo Running TARGET_CONTAINER
       docker command).
Proof.
  intros HP. eapply adds_only_weaken; [|apply executeDockerCommand_bash].
  intros c. apply bash_in_weaken. intros ? <-. exact HP.
Qed.

(** Walks through a handler body, checking each command it runs. *)
Ltac commands :=
  repeat first
    [ match goal with
      | |- adds_only _ (run_in_target _ _ _ _ _ _) =>
          apply run_in_target_bash; simpl; now eauto 8
      end
    | apply adds_only_ret
    | apply adds_only_try_catch; [ | intros ? ]
    | apply adds_only_bind; [ | intros ? ]
    | progress cbv zeta
    | match goal with
      | |- adds_only _ (if ?b then _ else _) => destruct b
      | |- adds_only _ (match ?x with _ => _ end) => destruct x
      end ].


Lemma first_readable_reads (paths : list string) :
  adds_only
    (fun c => exists p, In p paths /\ c = ReadFile (resolvedPath rt p))
    (first_readable rt paths).
Proof.
  induction paths as [|testPath rest IH]; cbn [first_readable].
  - apply adds_only_ret.
  - apply adds_only_try_catch.
    + cbv zeta. apply adds_only_bind; [|intros; apply adds_only_ret].
      apply adds_only_await. exists testPath. split; [now left | reflexivity].
    + intros _. eapply adds_only_weaken; [|exact IH].
      intros c (p & Hp & ->). exists p. split; [now right | reflexivity].
Qed.


Lemma bash_in_not_rm (command : string) (c : call) :
  String.prefix "rm " command = false ->
  bash_in TARGET_CONTAINER (eq command) c -> is_rm_command c = false.
Proof.
  intros Hcmd. destruct c; simpl; try reflexivity.
  intros (_ & command' & -> & <-). exact Hcmd.
Qed.

Lemma run_in_target_no_rm (docker : Daemon ContainerInspectInfo)
  (command : string) (t : time) (log : list call) :
  String.prefix "rm " command = false -> no_rm log ->
  no_rm (calls (run_in_target toString ContainerInspectInfo Running
                  TARGET_CONTAINER docker command t log)).
Proof.
  intros Hcmd Hlog.
  destruct (executeDockerCommand_bash docker TARGET_CONTAINER command
              None None None None t log) as (added & Hcalls & Hadded).
  unfold run_in_target. rewrite Hcalls.
  unfold no_rm in *. rewrite forallb_app, Hlog. simpl.
  apply forallb_forall. intros c Hc. rewrite Forall_forall in Hadded.
  now rewrite (bash_in_not_rm command c Hcmd (Hadded c Hc)).
Qed.

(** X6. [delete_file] starts an [rm] only after the existence test has
    printed [exists] and the directory test has printed something other
    than [directory]; when both tests pass, [rm] on the escaped path is the
    next and last command, and the answer is the error text with [rm]'s
    standard error when its exit code is not 0, the success text with the
    path and the explanation otherwise. *)
Theorem delete_file_guarded (docker : Daemon ContainerInspectInfo)
  (target_file explanation : string) (t : time) (log : list call) :
  let run := run_in_target toString ContainerInspectInfo Running
               TARGET_CONTAINER docker in
  let check := run (existsCommand target_file) t log in
  let kind :=
    run (isDirectoryCommand target_file) (finished_at check) (calls check) in
  let removal :=
    run (rmCommand target_file) (finished_at kind) (calls kind) in
  let response :=
    delete_file toString ContainerInspectInfo Running TARGET_CONTAINER docker
      target_file explanation t log in
  no_rm log ->
  (~ no_rm (calls response) ->
   exists checkResult typeResult,
     result check = Fulfilled checkResult
     /\ trim (stdout checkResult) = "exists"
     /\ result kind = Fulfilled typeResult
     /\ trim (stdout typeResult) <> "directory")
  /\
  (forall checkResult typeResult,
      result check = Fulfilled checkResult ->
      trim (stdout checkResult) = "exists" ->
      result kind = Fulfilled typeResult ->
      trim (stdout typeResult) <> "directory" ->
      calls response = calls removal
      /\ forall removed,
          result removal = Fulfilled removed ->
          result response
          = Fulfilled
              (text_result
                 (if failed removed
                  then "Error deleting file: " ++ stderr removed
                  else "Successfully deleted file: " ++ target_file ++ nl
                       ++ "Reason: " ++ explanation))).
Proof.
  intros run check kind removal response Hlog.
  assert (Hcheck : no_rm (calls check))
    by (apply run_in_target_no_rm; [reflexivity | exact Hlog]).
  assert (Hkind : no_rm (calls kind))
    by (apply run_in_target_no_rm; [reflexivity | exact Hcheck]).
  split.
  - intros Hrm. unfold response, delete_file in Hrm.
    rewrite calls_try_catch_ret, calls_bind in Hrm.
    fold run in Hrm. fold check in Hrm.
    destruct (result check) as [checkResult| |] eqn:Echeck;
      [|contradiction|contradiction].
    destruct (String.eqb_spec (trim (stdout checkResult)) "exists")
      as [Hexists | Hmissing]; cbn [negb] in Hrm; [|contradiction].
    rewrite calls_bind in Hrm.
    fold (isDirectoryCommand target_file) in Hrm. fold kind in Hrm.
    destruct (result kind) as [typeResult| |] eqn:Ekind;
      [|contradiction|contradiction].
    destruct (String.eqb_spec (trim (stdout typeResult)) "directory")
      as [Hdir | Hfile]; [contradiction|].
    exists checkResult, typeResult. repeat split; assumption.
  - intros checkResult typeResult Echeck Hexists Ekind Hfile.
    apply String.eqb_neq in Hfile.
    unfold response, delete_file. split.
    + rewrite calls_try_catch_ret, calls_bind.
      fold run. fold check. rewrite Echeck, Hexists, String.eqb_refl.
      cbn [negb]. rewrite calls_bind.
      fold (isDirectoryCommand target_file). fold kind.
      rewrite Ekind, Hfile. rewrite calls_bind.
      fold (rmCommand target_file). fold removal.
      destruct (result removal) as [removed| |]; [|reflexivity|reflexivity].
      destruct (failed removed); reflexivity.
    + intros removed Eremoval. unfold try_catch, bind.
      fold run. fold check. rewrite Echeck, Hexists, String.eqb_refl.
      cbn [negb]. fold (isDirectoryCommand target_file). fold kind.
      rewrite Ekind, Hfile.
      fold (rmCommand target_file). fold removal. rewrite Eremoval.
      destruct (failed removed); reflexivity.
Qed.

End Handlers.

Lemma delete_file_guarded_witness :
  result (delete_file string_of_list_byte bool (fun b => b) "box"
            (scripted_daemon "/f" "x") "/f" "cleanup" 0%N [])
  = Fulfilled
      (text_result
         ("Successfully deleted file: /f" ++ nl ++ "Reason: cleanup")).
Proof.
  edestruct (proj2 (delete_file_guarded string_of_list_byte bool
                      (fun b => b) "box" (scripted_daemon "/f" "x")
                      "/f" "cleanup" 0%N [] eq_refl)) as [_ Hanswer].
  - reflexivity.
  - reflexivity.
  - reflexivity.
  - vm_compute. discriminate.
  - exact (Hanswer {| stdout := EmptyString; stderr := EmptyString;
                       exitCode := Some 0%Z |} eq_refl).
Defined.

(** The [grep] line for a context of 1.5 lines and a limit of 5. *)
Example grep_command_fraction :
  grep_command idle_runtime
    {| grep_pattern := "x"; grep_path := None; grep_type := None;
       case_insensitive := false; context_before := None;
       context_after := None; context := Some (3 # 2);
       head_limit := Some (inject_Z 5) |}
  = "grep -r -n -C 1.5 'x' '.' | head -5".
Proof. vm_compute. reflexivity. Qed.

End CommandsMore.

(** ** Counting and replacing occurrences *)
Module OccurrenceFacts.
Import JSString Tools JSStringFacts.
Local Open Scope string_scope.

Lemma length_append (a b : string) :
  String.length (a ++ b) = (String.length a + String.length b)%nat.
Proof. induction a as [|c a IH]; simpl; [reflexivity | now rewrite IH]. Qed.

Lemma prefix_length (p s : string) :
  String.prefix p s = true -> (String.length p <= String.length s)%nat.
Proof.
  intros H. apply prefix_split in H.
  assert (E : String.length s
              = String.length (p ++ drop (String.length p) s))
    by (rewrite <- H; reflexivity).
  rewrite length_append in E. lia.
Qed.

Lemma drop_empty (n : nat) : drop n EmptyString = EmptyString.
Proof. destruct n; reflexivity. Qed.

Lemma occurrences_from_skip (pat s : string) (skip : nat) :
  occurrences_from skip s pat = occurrences_from O (drop skip s) pat.
Proof.
  revert skip. induction s as [|c s IH]; intros skip.
  - rewrite drop_empty. reflexivity.
  - destruct skip as [|k]; [reflexivity|]. cbn [occurrences_from drop].
    apply IH.
Qed.

(** The count of [split] follows [indexOf]: an occurrence found leftmost,
    then the count of what follows it. *)
Lemma occurrences_indexOf (pat s : string) :
  pat <> EmptyString ->
  occurrences_from O s pat =
  match indexOf s pat with
  | None => O
  | Some pos => S (occurrences_from O (drop (pos + String.length pat) s) pat)
  end.
Proof.
  intros Hpat. destruct pat as [|a pat]; [contradiction|]. clear Hpat.
  induction s as [|c s IH]; [reflexivity|].
  cbn [occurrences_from indexOf].
  destruct (String.prefix (String a pat) (String c s)) eqn:E.
  - cbn [String.length Nat.add Nat.sub drop]. rewrite Nat.sub_0_r.
    f_equal. apply occurrences_from_skip.
  - rewrite IH. destruct (indexOf s (String a pat)) as [pos|]; reflexivity.
Qed.

Lemma single_occurrence (s pat : string) (pos : nat) :
  pat <> EmptyString -> indexOf s pat = Some pos ->
  (split_length s pat - 1 <= 1)%Z ->
  includes (drop (pos + String.length pat) s) pat = false.
Proof.
  intros Hpat Hpos Hcount.
  unfold split_length in Hcount. destruct pat as [|a pat]; [contradiction|].
  rewrite (occurrences_indexOf (String a pat) s Hpat), Hpos in Hcount.
  set (after := drop (pos + String.length (String a pat)) s) in *.
  rewrite (occurrences_indexOf (String a pat) after Hpat) in Hcount.
  unfold includes. destruct (indexOf after (String a pat)); [lia | reflexivity].
Qed.

Lemma replaceAll_from_length (pat repl : string) :
  pat <> EmptyString -> dollar_free repl ->
  forall (s seen : string) (skip : nat),
    (skip <= String.length s)%nat ->
    Z.of_nat (String.length (replaceAll_from pat repl skip seen s))
    = (Z.of_nat (String.length s) - Z.of_nat skip
       + Z.of_nat (occurrences_from skip s pat)
         * (Z.of_nat (String.length repl) - Z.of_nat (String.length pat)))%Z.
Proof.
  intros Hpat Hfree. destruct pat as [|a pat]; [contradiction|]. clear Hpat.
  induction s as [|c s IH]; intros seen skip Hskip.
  - simpl in *. lia.
  - destruct skip as [|k].
    + cbn [replaceAll_from occurrences_from].
      destruct (String.prefix (String a pat) (String c s)) eqn:E.
      * rewrite GetSubstitution_dollar_free by exact Hfree.
        apply prefix_length in E. cbn [String.length] in E.
        rewrite length_append, Nat2Z.inj_add, IH
          by (cbn [String.length]; lia).
        cbn [String.length]. lia.
      * cbn [String.length]. rewrite Nat2Z.inj_succ, IH by lia.
        cbn [String.length]. lia.
    + cbn [replaceAll_from occurrences_from]. cbn [String.length] in *.
      rewrite IH by lia. lia.
Qed.

Lemma take_length (n : nat) (s : string) :
  (String.length (take n s) <= n)%nat.
Proof.
  revert s. induction n as [|n IH]; intros [|c s]; simpl; try lia.
  specialize (IH s). lia.
Qed.

Lemma prefix_append (p s : string) : String.prefix p (p ++ s) = true.
Proof.
  induction p as [|c p IH]; cbn [String.append String.prefix].
  - destruct s; reflexivity.
  - destruct (Ascii.ascii_dec c c); [exact IH | contradiction].
Qed.

Lemma indexOf_append (x pat y : string) :
  exists pos, indexOf (x ++ pat ++ y) pat = Some pos
              /\ (pos <= String.length x)%nat.
Proof.
  induction x as [|c x (pos & Hpos & Hle)].
  - exists O. cbn [String.append String.length].
    destruct (pat ++ y) eqn:E; cbn [indexOf]; rewrite <- ?E;
      rewrite prefix_append; split; (reflexivity || lia).
  - cbn [String.append indexOf String.length].
    destruct (String.prefix pat (String c (x ++ pat ++ y))).
    + exists O. split; [reflexivity | lia].
    + exists (S pos). rewrite Hpos. split; [reflexivity | lia].
Qed.

Lemma drop_append (k : nat) (u v : string) :
  (k <= String.length u)%nat -> drop k (u ++ v) = drop k u ++ v.
Proof.
  revert u. induction k as [|k IH]; intros u Hk; [reflexivity|].
  destruct u as [|c u]; cbn [String.length] in Hk; [lia|].
  cbn [String.append drop]. apply IH. lia.
Qed.

(** Two occurrences that do not overlap are counted twice at least. *)
Lemma occurrences_twice (a b c pat : string) :
  pat <> EmptyString ->
  (2 <= occurrences_from O (a ++ pat ++ b ++ pat ++ c) pat)%nat.
Proof.
  intros Hpat. rewrite (occurrences_indexOf _ _ Hpat).
  destruct (indexOf_append a pat (b ++ pat ++ c)) as (pos & -> & Hle).
  replace (a ++ pat ++ b ++ pat ++ c) with ((a ++ pat) ++ b ++ pat ++ c)
    by apply DemuxFacts.append_assoc.
  rewrite drop_append by (rewrite length_append; lia).
  replace (drop (pos + String.length pat) (a ++ pat) ++ b ++ pat ++ c)
    with ((drop (pos + String.length pat) (a ++ pat) ++ b) ++ pat ++ c)
    by apply DemuxFacts.append_assoc.
  rewrite (occurrences_indexOf _ _ Hpat).
  destruct (indexOf_append (drop (pos + String.length pat) (a ++ pat) ++ b)
              pat c) as (pos' & -> & _).
  lia.
Qed.

End OccurrenceFacts.

(** ** What [search_replace] writes *)
Module EditMore.
Import JS JSString Docker Tools JSStringFacts ToolsFacts OccurrenceFacts.
Local Open Scope string_scope.
Local Open Scope async_scope.

Section Handlers.
Variable toString : Demux.Buffer -> string.
Variable ContainerInspectInfo : Type.
Variable Running : ContainerInspectInfo -> bool.
Variable TARGET_CONTAINER : string.


(** X8. With [replace_all], a non-empty [old_string] that occurs in the
    file and a replacement text without dollar sign, a successful
    [search_replace] reports a count [n >= 1] and the contents it writes
    differ in length from the contents read by exactly [n] times the
    difference of the lengths of [new_string] and [old_string]: the count
    reported is the number of replacements made. *)
Theorem search_replace_all_count (docker : Daemon ContainerInspectInfo)
  (file_path old_string new_string : string) (t : time) (log : list call)
  (checkResult catResult writeResult : ExecResult) :
  let run := run_in_target toString ContainerInspectInfo Running
               TARGET_CONTAINER docker in
  let check := run (existsCommand file_path) t log in
  let cat := run (catCommand file_path) (finished_at check) (calls check) in
  let content := stdout catResult in
  let newContent := replaceAll content old_string new_string in
  let write :=
    run (writeCommand file_path newContent) (finished_at cat) (calls cat) in
  let response :=
    search_replace toString ContainerInspectInfo Running TARGET_CONTAINER
      docker file_path old_string new_string true t log in
  old_string <> new_string ->
  old_string <> EmptyString ->
  dollar_free new_string ->
  result check = Fulfilled checkResult ->
  trim (stdout checkResult) = "exists" ->
  result cat = Fulfilled catResult ->
  failed catResult = false ->
  includes content old_string = true ->
  result write = Fulfilled writeResult ->
  failed writeResult = false ->
  exists n : Z,
    result response
    = Fulfilled
        (text_result
           ("Successfully replaced " ++ string_of_Z n
            ++ " occurrence(s) in " ++ file_path))
    /\ calls response = calls write
    /\ (1 <= n)%Z
    /\ Z.of_nat (String.length newContent)
       = (Z.of_nat (String.length content)
          + n * (Z.of_nat (String.length new_string)
                 - Z.of_nat (String.length old_string)))%Z.
Proof.
  intros run check cat content newContent write response
         Hne Hold Hfree Hcheck Hexists Hcat Hok Hfound Hwrite Hwok.
  destruct (search_replace_writes toString ContainerInspectInfo Running
              TARGET_CONTAINER docker file_path old_string new_string true
              t log checkResult catResult Hne Hcheck Hexists Hcat Hok Hfound
              (or_introl eq_refl)) as [Hcalls Hresult].
  exists (split_length content old_string - 1)%Z.
  split; [exact (Hresult writeResult Hwrite Hwok)|].
  split; [exact Hcalls|].
  assert (Hcount : (split_length content old_string - 1
                    = Z.of_nat (occurrences_from O content old_string))%Z).
  { unfold split_length. destruct old_string; [contradiction | lia]. }
  split.
  - rewrite Hcount, (occurrences_indexOf _ _ Hold).
    apply includes_indexOf in Hfound. destruct Hfound as [pos ->]. lia.
  - unfold newContent, replaceAll.
    rewrite (replaceAll_from_length _ _ Hold Hfree) by lia.
    rewrite Hcount. lia.
Qed.

(** X16. Without [replace_all], [search_replace] refuses an ambiguous
    edit: when the file read holds two occurrences of a non-empty
    [old_string] that do not overlap, the answer is the error text that says
    [old_string] is not unique, and no request follows the [cat]: nothing is
    written. *)
Theorem search_replace_ambiguous (docker : Daemon ContainerInspectInfo)
  (file_path old_string new_string : string) (t : time) (log : list call)
  (checkResult catResult : ExecResult) (a b c : string) :
  let run := run_in_target toString ContainerInspectInfo Running
               TARGET_CONTAINER docker in
  let check := run (existsCommand file_path) t log in
  let cat := run (catCommand file_path) (finished_at check) (calls check) in
  let response :=
    search_replace toString ContainerInspectInfo Running TARGET_CONTAINER
      docker file_path old_string new_string false t log in
  old_string <> new_string ->
  old_string <> EmptyString ->
  result check = Fulfilled checkResult ->
  trim (stdout checkResult) = "exists" ->
  result cat = Fulfilled catResult ->
  failed catResult = false ->
  stdout catResult = a ++ old_string ++ b ++ old_string ++ c ->
  result response
  = Fulfilled
      (text_result
         ("Error: old_string " ++ dq ++ old_string ++ dq
          ++ " is not unique in the file. Use replace_all=true or provide more context to make it unique."))
  /\ calls response = calls cat.
Proof.
  intros run check cat response Hne Hold Hcheck Hexists Hcat Hok Hcontent.
  assert (Hmany : (split_length (stdout catResult) old_string - 1 >? 1)%Z
                  = true).
  { rewrite Hcontent. pose proof (occurrences_twice a b c old_string Hold).
    unfold split_length. destruct old_string; [contradiction|].
    apply Z.gtb_lt. lia. }
  apply String.eqb_neq in Hne.
  unfold response, search_replace. split.
  - unfold try_catch, bind. rewrite Hne. fold run. fold check.
    rewrite Hcheck, Hexists, String.eqb_refl. cbn [negb]. fold cat.
    rewrite Hcat, Hok. cbv zeta. rewrite Hmany. reflexivity.
  - rewrite calls_try_catch_ret, Hne, calls_bind. fold run. fold check.
    rewrite Hcheck, Hexists, String.eqb_refl. cbn [negb].
    rewrite calls_bind. fold cat. rewrite Hcat, Hok. cbv zeta.
    rewrite Hmany. reflexivity.
Qed.

End Handlers.


Lemma search_replace_all_count_witness :
  exists n : Z,
    result (search_replace string_of_list_byte bool (fun b => b) "box"
              (scripted_daemon "/f" "xax") "/f" "x" "yy" true 0%N [])
    = Fulfilled
        (text_result
           ("Successfully replaced " ++ string_of_Z n
            ++ " occurrence(s) in /f"))
    /\ (1 <= n)%Z
    /\ Z.of_nat (String.length (replaceAll "xax" "x" "yy"))
       = (Z.of_nat (String.length "xax") + n * (2 - 1))%Z.
Proof.
  edestruct (search_replace_all_count string_of_list_byte bool (fun b => b)
               "box" (scripted_daemon "/f" "xax") "/f" "x" "yy" 0%N [])
    as (n & Hresult & _ & Hn & Hlength).
  - discriminate.
  - discriminate.
  - vm_compute. reflexivity.
  - vm_compute. reflexivity.
  - vm_compute. reflexivity.
  - vm_compute. reflexivity.
  - vm_compute. reflexivity.
  - vm_compute. reflexivity.
  - vm_compute. reflexivity.
  - vm_compute. reflexivity.
  - exists n. split; [exact Hresult|]. split; [exact Hn | exact Hlength].
Defined.

Lemma search_replace_ambiguous_witness :
  let run := run_in_target string_of_list_byte bool (fun b => b) "box"
               (scripted_daemon "/f" "xax") in
  let check := run (existsCommand "/f") 0%N [] in
  let cat := run (catCommand "/f") (finished_at check) (calls check) in
  let response :=
    search_replace string_of_list_byte bool (fun b => b) "box"
      (scripted_daemon "/f" "xax") "/f" "x" "y" false 0%N [] in
  result response
  = Fulfilled
      (text_result
         ("Error: old_string " ++ dq ++ "x" ++ dq
          ++ " is not unique in the file. Use replace_all=true or provide more context to make it unique."))
  /\ calls response = calls cat.
Proof.
  apply (search_replace_ambiguous string_of_list_byte bool (fun b => b)
           "box" (scripted_daemon "/f" "xax") "/f" "x" "y" 0%N []
           {| stdout := "exists" ++ nl; stderr := EmptyString;
              exitCode := Some 0 |}
           {| stdout := "xax"; stderr := EmptyString; exitCode := Some 0 |}
           EmptyString "a" EmptyString).
  - discriminate.
  - discriminate.
  - vm_compute. reflexivity.
  - reflexivity.
  - vm_compute. reflexivity.
  - reflexivity.
  - reflexivity.
Defined.

End EditMore.

(** ** The lines [read_file] shows *)
Module ReadMore.
Import JS JSString Docker Tools ToolsFacts Commands.
Local Open Scope string_scope.
Local Open Scope async_scope.

Lemma in_combine_seq {A : Type} (l : list A) (start i : nat) (x : A) :
  In (i, x) (combine (seq start (List.length l)) l) ->
  (start <= i)%nat /\ nth_error l (i - start) = Some x.
Proof.
  revert start. induction l as [|y l IH]; intros start H; [contradiction|].
  cbn [List.length seq combine] in H. destruct H as [H | H].
  - inversion H; subst. rewrite Nat.sub_diag. split; [lia | reflexivity].
  - apply IH in H. destruct H as [Hle Hnth]. split; [lia|].
    replace (i - start)%nat with (S (i - S start)) by lia. exact Hnth.
Qed.

Lemma fst_combine_seq {A : Type} (l : list A) (start : nat) :
  map fst (combine (seq start (List.length l)) l)
  = seq start (List.length l).
Proof.
  revert start. induction l as [|y l IH]; intros start; [reflexivity|].
  cbn [List.length seq combine map fst]. now rewrite IH.
Qed.

Lemma in_slice_list {A : Type} (xs : list A) (from to : Z) (i : nat) (x : A) :
  0 <= from ->
  nth_error (slice_list xs from to) i = Some x ->
  nth_error xs (Z.to_nat from + i) = Some x.
Proof.
  intros Hfrom. unfold slice_list, Demux.clamp_index.
  destruct (Z.ltb_spec from 0) as [Hneg | _]; [lia|].
  rewrite nth_error_firstn, nth_error_skipn.
  destruct (Nat.ltb i _); [|discriminate].
  intros H.
  destruct (Z.le_gt_cases from (Z.of_nat (List.length xs))) as [Hin | Hout].
  - rewrite Z.min_l in H by lia. exact H.
  - rewrite Z.min_r in H by lia. rewrite Nat2Z.id in H.
    assert (Hnone : nth_error xs (List.length xs + i) = None)
      by (apply nth_error_None; lia).
    congruence.
Qed.

Lemma length_slice_list {A : Type} (xs : list A) (from to : Z) :
  0 <= from -> 0 <= to ->
  Z.of_nat (List.length (slice_list xs from to)) <= Z.max 0 (to - from).
Proof.
  intros Hfrom Hto. unfold slice_list, Demux.clamp_index.
  destruct (Z.ltb_spec from 0) as [Hneg | _]; [lia|].
  destruct (Z.ltb_spec to 0) as [Hneg | _]; [lia|].
  rewrite List.length_firstn, List.length_skipn. lia.
Qed.

Lemma selected_lines_numbered (content : string) (offset limit : option Z) :
  let lines := split_on "010" content in
  let first := match offset with Some o => Z.max 1 o | None => 1 end in
  let shown := selected_lines content offset limit in
  (forall n line,
      In (n, line) shown ->
      nth_error lines (Z.to_nat (n - 1)) = Some line)
  /\ map fst shown
     = map (fun i => first + Z.of_nat i) (seq 0 (List.length shown))
  /\ (forall l, limit = Some l -> 0 <= l -> Z.of_nat (List.length shown) <= l).
Proof.
  intros lines first shown. subst shown first. unfold selected_lines.
  fold lines.
  set (startLine := match offset with Some o => Z.max 1 o | None => 1 end).
  set (endLine := match limit with
                  | Some l => Z.min (Z.of_nat (List.length lines))
                                    (startLine + l - 1)
                  | None => Z.of_nat (List.length lines)
                  end).
  assert (Hstart : 1 <= startLine) by (unfold startLine; destruct offset; lia).
  split; [|split].
  - intros n line Hin. apply in_map_iff in Hin.
    destruct Hin as ([i x] & Heq & Hin). cbn [fst snd] in Heq.
    inversion Heq; subst. apply in_combine_seq in Hin.
    destruct Hin as [_ Hnth]. rewrite Nat.sub_0_r in Hnth.
    apply in_slice_list in Hnth; [|lia].
    replace (Z.to_nat (startLine + Z.of_nat i - 1))
      with (Z.to_nat (startLine - 1) + i)%nat by lia.
    exact Hnth.
  - rewrite List.length_map, length_combine, length_seq, Nat.min_id.
    rewrite map_map. cbn [fst].
    rewrite <- (fst_combine_seq (slice_list lines (startLine - 1) endLine) 0)
      at 2.
    rewrite map_map. reflexivity.
  - intros l -> Hl. rewrite List.length_map, length_combine, length_seq.
    rewrite Nat.min_id.
    assert (Hend : 0 <= endLine) by (unfold endLine; lia).
    pose proof (length_slice_list lines (startLine - 1) endLine
                  ltac:(lia) Hend).
    unfold endLine in *. lia.
Qed.

(** *** Numbers that are integers *)

Lemma inject_Z_plus_eq (a b : Z) :
  (inject_Z a + inject_Z b)%Q = inject_Z (a + b).
Proof.
  unfold Qplus, inject_Z. cbn [Qnum Qden Pos.mul]. f_equal. ring.
Qed.

Lemma inject_Z_pred_eq (a : Z) : (inject_Z a - 1)%Q = inject_Z (a - 1).
Proof.
  unfold Qminus, Qplus, Qopp, inject_Z. cbn [Qnum Qden Pos.mul].
  f_equal. ring.
Qed.

Lemma truncate_inject_Z (a : Z) : truncate (inject_Z a) = a.
Proof. unfold truncate, inject_Z. cbn [Qnum Qden]. apply Z.quot_1_r. Qed.

Lemma Math_max_inject_Z (a b : Z) :
  Math_max (inject_Z a) (inject_Z b) = inject_Z (Z.max a b).
Proof.
  unfold Math_max, Qle_bool, inject_Z. cbn [Qnum Qden].
  rewrite !Z.mul_1_r. destruct (Z.leb_spec a b).
  - now rewrite Z.max_r.
  - now rewrite Z.max_l by lia.
Qed.

Lemma Math_min_inject_Z (a b : Z) :
  Math_min (inject_Z a) (inject_Z b) = inject_Z (Z.min a b).
Proof.
  unfold Math_min, Qle_bool, inject_Z. cbn [Qnum Qden].
  rewrite !Z.mul_1_r. destruct (Z.leb_spec a b).
  - now rewrite Z.min_l.
  - now rewrite Z.min_r by lia.
Qed.

(** An integer below 10^21 is written with its decimal digits. *)
Lemma show_number_integer (rt : Runtime) (n : Z) :
  Z.abs n < 10 ^ 21 -> show_number rt (inject_Z n) = string_of_Z n.
Proof.
  intros Hn. unfold show_number.
  assert (E : Qred (inject_Z n) = inject_Z n).
  { apply Qcanon.Qred_identity. cbn [inject_Z Qnum Qden]. apply Z.gcd_1_r. }
  rewrite E. cbn [inject_Z Qden Qnum].
  apply Z.ltb_lt in Hn. now rewrite Hn.
Qed.

Section Handlers.
Variable toString : Demux.Buffer -> string.
Variable ContainerInspectInfo : Type.
Variable Running : ContainerInspectInfo -> bool.
Variable rt : Runtime.
Variable TARGET_CONTAINER : string.

(** X9. For an [offset] and a [limit] that are integers (or absent): when
    the file exists, [cat] succeeds and its output is not empty, [read_file]
    answers with the shown lines joined by newlines, each as its number
    padded to six columns, a bar, and the text, the number written in
    decimal digits (as every integer below 10^21 is); every shown line is
    the line of the file ([split] at newlines, counted from 1) that its
    number names; the numbers are consecutive and start at [max 1 offset]
    (at 1 without [offset]); with a [limit] that is not negative at most
    [limit] lines are shown. *)
Theorem read_file_numbering (docker : Daemon ContainerInspectInfo)
  (target_file : string) (offset limit : option Z) (t : time)
  (log : list call) (checkResult catResult : ExecResult) :
  let run := run_in_target toString ContainerInspectInfo Running
               TARGET_CONTAINER docker in
  let check := run (existsCommand target_file) t log in
  let cat := run (catCommand target_file) (finished_at check) (calls check) in
  let lines := split_on "010" (stdout catResult) in
  let first := match offset with Some o => Z.max 1 o | None => 1 end in
  result check = Fulfilled checkResult ->
  trim (stdout checkResult) = "exists" ->
  result cat = Fulfilled catResult ->
  failed catResult = false ->
  stdout catResult <> EmptyString ->
  exists shown : list (Z * string),
    result (read_file toString ContainerInspectInfo Running rt
              TARGET_CONTAINER docker target_file
              (option_map inject_Z offset) (option_map inject_Z limit) t log)
    = Fulfilled (text_result (join nl (map (numbered_line rt) shown)))
    /\ (forall n line,
           In (n, line) shown ->
           nth_error lines (Z.to_nat (n - 1)) = Some line)
    /\ map fst shown
       = map (fun i => first + Z.of_nat i) (seq 0 (List.length shown))
    /\ (forall l, limit = Some l -> 0 <= l ->
                  Z.of_nat (List.length shown) <= l)
    /\ (forall n line,
           In (n, line) shown -> n < 10 ^ 21 ->
           numbered_line rt (n, line)
           = padStart 6 (string_of_Z n) ++ "|" ++ line).
Proof.
  intros run check cat lines first Hcheck Hexists Hcat Hok Hcontent.
  exists (selected_lines (stdout catResult) offset limit).
  destruct (selected_lines_numbered (stdout catResult) offset limit)
    as (Hlines & Hnumbers & Hlimit).
  split; [|split; [exact Hlines|split; [exact Hnumbers|split;
                                         [exact Hlimit|]]]].
  - unfold read_file, try_catch, bind.
    fold run. fold check. rewrite Hcheck, Hexists, String.eqb_refl.
    cbn [negb]. fold cat. rewrite Hcat, Hok.
    destruct (stdout catResult) as [|c content] eqn:E; [contradiction|].
    cbn [nonempty negb]. cbv zeta. unfold ret. cbn [result].
    do 3 f_equal. fold lines. unfold selected_lines. fold lines. fold first.
    assert (Hstart :
      match option_map inject_Z offset with
      | Some o => Math_max 1 o
      | None => 1%Q
      end = inject_Z first).
    { unfold first. destruct offset as [o|]; [|reflexivity].
      apply (Math_max_inject_Z 1 o). }
    rewrite Hstart.
    assert (Hend :
      match option_map inject_Z limit with
      | Some l =>
          Math_min (inject_Z (Z.of_nat (List.length lines)))
            (inject_Z first + l - 1)%Q
      | None => inject_Z (Z.of_nat (List.length lines))
      end
      = inject_Z match limit with
                 | Some l => Z.min (Z.of_nat (List.length lines))
                                   (first + l - 1)
                 | None => Z.of_nat (List.length lines)
                 end).
    { destruct limit as [l|]; [|reflexivity]. cbn [option_map].
      rewrite inject_Z_plus_eq, inject_Z_pred_eq. apply Math_min_inject_Z. }
    rewrite Hend, inject_Z_pred_eq, !truncate_inject_Z.
    rewrite map_map. apply map_ext. intros [i line]. cbn [fst snd].
    unfold numbered_line. cbn [fst snd]. now rewrite inject_Z_plus_eq.
  - intros n line Hin Hn. unfold numbered_line. cbn [fst snd].
    rewrite show_number_integer; [reflexivity|].
    assert (Hfirst : 1 <= first) by (unfold first; destruct offset; lia).
    assert (Hmem : In n (map fst (selected_lines (stdout catResult)
                                    offset limit)))
      by (apply in_map_iff; exists (n, line); split; [reflexivity | exact Hin]).
    rewrite Hnumbers in Hmem. apply in_map_iff in Hmem.
    destruct Hmem as (i & <- & _). fold first in Hn |- *. lia.
Qed.

End Handlers.

Lemma read_file_numbering_witness :
  exists shown : list (Z * string),
    result (read_file string_of_list_byte bool (fun b => b) idle_runtime
              "box" (scripted_daemon "/f" ("a" ++ nl ++ "b" ++ nl ++ "c"))
              "/f" (Some (inject_Z 2)) (Some (inject_Z 1)) 0%N [])
    = Fulfilled
        (text_result (join nl (map (numbered_line idle_runtime) shown)))
    /\ (forall n line,
           In (n, line) shown ->
           nth_error ["a"; "b"; "c"] (Z.to_nat (n - 1)) = Some line)
    /\ map fst shown
       = map (fun i => 2 + Z.of_nat i) (seq 0 (List.length shown))
    /\ (forall l, Some 1 = Some l -> 0 <= l ->
                  Z.of_nat (List.length shown) <= l)
    /\ (forall n line,
           In (n, line) shown -> n < 10 ^ 21 ->
           numbered_line idle_runtime (n, line)
           = padStart 6 (string_of_Z n) ++ "|" ++ line).
Proof.
  apply (read_file_numbering string_of_list_byte bool (fun b => b)
           idle_runtime "box"
           (scripted_daemon "/f" ("a" ++ nl ++ "b" ++ nl ++ "c"))
           "/f" (Some 2) (Some 1) 0%N []
           {| stdout := "exists" ++ nl; stderr := EmptyString;
              exitCode := Some 0 |}
           {| stdout := "a" ++ nl ++ "b" ++ nl ++ "c"; stderr := EmptyString;
              exitCode := Some 0 |}).
  - vm_compute. reflexivity.
  - vm_compute. reflexivity.
  - vm_compute. reflexivity.
  - reflexivity.
  - vm_compute. discriminate.
Defined.

(** With an [offset] of 1.5 the first line is shown, numbered 1.5. *)
Example read_file_fractional_offset :
  result (read_file string_of_list_byte bool (fun b => b) idle_runtime
            "box" (scripted_daemon "/f" "a") "/f" (Some (3 # 2)) None 0%N [])
  = Fulfilled (text_result "   1.5|a").
Proof. vm_compute. reflexivity. Qed.

End ReadMore.

(** ** The search for the compose file *)
Module ComposeMore.
Import JS JSString Docker Tools ToolsFacts Commands.
Local Open Scope string_scope.
Local Open Scope async_scope.

Lemma trimEnd_keeps (p r : string) (c : ascii) :
  white c = false ->
  String.prefix (p ++ String c EmptyString)
    (trimEnd ((p ++ String c EmptyString) ++ r)) = true.
Proof.
  intros Hc. induction p as [|d p IH].
  - cbn [String.append trimEnd]. rewrite Hc.
    destruct (trimEnd r); cbn [String.prefix];
      destruct (Ascii.ascii_dec c c); try contradiction; reflexivity.
  - cbn [String.append trimEnd].
    destruct (trimEnd ((p ++ String c EmptyString) ++ r)) as [|k kept] eqn:E.
    + destruct p; discriminate IH.
    + cbn [String.prefix]. destruct (Ascii.ascii_dec d d); [|contradiction].
      exact IH.
Qed.

Section Runtime.
Variable rt : Runtime.

Lemma read_attempt (testPath : string) (t : time) (log : list call) :
  (content <- await (ReadFile (resolvedPath rt testPath))
                (fun log' => readFile rt log' (resolvedPath rt testPath)) ;;
   ret (testPath, content)) t log
  = {| result :=
         match answer (readFile rt log (resolvedPath rt testPath)) with
         | Settled (Return content) => Fulfilled (testPath, content)
         | Settled (Throw e) => Rejected e
         | Pending => Stuck
         end;
       finished_at :=
         (t + latency (readFile rt log (resolvedPath rt testPath)))%N;
       calls := (log ++ [ReadFile (resolvedPath rt testPath)])%list |}.
Proof.
  unfold bind, await, ret. cbv beta zeta. cbn [result finished_at calls].
  destruct (answer (readFile rt log (resolvedPath rt testPath)))
    as [[content|e]|]; reflexivity.
Qed.

Lemma first_readable_cons (testPath : string) (rest : list string)
  (t : time) (log : list call) :
  first_readable rt (testPath :: rest) t log
  = match answer (readFile rt log (resolvedPath rt testPath)) with
    | Settled (Return content) =>
        {| result := Fulfilled (testPath, content);
           finished_at :=
             (t + latency (readFile rt log (resolvedPath rt testPath)))%N;
           calls := (log ++ [ReadFile (resolvedPath rt testPath)])%list |}
    | Settled (Throw _) =>
        first_readable rt rest
          (t + latency (readFile rt log (resolvedPath rt testPath)))%N
          (log ++ [ReadFile (resolvedPath rt testPath)])%list
    | Pending =>
        {| result := Stuck;
           finished_at :=
             (t + latency (readFile rt log (resolvedPath rt testPath)))%N;
           calls := (log ++ [ReadFile (resolvedPath rt testPath)])%list |}
    end.
Proof.
  cbn [first_readable]. unfold try_catch.
  fold (resolvedPath rt testPath). rewrite read_attempt.
  cbn [result finished_at calls].
  destruct (answer (readFile rt log (resolvedPath rt testPath)))
    as [[content|e]|]; reflexivity.
Qed.

(** The loop stops at the first candidate that can be read. *)
Lemma first_readable_order (before : list string) (p : string)
  (after : list string) (content : string) (t : time) (log : list call) :
  (forall q log', In q before ->
                  exists e, answer (readFile rt log' (resolvedPath rt q))
                            = Throw e) ->
  (forall log', answer (readFile rt log' (resolvedPath rt p))
                = Return content) ->
  let found := first_readable rt (before ++ p :: after) t log in
  result found = Fulfilled (p, content)
  /\ calls found
     = (log ++ map (fun q => ReadFile (resolvedPath rt q)) (before ++ [p]))%list.
Proof.
  intros Hbefore Hp. revert t log.
  induction before as [|q before IH]; intros t log; cbv zeta.
  - cbn [app map]. rewrite first_readable_cons, Hp. split; reflexivity.
  - cbn [app map]. rewrite first_readable_cons.
    destruct (Hbefore q log (or_introl eq_refl)) as [e ->].
    destruct (IH (fun q' log' H => Hbefore q' log' (or_intror H))
                 (t + latency (readFile rt log (resolvedPath rt q)))%N
                 (log ++ [ReadFile (resolvedPath rt q)])%list)
      as [Hres Hcalls].
    cbv zeta in Hres, Hcalls. rewrite Hres, Hcalls, <- app_assoc.
    split; reflexivity.
Qed.

(** Without a readable candidate the loop tries them all. *)
Lemma first_readable_none (paths : list string) (t : time) (log : list call) :
  (forall q log', In q paths ->
                  exists e, answer (readFile rt log' (resolvedPath rt q))
                            = Throw e) ->
  result (first_readable rt paths t log) = Fulfilled (EmptyString, EmptyString)
  /\ calls (first_readable rt paths t log)
     = (log ++ map (fun q => ReadFile (resolvedPath rt q)) paths)%list.
Proof.
  revert t log. induction paths as [|q paths IH]; intros t log Hall.
  - cbn. rewrite app_nil_r. split; reflexivity.
  - rewrite first_readable_cons.
    destruct (Hall q log (or_introl eq_refl)) as [e ->].
    destruct (IH (t + latency (readFile rt log (resolvedPath rt q)))%N
                 (log ++ [ReadFile (resolvedPath rt q)])%list
                 (fun q' log' H => Hall q' log' (or_intror H)))
      as [Hres Hcalls].
    rewrite Hres, Hcalls, <- app_assoc. split; reflexivity.
Qed.

Lemma not_found_prefix (rest : string) :
  String.prefix "Docker Compose file not found on host filesystem."
    (trim (nl ++ "Docker Compose file not found on host filesystem." ++ rest))
  = true.
Proof.
  unfold trim. cbn [String.append nl trimStart].
  replace (white "010") with true by reflexivity.
  replace (white "D") with false by reflexivity.
  apply (trimEnd_keeps "Docker Compose file not found on host filesystem"
           rest ".").
  reflexivity.
Qed.

Variable ContainerInspectInfo : Type.

(** X10. [get_compose_file] tries the candidates in the order given path,
    [docker/compose.yaml], [docker/compose.yml], [docker-compose.yaml],
    [docker-compose.yml], [compose.yaml], [compose.yml], each resolved
    against the working directory unless absolute, and stops at the first
    one that can be read: it reads exactly the candidates up to that one, and
    when the contents are not empty it answers with the trimmed
    configuration text that names the candidate, shows its contents and its
    resolved location. *)
Theorem get_compose_file_first_readable (compose_file : string)
  (context : ToolContext ContainerInspectInfo)
  (before : list string) (p : string) (after : list string)
  (content : string) (t : time) (log : list call) :
  possiblePaths compose_file = (before ++ p :: after)%list ->
  (forall q log', In q before ->
                  exists e, answer (readFile rt log' (resolvedPath rt q))
                            = Throw e) ->
  (forall log', answer (readFile rt log' (resolvedPath rt p))
                = Return content) ->
  content <> EmptyString ->
  let response :=
    get_compose_file_handler ContainerInspectInfo rt compose_file context
      t log in
  calls response
  = (log ++ map (fun q => ReadFile (resolvedPath rt q)) (before ++ [p]))%list
  /\ result response
     = Fulfilled
         (text_result
            (trim
               (nl ++ "Docker Compose Configuration (" ++ p ++ "):" ++ nl
                ++ repeat "=" 60 ++ nl ++ nl
                ++ content ++ nl ++ nl
                ++ repeat "=" 60 ++ nl
                ++ "File Location: " ++ path_resolve rt (cwd rt) p
                ++ nl ++ "    "))).
Proof.
  intros Hpaths Hbefore Hp Hcontent.
  destruct (first_readable_order before p after content t log Hbefore Hp)
    as [Hres Hcalls].
  cbv zeta in Hres, Hcalls. rewrite <- Hpaths in Hres, Hcalls.
  unfold possiblePaths in Hres, Hcalls. cbv zeta.
  unfold get_compose_file_handler, try_catch, bind. cbv zeta.
  rewrite Hres. cbn [fst snd].
  destruct content as [|c content]; [contradiction|].
  cbn [nonempty negb]. unfold ret. cbn [result finished_at calls].
  rewrite Hcalls. split; reflexivity.
Qed.

(** X11. A candidate that can be read but is empty ends the search of
    [get_compose_file] all the same: no later candidate is read, and the
    answer is the text that starts with "Docker Compose file not found on
    host filesystem." *)
Theorem get_compose_file_empty_file (compose_file : string)
  (context : ToolContext ContainerInspectInfo)
  (before : list string) (p : string) (after : list string)
  (t : time) (log : list call) :
  possiblePaths compose_file = (before ++ p :: after)%list ->
  (forall q log', In q before ->
                  exists e, answer (readFile rt log' (resolvedPath rt q))
                            = Throw e) ->
  (forall log', answer (readFile rt log' (resolvedPath rt p))
                = Return EmptyString) ->
  let response :=
    get_compose_file_handler ContainerInspectInfo rt compose_file context
      t log in
  calls response
  = (log ++ map (fun q => ReadFile (resolvedPath rt q)) (before ++ [p]))%list
  /\ exists text,
      result response = Fulfilled (text_result text)
      /\ String.prefix "Docker Compose file not found on host filesystem."
           text = true.
Proof.
  intros Hpaths Hbefore Hp.
  destruct (first_readable_order before p after EmptyString t log Hbefore Hp)
    as [Hres Hcalls].
  cbv zeta in Hres, Hcalls. rewrite <- Hpaths in Hres, Hcalls.
  unfold possiblePaths in Hres, Hcalls. cbv zeta.
  unfold get_compose_file_handler, try_catch, bind. cbv zeta.
  rewrite Hres. cbn [fst snd nonempty negb].
  unfold ret. cbn [result finished_at calls].
  rewrite Hcalls. split; [reflexivity|]. eexists. split; [reflexivity|].
  apply not_found_prefix.
Qed.

(** X12. When none of the seven candidates can be read, [get_compose_file]
    has tried to read each of them once, in order, and answers with the text
    that starts with "Docker Compose file not found on host filesystem.":
    a failed read is never reported as an error of the tool. *)
Theorem get_compose_file_none_readable (compose_file : string)
  (context : ToolContext ContainerInspectInfo) (t : time) (log : list call) :
  (forall q log', In q (possiblePaths compose_file) ->
                  exists e, answer (readFile rt log' (resolvedPath rt q))
                            = Throw e) ->
  let response :=
    get_compose_file_handler ContainerInspectInfo rt compose_file context
      t log in
  calls response
  = (log ++ map (fun q => ReadFile (resolvedPath rt q))
                (possiblePaths compose_file))%list
  /\ exists text,
      result response = Fulfilled (text_result text)
      /\ String.prefix "Docker Compose file not found on host filesystem."
           text = true.
Proof.
  intros Hall.
  destruct (first_readable_none (possiblePaths compose_file) t log Hall)
    as [Hres Hcalls].
  unfold possiblePaths in Hres, Hcalls. cbv zeta.
  unfold get_compose_file_handler, try_catch, bind. cbv zeta.
  rewrite Hres. cbn [fst snd nonempty negb].
  unfold ret. cbn [result finished_at calls].
  rewrite Hcalls. split; [reflexivity|]. eexists. split; [reflexivity|].
  apply not_found_prefix.
Qed.

End Runtime.

Lemma get_compose_file_first_readable_witness :
  let response :=
    get_compose_file_handler bool
      (host_with_file "/srv/docker/compose.yml" "services: {}")
      "stack.yml" {| docker := stopped_daemon |} 0%N [] in
  calls response
  = [ ReadFile "/srv/stack.yml"; ReadFile "/srv/docker/compose.yaml";
      ReadFile "/srv/docker/compose.yml" ]
  /\ result response
     = Fulfilled
         (text_result
            (trim
               (nl ++ "Docker Compose Configuration (docker/compose.yml):"
                ++ nl ++ repeat "=" 60 ++ nl ++ nl
                ++ "services: {}" ++ nl ++ nl
                ++ repeat "=" 60 ++ nl
                ++ "File Location: /srv/docker/compose.yml"
                ++ nl ++ "    "))).
Proof.
  apply (get_compose_file_first_readable
           (host_with_file "/srv/docker/compose.yml" "services: {}") bool
           "stack.yml" {| docker := stopped_daemon |}
           ["stack.yml"; "docker/compose.yaml"] "docker/compose.yml"
           ["docker-compose.yaml"; "docker-compose.yml";
            "compose.yaml"; "compose.yml"]
           "services: {}" 0%N []).
  - reflexivity.
  - intros q log' [<- | [<- | []]]; eexists; reflexivity.
  - reflexivity.
  - discriminate.
Defined.

Lemma get_compose_file_empty_file_witness :
  let response :=
    get_compose_file_handler bool
      (host_with_file "/srv/stack.yml" EmptyString)
      "stack.yml" {| docker := stopped_daemon |} 0%N [] in
  calls response = [ReadFile "/srv/stack.yml"]
  /\ exists text,
      result response = Fulfilled (text_result text)
      /\ String.prefix "Docker Compose file not found on host filesystem."
           text = true.
Proof.
  apply (get_compose_file_empty_file
           (host_with_file "/srv/stack.yml" EmptyString) bool
           "stack.yml" {| docker := stopped_daemon |}
           [] "stack.yml"
           ["docker/compose.yaml"; "docker/compose.yml";
            "docker-compose.yaml"; "docker-compose.yml";
            "compose.yaml"; "compose.yml"]
           0%N []).
  - reflexivity.
  - intros q log' [].
  - reflexivity.
Defined.

Lemma get_compose_file_none_readable_witness :
  let response :=
    get_compose_file_handler bool idle_runtime "stack.yml"
      {| docker := stopped_daemon |} 0%N [] in
  calls response
  = map (fun q => ReadFile (resolvedPath idle_runtime q))
        (possiblePaths "stack.yml")
  /\ exists text,
      result response = Fulfilled (text_result text)
      /\ String.prefix "Docker Compose file not found on host filesystem."
           text = true.
Proof.
  apply (get_compose_file_none_readable idle_runtime bool "stack.yml"
           {| docker := stopped_daemon |} 0%N []).
  intros q log' _. eexists. reflexivity.
Defined.

End ComposeMore.

(** ** Writing a file *)
Module WriteMore.
Import JS JSString Docker Tools ToolsFacts Commands.
Local Open Scope string_scope.
Local Open Scope async_scope.

Lemma split_on_cons (sep : ascii) (s : string) :
  exists line lines, split_on sep s = line :: lines.
Proof.
  induction s as [|c s IH]; cbn [split_on]; [eauto|].
  destruct (Ascii.eqb c sep); [eauto|].
  destruct IH as (line & lines & ->). eauto.
Qed.

Lemma split_on_app (sep : ascii) (a b : string) :
  split_on sep (a ++ String sep b) = (split_on sep a ++ split_on sep b)%list.
Proof.
  induction a as [|c a IH]; cbn [String.append split_on].
  - rewrite Ascii.eqb_refl. reflexivity.
  - destruct (Ascii.eqb c sep); [now rewrite IH|].
    rewrite IH. destruct (split_on_cons sep a) as (line & lines & ->).
    reflexivity.
Qed.

Lemma here_document_app (delimiter : string) (body rest : list string) :
  ~ In delimiter body ->
  here_document delimiter (body ++ delimiter :: rest) = (body, Some rest).
Proof.
  induction body as [|line body IH]; intros Hnot; cbn [app here_document].
  - now rewrite String.eqb_refl.
  - destruct (String.eqb_spec line delimiter) as [-> | _].
    + exfalso. apply Hnot. now left.
    + rewrite IH; [reflexivity|]. intros H. apply Hnot. now right.
Qed.

Lemma writeCommand_script (file_path contents : string) :
  writeCommand file_path contents
  = ("cat > " ++ Shell.escapeShellArg file_path ++ " << 'EOF_MARKER_UNIQUE'")
    ++ String "010" (contents ++ String "010" EOF_MARKER).
Proof.
  unfold writeCommand, nl, EOF_MARKER.
  repeat rewrite DemuxFacts.append_assoc. reflexivity.
Qed.

(** X13. The command [write_file] and [search_replace] write with is the
    line [cat > path << 'EOF_MARKER_UNIQUE'] with the path escaped, followed
    by a script that a shell reads as a here-document: when no line of the
    contents is the delimiter, the body of the here-document is the contents
    line for line, and nothing is left over to be run as a command. *)
Theorem writeCommand_here_document (file_path contents : string) :
  ~ In EOF_MARKER (split_on "010" contents) ->
  exists script,
    writeCommand file_path contents
    = ("cat > " ++ Shell.escapeShellArg file_path
       ++ " << 'EOF_MARKER_UNIQUE'") ++ nl ++ script
    /\ here_document EOF_MARKER (split_on "010" script)
       = (split_on "010" contents, Some []).
Proof.
  intros Hnot. exists (contents ++ String "010" EOF_MARKER).
  split; [apply writeCommand_script|].
  rewrite split_on_app. apply here_document_app, Hnot.
Qed.

Lemma first_occurrence (x : string) (l : list string) :
  In x l -> exists before after, l = (before ++ x :: after)%list
                                 /\ ~ In x before.
Proof.
  induction l as [|y l IH]; intros Hin; [contradiction|].
  destruct (String.eqb_spec y x) as [-> | Hne].
  - exists [], l. split; [reflexivity | intros []].
  - destruct Hin as [Heq | Hin]; [contradiction|].
    destruct (IH Hin) as (before & after & -> & Hnot).
    exists (y :: before), after. split; [reflexivity|].
    intros [Heq | H]; [contradiction | exact (Hnot H)].
Qed.

(** X14. When a line of the contents is [EOF_MARKER_UNIQUE], wherever it
    stands (the first line and the last included), the here-document of the
    write command ends at the first such line: only the lines before it are
    written, and the lines after it, followed by the closing delimiter, are
    left to the shell as commands. *)
Theorem writeCommand_here_document_cut (file_path contents : string) :
  In EOF_MARKER (split_on "010" contents) ->
  exists script kept dropped,
    writeCommand file_path contents
    = ("cat > " ++ Shell.escapeShellArg file_path
       ++ " << 'EOF_MARKER_UNIQUE'") ++ nl ++ script
    /\ split_on "010" contents = (kept ++ EOF_MARKER :: dropped)%list
    /\ ~ In EOF_MARKER kept
    /\ here_document EOF_MARKER (split_on "010" script)
       = (kept, Some (dropped ++ [EOF_MARKER])%list).
Proof.
  intros Hin.
  destruct (first_occurrence _ _ Hin) as (kept & dropped & Hlines & Hnot).
  exists (contents ++ String "010" EOF_MARKER), kept, dropped.
  split; [apply writeCommand_script|]. split; [exact Hlines|].
  split; [exact Hnot|].
  rewrite split_on_app, Hlines.
  change (split_on "010" EOF_MARKER) with [EOF_MARKER].
  rewrite <- app_assoc. cbn [app].
  apply here_document_app, Hnot.
Qed.

Section Handlers.
Variable toString : Demux.Buffer -> string.
Variable ContainerInspectInfo : Type.
Variable Running : ContainerInspectInfo -> bool.
Variable rt : Runtime.
Variable TARGET_CONTAINER : string.

(** X17. [write_file] runs [mkdir -p] on the directory of the path unless
    that is [.] or [/], and goes on whatever the exit code of [mkdir]; then
    it tests for the file and runs the write command.  Its answer is the
    error text with the standard error of the write when that exits with a
    code other than 0, else [Overwritten] or [Created] (as the test printed
    [exists] or not) with the path and the length of the contents. *)
Theorem write_file_report (docker : Daemon ContainerInspectInfo)
  (file_path contents : string) (t : time) (log : list call)
  (checkResult : ExecResult) :
  let run := run_in_target toString ContainerInspectInfo Running
               TARGET_CONTAINER docker in
  let dir := path_dirname rt file_path in
  let nested := negb (String.eqb dir ".") && negb (String.eqb dir "/") in
  let made := run (mkdirCommand dir) t log in
  let check :=
    if nested
    then run (isNewCommand file_path) (finished_at made) (calls made)
    else run (isNewCommand file_path) t log in
  let write :=
    run (writeCommand file_path contents) (finished_at check) (calls check) in
  let response :=
    write_file toString ContainerInspectInfo Running rt TARGET_CONTAINER
      docker file_path contents t log in
  (nested = true -> exists madeResult, result made = Fulfilled madeResult) ->
  result check = Fulfilled checkResult ->
  calls response = calls write
  /\ forall written,
      result write = Fulfilled written ->
      result response
      = Fulfilled
          (text_result
             (if failed written
              then "Error writing file: " ++ stderr written
              else (if String.eqb (trim (stdout checkResult)) "exists"
                    then "Overwritten" else "Created")
                   ++ " file: " ++ file_path ++ " ("
                   ++ string_of_Z (Z.of_nat (String.length contents))
                   ++ " characters)")).
Proof.
  intros run dir nested made check write response Hmade Hcheck.
  unfold response, write_file. cbv zeta. fold dir. fold nested.
  fold (mkdirCommand dir). fold (isNewCommand file_path). fold run.
  set (prepared := if nested then _ else _).
  assert (Hprepared :
    result (prepared t log) = Fulfilled tt
    /\ run (isNewCommand file_path) (finished_at (prepared t log))
         (calls (prepared t log)) = check).
  { unfold prepared, check. destruct nested; [|split; reflexivity].
    destruct (Hmade eq_refl) as [madeResult Emade].
    unfold bind. fold made. rewrite Emade. split; reflexivity. }
  destruct Hprepared as [Hprepared Hnext]. clearbody prepared.
  split.
  - rewrite calls_try_catch_ret, calls_bind, Hprepared, calls_bind, Hnext,
      Hcheck, calls_bind.
    fold write. destruct (result write) as [written| |]; try reflexivity.
    destruct (failed written); reflexivity.
  - intros written Hwrite. unfold try_catch, bind.
    rewrite Hprepared, Hnext, Hcheck. fold write. rewrite Hwrite.
    destruct (failed written); reflexivity.
Qed.

End Handlers.

Lemma writeCommand_here_document_witness :
  exists script,
    writeCommand "/f" ("a" ++ nl ++ "b")
    = ("cat > " ++ Shell.escapeShellArg "/f"
       ++ " << 'EOF_MARKER_UNIQUE'") ++ nl ++ script
    /\ here_document EOF_MARKER (split_on "010" script)
       = (["a"; "b"], Some []).
Proof.
  apply (writeCommand_here_document "/f" ("a" ++ nl ++ "b")).
  vm_compute. intros [H | [H | []]]; discriminate H.
Defined.

Lemma writeCommand_here_document_cut_witness :
  exists script,
    writeCommand "/f" (EOF_MARKER ++ nl ++ "touch /x")
    = ("cat > " ++ Shell.escapeShellArg "/f"
       ++ " << 'EOF_MARKER_UNIQUE'") ++ nl ++ script
    /\ here_document EOF_MARKER (split_on "010" script)
       = ([], Some ["touch /x"; EOF_MARKER]).
Proof.
  destruct (writeCommand_here_document_cut "/f"
              (EOF_MARKER ++ nl ++ "touch /x"))
    as (script & kept & dropped & Hscript & Hlines & Hnot & Hread).
  - vm_compute. left. reflexivity.
  - exists script. split; [exact Hscript|].
    change (split_on "010" (EOF_MARKER ++ nl ++ "touch /x"))
      with [EOF_MARKER; "touch /x"] in Hlines.
    destruct kept as [|line kept].
    + injection Hlines as <-. exact Hread.
    + injection Hlines as <- _. exfalso. apply Hnot. left. reflexivity.
Defined.

Lemma write_file_report_witness :
  result (write_file string_of_list_byte bool (fun b => b) nested_runtime
            "box" (scripted_daemon "/srv/app/f" "x") "/srv/app/f" "hello"
            0%N [])
  = Fulfilled (text_result "Overwritten file: /srv/app/f (5 characters)").
Proof.
  edestruct (write_file_report string_of_list_byte bool (fun b => b)
               nested_runtime "box" (scripted_daemon "/srv/app/f" "x")
               "/srv/app/f" "hello" 0%N []) as [_ Hanswer].
  - intros _. eexists. vm_compute. reflexivity.
  - vm_compute. reflexivity.
  - exact (Hanswer {| stdout := EmptyString; stderr := EmptyString;
                      exitCode := Some 0%Z |} eq_refl).
Defined.

End WriteMore.

(** ** The report of [list_containers] *)
Module ListMore.
Import JS JSString Docker Tools ToolsFacts Commands.
Local Open Scope string_scope.
Local Open Scope async_scope.

Lemma format_container_append (output : string) (container : ContainerInfo) :
  format_container output container = output ++ container_block container.
Proof.
  unfold container_block, format_container. cbv zeta.
  repeat rewrite DemuxFacts.append_assoc. reflexivity.
Qed.

Lemma fold_format_container (containers : list ContainerInfo)
  (output : string) :
  fold_left format_container containers output
  = output ++ String.concat EmptyString (map container_block containers).
Proof.
  revert output. induction containers as [|c cs IH]; intros output.
  - cbn. now rewrite DemuxFacts.append_nil_r.
  - cbn [fold_left map]. rewrite IH, format_container_append.
    rewrite DemuxFacts.append_assoc. f_equal.
    destruct cs as [|c' cs]; cbn [map String.concat].
    + now rewrite DemuxFacts.append_nil_r.
    + reflexivity.
Qed.

Section Handlers.
Variable ContainerInspectInfo : Type.

(** X18. When the daemon lists at least one container, [list_containers]
    makes that one request and answers, when the list arrives, with the
    trimmed report: the header ([All] or [Running] as asked) followed by
    one block per container in the order of the list, each block made from
    its container alone. *)
Theorem list_containers_report (all : bool)
  (context : ToolContext ContainerInspectInfo) (t : time) (log : list call)
  (containers : list ContainerInfo) :
  answer (Docker.listContainers (docker context) log all) = Return containers ->
  containers <> [] ->
  let response :=
    list_containers_handler ContainerInspectInfo all context t log in
  result response
  = Fulfilled
      (text_result
         (trim (containers_header all
                ++ String.concat EmptyString
                     (map container_block containers))))
  /\ calls response = (log ++ [ListContainers all])%list
  /\ finished_at response
     = (t + latency (Docker.listContainers (docker context) log all))%N.
Proof.
  intros Hlist Hsome. cbv zeta.
  unfold list_containers_handler, try_catch, bind, await. cbv zeta.
  cbn [result finished_at calls]. rewrite Hlist.
  destruct containers as [|c cs]; [contradiction|].
  cbn [result finished_at calls]. unfold ret. cbn [result finished_at calls].
  fold (containers_header all).
  rewrite <- (fold_format_container (c :: cs) (containers_header all)).
  repeat split.
Qed.

End Handlers.

Lemma list_containers_report_witness :
  result (list_containers_handler bool false
            {| docker := one_container_daemon |} 0%N [])
  = Fulfilled
      (text_result
         (trim (containers_header false
                ++ "Name:    web" ++ nl
                ++ "ID:      0123456789ab" ++ nl
                ++ "Image:   nginx" ++ nl
                ++ "State:   running" ++ nl
                ++ "Status:  Up 2 hours" ++ nl
                ++ "Ports:   0.0.0.0:8080->80/tcp" ++ nl
                ++ repeat "-" 80 ++ nl ++ nl))).
Proof.
  refine (proj1 (list_containers_report bool false
                   {| docker := one_container_daemon |} 0%N [] _
                   eq_refl _)).
  discriminate.
Defined.

End ListMore.
